(** * Batch notification and fulfilment engine of the blood-donation backend

    A shallow embedding of

      - [models/BloodRequest.js]            (the request schema),
      - [controllers/bloodRequestController.js] in its two revisions: the
        revision that knows [confirmDonation] and the statuses ['active'] and
        ['expired'] (top level of this file), and the earlier revision that
        is kept under [controllers/] (module [V1]),
      - the batch scheduler [checkPendingBatches] of the server start-up code,
      - the text of the batch messages ([getSMSTemplate], [formatSMSMessage]
        and the composition in [sendNextBatch]) and the number handed to the
        SMS gateway by [sendSMS],
      - [utils/notificationStream.js] (the clients of the notification
        stream), and [connectToMongoDB], [authenticateToken] and the bulk
        import of donors of the server start-up code.

    The Mongo collection of requests is a finite map from [_id] to document,
    timestamps are milliseconds since the epoch, numbers are integers, a
    string is the sequence of bytes that encodes the JavaScript string in
    UTF-8 (one byte for each character of ASCII text).  Every operation
    takes the store (and the clock) and returns the new store together with
    what it answered or sent.  A [save()] runs the validators of the schema:
    where they reject the document, nothing is stored and the handler takes
    its [catch] branch. *)

From Stdlib Require Import ZArith QArith Lia Ascii String List Permutation.
From Stdlib Require Import Sorting.Sorted.
From stdpp Require Import base option list gmap strings pretty.

Local Open Scope Z_scope.

(** ** Identifiers and time *)

(** A Mongo [ObjectId]; only equality and freshness matter. *)
Abbreviation ObjectId := nat (only parsing).

(** [Date.getTime()]: milliseconds since the epoch. *)
Abbreviation Time := Z (only parsing).

(** ** The request status *)

(** Every string literal that the sources compare with, or store in,
    [BloodRequest.status]. *)
Inductive Status : Set :=
  | pending
  | active
  | fulfilled
  | expired
  | cancelled.

#[global] Instance Status_eq_dec : EqDecision Status.
Proof. solve_decision. Defined.

Definition Status_eqb (a b : Status) : bool := bool_decide (a = b).

(** [models/BloodRequest.js], field [status]:
    [enum: ['pending', 'fulfilled', 'cancelled'], default: 'pending']. *)
Module Schema.

Definition status_enum : list Status := [pending; fulfilled; cancelled].

Definition status_default : Status := pending.

(** Mongoose's enum validator on [status]. *)
Definition status_valid (s : Status) : bool :=
  bool_decide (s ∈ status_enum).

(** [bloodGroup: { required: true, enum: [...] }] and
    [quantity: { required: true, min: 1 }]. *)
Definition bloodGroup_enum : list string :=
  ["A+"; "A-"; "B+"; "B-"; "AB+"; "AB-"; "O+"; "O-"]%string.

Definition quantity_min : Z := 1.

(** [batchSize: { default: 3 }], [responseWindow: { default: 5 }],
    [confirmedUnits: { default: 0 }], [batchInProgress: { default: false }]. *)
Definition batchSize_default : Z := 3.
Definition responseWindow_default : Z := 5.
Definition confirmedUnits_default : Z := 0.
Definition batchInProgress_default : bool := false.

End Schema.

(** The statuses the specification lists for a request. *)
Definition spec_statuses : list Status := [active; fulfilled; expired; cancelled].

(** The terminal states of a request. *)
Definition terminal (s : Status) : bool :=
  bool_decide (s ∈ [fulfilled; expired; cancelled]).

(** ** Documents *)

Inductive Urgency : Set := low | medium | high | pregnancy.

Module Donor.

(** The fields of a donor document that the controller reads.  The
    directory holds documents of two shapes, hence the aliases
    (["Blood Group"], ["Mobile No"], ["Student Name"]). *)
Record t : Type := mk {
  _id : ObjectId;
  name : option string;
  Student_Name : option string;
  bloodGroup : option string;
  Blood_Group : option string;
  lastDonationDate : option Time;
  phoneNumber : option string;
  Mobile_No : option string;
  phone : option string
}.

End Donor.

Module BloodRequest.

(** The fields of [bloodRequestSchema] that the engine reads or writes
    ([description], [patientAge], [patientCondition] and [createdAt] are
    only stored). *)
Record t : Type := mk {
  hospitalId : ObjectId;
  bloodGroup : string;
  quantity : Z;
  urgency : Urgency;
  requiredBy : Time;
  status : Status;
  confirmedUnits : Z;
  batchSize : Z;
  notifiedDonors : list ObjectId;
  remainingDonorsQueue : list ObjectId;
  batchSentAt : option Time;
  responseWindow : Z;
  batchInProgress : bool
}.

Definition set_status (s : Status) (r : t) : t :=
  mk (hospitalId r) (bloodGroup r) (quantity r) (urgency r) (requiredBy r)
     s (confirmedUnits r) (batchSize r) (notifiedDonors r)
     (remainingDonorsQueue r) (batchSentAt r) (responseWindow r)
     (batchInProgress r).

Definition set_confirmedUnits (n : Z) (r : t) : t :=
  mk (hospitalId r) (bloodGroup r) (quantity r) (urgency r) (requiredBy r)
     (status r) n (batchSize r) (notifiedDonors r)
     (remainingDonorsQueue r) (batchSentAt r) (responseWindow r)
     (batchInProgress r).

Definition set_batchInProgress (b : bool) (r : t) : t :=
  mk (hospitalId r) (bloodGroup r) (quantity r) (urgency r) (requiredBy r)
     (status r) (confirmedUnits r) (batchSize r) (notifiedDonors r)
     (remainingDonorsQueue r) (batchSentAt r) (responseWindow r) b.

(** The four assignments of [sendNextBatch] before its [save()]. *)
Definition set_batch (queue notified : list ObjectId) (sentAt : Time) (r : t) : t :=
  mk (hospitalId r) (bloodGroup r) (quantity r) (urgency r) (requiredBy r)
     (status r) (confirmedUnits r) (batchSize r) notified queue
     (Some sentAt) (responseWindow r) true.

End BloodRequest.

(** The [bloodrequests] collection. *)
Abbreviation Store := (gmap nat BloodRequest.t) (only parsing).

(** ** [save()] and the validators

    [save()] validates before it writes, and throws where a validator
    fails.  On a new document every path is validated: the enums of [status]
    and [bloodGroup] and the minimum of [quantity] ([urgency] and
    [requiredBy] are of their types here, and [hospitalId] is there). *)
Definition validate (request : BloodRequest.t) : bool :=
  Schema.status_valid (BloodRequest.status request)
  && bool_decide (BloodRequest.bloodGroup request ∈ Schema.bloodGroup_enum)
  && (Schema.quantity_min <=? BloodRequest.quantity request).

(** On a document loaded from the collection the paths are validated again
    as they are at the time of the [save()].  [bloodGroup] and [quantity]
    are written once, by the [save()] that stored the document, so they
    passed; [status] is the path that the handlers assign and on which the
    two revisions of the controller and the schema differ, and its enum is
    the validator that decides. *)
Definition validate_loaded (request : BloodRequest.t) : bool :=
  Schema.status_valid (BloodRequest.status request).

(** ** JavaScript helpers *)

(** Truthiness of a possibly absent string: [undefined], [null] and the empty
    string are falsy. *)
Definition truthy (o : option string) : bool :=
  match o with
  | Some s => negb (String.eqb s EmptyString)
  | None => false
  end.

(** [a || b] on possibly absent strings. *)
Definition js_or (a b : option string) : option string :=
  if truthy a then a else b.

(** [x || d] on a number: [0] is falsy. *)
Definition num_or (x d : Z) : Z := if x =? 0 then d else x.

(** Relative index of [Array.prototype.slice]: a negative index counts from
    the end, and the result is clamped to [0 .. len]. *)
Definition slice_index {A} (l : list A) (k : Z) : nat :=
  let len := Z.of_nat (length l) in
  Z.to_nat (if k <? 0 then Z.max (len + k) 0 else Z.min k len).

(** [l.slice(0, k)] *)
Definition slice_to {A} (l : list A) (k : Z) : list A := take (slice_index l k) l.

(** [l.slice(k)] *)
Definition slice_from {A} (l : list A) (k : Z) : list A := drop (slice_index l k) l.

(** *** ASCII white space and letters

    The white space and the letters of the first 128 code points, each of
    them one byte of the string. *)

Definition is_space (c : ascii) : bool :=
  let n := nat_of_ascii c in
  ((n =? 32) || ((9 <=? n) && (n <=? 13)))%nat.

Definition upper (c : ascii) : ascii :=
  let n := nat_of_ascii c in
  if ((97 <=? n) && (n <=? 122))%nat then ascii_of_nat (n - 32) else c.

Fixpoint strip_spaces (s : string) : string :=
  match s with
  | EmptyString => EmptyString
  | String c s' => if is_space c then strip_spaces s' else String c (strip_spaces s')
  end.

Fixpoint toUpperCase (s : string) : string :=
  match s with
  | EmptyString => EmptyString
  | String c s' => String (upper c) (toUpperCase s')
  end.

(** A string of ASCII characters only. *)
Fixpoint isAscii (s : string) : bool :=
  match s with
  | EmptyString => true
  | String c s' => (nat_of_ascii c <? 128)%nat && isAscii s'
  end.

(** *** White space as the regular expression [\s] matches it

    [\s] matches the code points of WhiteSpace and LineTerminator: U+0009 to
    U+000D, U+0020, U+00A0, U+1680, U+2000 to U+200A, U+2028, U+2029, U+202F,
    U+205F, U+3000 and U+FEFF.  In UTF-8 the first six are one byte, U+00A0
    is two bytes and the others are three. *)

Definition whiteSpace1 (c : ascii) : bool := is_space c.

Definition whiteSpace2 (c1 c2 : ascii) : bool :=
  ((nat_of_ascii c1 =? 194) && (nat_of_ascii c2 =? 160))%nat.

Definition whiteSpace3 (c1 c2 c3 : ascii) : bool :=
  let n1 := nat_of_ascii c1 in
  let n2 := nat_of_ascii c2 in
  let n3 := nat_of_ascii c3 in
  (((n1 =? 225) && (n2 =? 154) && (n3 =? 128))
   || ((n1 =? 226) && (n2 =? 128)
       && (((128 <=? n3) && (n3 <=? 138)) || (n3 =? 168) || (n3 =? 169) || (n3 =? 175)))
   || ((n1 =? 226) && (n2 =? 129) && (n3 =? 159))
   || ((n1 =? 227) && (n2 =? 128) && (n3 =? 128))
   || ((n1 =? 239) && (n2 =? 187) && (n3 =? 191)))%nat.

(** [s.replace(/\s+/g, '')]: every white-space character is dropped.  No
    byte that starts one of the sequences above occurs inside the encoding
    of another character, so the scan meets them at character boundaries
    only. *)
Fixpoint removeWhiteSpace (s : string) : string :=
  match s with
  | EmptyString => EmptyString
  | String c1 s1 =>
      if whiteSpace1 c1 then removeWhiteSpace s1
      else
        match s1 with
        | EmptyString => String c1 EmptyString
        | String c2 s2 =>
            if whiteSpace2 c1 c2 then removeWhiteSpace s2
            else
              match s2 with
              | EmptyString => String c1 (removeWhiteSpace s1)
              | String c3 s3 =>
                  if whiteSpace3 c1 c2 c3 then removeWhiteSpace s3
                  else String c1 (removeWhiteSpace s1)
              end
        end
  end.

(** The bytes of a string, given by their numbers. *)
Definition bytes (l : list nat) : string :=
  fold_right (λ n s, String (ascii_of_nat n) s) EmptyString l.

(** The twenty-five characters that [\s] matches, each in UTF-8. *)
Definition whiteSpace : list string :=
  bytes <$> [ [9]; [10]; [11]; [12]; [13]; [32]; [194; 160]; [225; 154; 128];
              [226; 128; 128]; [226; 128; 129]; [226; 128; 130]; [226; 128; 131];
              [226; 128; 132]; [226; 128; 133]; [226; 128; 134]; [226; 128; 135];
              [226; 128; 136]; [226; 128; 137]; [226; 128; 138];
              [226; 128; 168]; [226; 128; 169]; [226; 128; 175];
              [226; 129; 159]; [227; 128; 128]; [239; 187; 191] ]%nat.

(** Comparison of two names by their code units.  On names that are
    capitalised ASCII words, as those of the sample data below, it orders as
    [localeCompare] does. *)
Fixpoint codeUnitCompare (a b : string) : Z :=
  match a, b with
  | EmptyString, EmptyString => 0
  | EmptyString, String _ _ => -1
  | String _ _, EmptyString => 1
  | String c a', String d b' =>
      if (nat_of_ascii c <? nat_of_ascii d)%nat then -1
      else if (nat_of_ascii d <? nat_of_ascii c)%nat then 1
      else codeUnitCompare a' b'
  end.

(** ** Dates, as [Date.prototype.getMonth] and [setMonth] compute them

    The abstract operations of the language specification on time values
    (milliseconds since the epoch). *)

Definition msPerDay : Z := 86400000.

Definition Day (t : Time) : Z := t / msPerDay.

Definition TimeWithinDay (t : Time) : Z := t mod msPerDay.

(** The day number of the first day of year [y]. *)
Definition DayFromYear (y : Z) : Z :=
  365 * (y - 1970) + (y - 1969) / 4 - (y - 1901) / 100 + (y - 1601) / 400.

(** [DaysInYear(y) = 366] *)
Definition leapYear (y : Z) : bool :=
  (y mod 4 =? 0) && (negb (y mod 100 =? 0) || (y mod 400 =? 0)).

(** The largest [y] whose first day is not after [t]: the estimate from the
    mean length of a year is off by one at most ([YearFromTime_largest]
    below). *)
Definition YearFromTime (t : Time) : Z :=
  let y := 1970 + Day t * 400 / 146097 in
  if Day t <? DayFromYear y then y - 1
  else if DayFromYear (y + 1) <=? Day t then y + 1
  else y.

Definition InLeapYear (t : Time) : Z :=
  if leapYear (YearFromTime t) then 1 else 0.

Definition DayWithinYear (t : Time) : Z := Day t - DayFromYear (YearFromTime t).

(** The days of a year before its month [m] (0 for January); [leap] is 1 in
    a leap year. *)
Definition daysBeforeMonth (m leap : Z) : Z :=
  if m =? 0 then 0
  else if m =? 1 then 31
  else if m =? 2 then 59 + leap
  else if m =? 3 then 90 + leap
  else if m =? 4 then 120 + leap
  else if m =? 5 then 151 + leap
  else if m =? 6 then 181 + leap
  else if m =? 7 then 212 + leap
  else if m =? 8 then 243 + leap
  else if m =? 9 then 273 + leap
  else if m =? 10 then 304 + leap
  else 334 + leap.

Definition MonthFromTime (t : Time) : Z :=
  let d := DayWithinYear t in
  let leap := InLeapYear t in
  if d <? 31 then 0
  else if d <? 59 + leap then 1
  else if d <? 90 + leap then 2
  else if d <? 120 + leap then 3
  else if d <? 151 + leap then 4
  else if d <? 181 + leap then 5
  else if d <? 212 + leap then 6
  else if d <? 243 + leap then 7
  else if d <? 273 + leap then 8
  else if d <? 304 + leap then 9
  else if d <? 334 + leap then 10
  else 11.

Definition DateFromTime (t : Time) : Z :=
  DayWithinYear t - daysBeforeMonth (MonthFromTime t) (InLeapYear t) + 1.

(** [MakeDay(year, month, date)]: the month may lie outside [0 .. 11] and the
    date outside the month; both carry over. *)
Definition MakeDay (year month date : Z) : Z :=
  let ym := year + month / 12 in
  let mn := month mod 12 in
  DayFromYear ym + daysBeforeMonth mn (if leapYear ym then 1 else 0) + date - 1.

Definition MakeDate (day time : Z) : Time := day * msPerDay + time.

(** The days between the first of the month [k] months before month [m] of
    year [y] and the first of that month: the lengths of the [k] months in
    between. *)
Definition monthsBack (k y m : Z) : Z :=
  DayFromYear y + daysBeforeMonth m (if leapYear y then 1 else 0)
  - MakeDay y (m - k) 1.

Section LocalTime.

(** [LocalTZA(t, isUTC)]: the offset of the local time zone, in
    milliseconds, at the time value [t] read as UTC or as local time.  It
    belongs to the host. *)
Variable LocalTZA : Time → bool → Z.

Definition LocalTime (t : Time) : Time := t + LocalTZA t true.

Definition UTC (t : Time) : Time := t - LocalTZA t false.

(** [d.getMonth()] *)
Definition getMonth (t : Time) : Z := MonthFromTime (LocalTime t).

(** [d.setMonth(month)], for time values within the range of [Date], where
    [TimeClip] changes nothing. *)
Definition setMonth (t : Time) (month : Z) : Time :=
  let local := LocalTime t in
  let newDate :=
    MakeDate (MakeDay (YearFromTime local) month (DateFromTime local))
             (TimeWithinDay local) in
  UTC newDate.

End LocalTime.

(** A zone without daylight saving: UTC, and Indian Standard Time. *)
Definition fixedZone (offset : Z) : Time → bool → Z := λ _ _, offset.

Definition utc : Time → bool → Z := fixedZone 0.

Definition ist : Time → bool → Z := fixedZone 19800000.

(** ** The script [test_3month_rule.js]

    It stores three donors, one who gave blood a month ago, one four months
    ago and one never, runs the filter of the controller's three-month rule
    on them and reports whether the first is blocked and the others are
    allowed.  [t1], [t2] and [t3] are what its three [new Date()] read.
    [Donor.create] is taken to return the three documents with the [name]
    and the [lastDonationDate] they were given: the donor model is not among
    the sources, and a run in which it throws prints no verdict. *)
Module Test3MonthRule.

Section Script.

Variable LocalTZA : Time → bool → Z.

(** [d = new Date(); d.setMonth(d.getMonth() - k)], for a clock that reads
    [now]. *)
Definition monthsAgo (k : Z) (now : Time) : Time :=
  setMonth LocalTZA now (getMonth LocalTZA now - k).

Record TestDonor : Type := {
  name : string;
  lastDonationDate : option Time
}.

Definition testDonors (t1 t2 : Time) : list TestDonor :=
  [ {| name := "Test Recent"; lastDonationDate := Some (monthsAgo 1 t1) |};
    {| name := "Test Eligible"; lastDonationDate := Some (monthsAgo 4 t2) |};
    {| name := "Test New"; lastDonationDate := None |} ].

(** The callback of [createdDonors.filter(...)]. *)
Definition allowed (threeMonthsAgo : Time) (donor : TestDonor) : bool :=
  match lastDonationDate donor with
  | Some lastDonation => if threeMonthsAgo <? lastDonation then false else true
  | None => true
  end.

(** [!!matchingDonors.find(d => d.name === n)] *)
Definition found (n : string) (matchingDonors : list TestDonor) : bool :=
  existsb (λ d, String.eqb (name d) n) matchingDonors.

(** [recentPassed && eligiblePassed && newPassed]: the script prints
    TEST PASSED. *)
Definition runTest (t1 t2 t3 : Time) : bool :=
  let threeMonthsAgo := monthsAgo 3 t3 in
  let matchingDonors := List.filter (allowed threeMonthsAgo) (testDonors t1 t2) in
  let recentPassed := negb (found "Test Recent" matchingDonors) in
  let eligiblePassed := found "Test Eligible" matchingDonors in
  let newPassed := found "Test New" matchingDonors in
  recentPassed && eligiblePassed && newPassed.

End Script.

End Test3MonthRule.

(** ** Stable sorting, as [Array.prototype.sort(compareFn)]

    [sort] is stable, and for a consistent comparator its result is the one
    stable sorted arrangement, whatever algorithm the engine runs; insertion
    from the right computes it. *)
Section Sort.

Context {A : Type} (compareFn : A → A → Z).

Fixpoint insert_sorted (x : A) (l : list A) : list A :=
  match l with
  | [] => [x]
  | y :: l' =>
      if compareFn x y <=? 0 then x :: y :: l' else y :: insert_sorted x l'
  end.

Fixpoint js_sort (l : list A) : list A :=
  match l with
  | [] => []
  | x :: l' => insert_sorted x (js_sort l')
  end.

(** A consistent comparator: any two elements are ordered one way or the
    other, and the order is transitive. *)
Definition consistent : Prop :=
  (∀ a b, compareFn a b <= 0 ∨ compareFn b a <= 0)
  ∧ (∀ a b c, compareFn a b <= 0 → compareFn b c <= 0 → compareFn a c <= 0).

Definition before (a b : A) : Prop := compareFn a b <= 0.

(** [a] and [b] compare as equal, in both directions. *)
Definition tied (a b : A) : bool :=
  (compareFn a b <=? 0) && (compareFn b a <=? 0).

End Sort.


(** ** Responses of the HTTP handlers *)

Inductive Response : Type :=
  | Created (requestId : ObjectId) (message : option string)
  | NotFound
  | Closed
  | Data (request : BloodRequest.t)
  | AlreadyClosed
  | Confirmed (request : BloodRequest.t)
  | ServerError (message : option string).

(** [res.status(..)] *)
Definition http_status (r : Response) : Z :=
  match r with
  | Created _ _ => 201
  | NotFound => 404
  | AlreadyClosed => 400
  | Closed | Data _ | Confirmed _ => 200
  | ServerError _ => 500
  end.

(** The [success] member of the JSON body. *)
Definition success (r : Response) : bool :=
  match r with
  | NotFound | AlreadyClosed | ServerError _ => false
  | _ => true
  end.

(** The [message] member of the JSON body. *)
Definition message (r : Response) : option string :=
  match r with
  | NotFound => Some "Blood request not found"%string
  | Closed => Some "Blood request fulfilled. Thank you."%string
  | AlreadyClosed => Some "Blood request already fulfilled or expired."%string
  | Confirmed _ => Some "Donation confirmed successfully."%string
  | Data _ => None
  | Created _ message | ServerError message => message
  end.

(** The request document carried in the [data] member, if any. *)
Definition data (r : Response) : option BloodRequest.t :=
  match r with
  | Data request | Confirmed request => Some request
  | _ => None
  end.

(** The body of [POST /blood-requests]. *)
Record RequestBody : Type := {
  body_bloodGroup : string;
  body_quantity : Z;
  body_urgency : Urgency;
  body_requiredBy : Time
}.

(** One [sendSMS(donorPhone, message)] call: the donor and the number. *)
Abbreviation Sms := (nat * string)%type (only parsing).

(** ** The controller, revision with [confirmDonation]

    This revision writes the statuses ['active'] and ['expired'], which the
    enum of [Schema] does not list: a [save()] of a document with one of
    them throws. *)

Section Controller.

(** [String.prototype.localeCompare], [String.prototype.toUpperCase] and the
    offset of the local time zone belong to the JavaScript runtime and its
    host. *)
Variable localeCompare : string → string → Z.
Variable String_toUpperCase : string → string.
Variable LocalTZA : Time → bool → Z.

(** [s.replace(/\s+/g, '').toUpperCase()] *)
Definition normalize (s : string) : string :=
  String_toUpperCase (removeWhiteSpace s).

(** [donor.bloodGroup || donor["Blood Group"]] *)
Definition donorBloodGroup (donor : Donor.t) : option string :=
  js_or (Donor.bloodGroup donor) (Donor.Blood_Group donor).

(** [donorBloodGroup ? donorBloodGroup.replace(/\s+/g, '').toUpperCase() : ''] *)
Definition normalizedDonor (donor : Donor.t) : string :=
  if truthy (donorBloodGroup donor)
  then normalize (default EmptyString (donorBloodGroup donor))
  else EmptyString.

(** [threeMonthsAgo = new Date(); threeMonthsAgo.setMonth(threeMonthsAgo.getMonth() - 3)] *)
Definition threeMonthsAgo (now : Time) : Time :=
  setMonth LocalTZA now (getMonth LocalTZA now - 3).

(** The callback of [allDonors.filter(...)] in [createBloodRequest]. *)
Definition matching (now : Time) (bloodGroup : string) (donor : Donor.t) : bool :=
  let tooRecent :=
    match Donor.lastDonationDate donor with
    | Some lastDonation => threeMonthsAgo now <? lastDonation
    | None => false
    end in
  if tooRecent then false
  else
    let normalizedRequested := normalize bloodGroup in
    String.eqb (normalizedDonor donor) normalizedRequested.

(** [(a, b) => (a.name || '').localeCompare(b.name || '')] *)
Definition byName (a b : Donor.t) : Z :=
  localeCompare (default EmptyString (js_or (Donor.name a) (Some EmptyString)))
                (default EmptyString (js_or (Donor.name b) (Some EmptyString))).

Definition matchingDonors (now : Time) (bloodGroup : string)
    (allDonors : list Donor.t) : list Donor.t :=
  js_sort byName (List.filter (matching now bloodGroup) allDonors).

(** [matchingDonors.map(d => d._id)] *)
Definition donorIds (now : Time) (bloodGroup : string)
    (allDonors : list Donor.t) : list ObjectId :=
  map Donor._id (matchingDonors now bloodGroup allDonors).

(** [new BloodRequest({..., confirmedUnits: 0, batchSize: 1,
    responseWindow: 2, batchInProgress: false, status: 'active'})] with its
    queue filled in. *)
Definition newBloodRequest (hospital : ObjectId) (body : RequestBody)
    (queue : list ObjectId) : BloodRequest.t :=
  BloodRequest.mk hospital (body_bloodGroup body) (body_quantity body)
    (body_urgency body) (body_requiredBy body)
    active 0 1 [] queue None 2 false.

(** [createBloodRequest] up to its answer.  Where [bloodRequest.save()]
    passes, the store hands out an [_id] that no document has, and the
    handler then calls [sendNextBatch] on that id without awaiting it, so
    that call is a step of its own; where it throws, nothing is stored, no
    batch is started and the [catch] branch answers
    [res.status(500).json({ success: false, error })]. *)
Definition createBloodRequest (db : Store) (allDonors : list Donor.t)
    (now : Time) (hospital : ObjectId) (body : RequestBody)
    : Store * Response :=
  let bloodRequest :=
    newBloodRequest hospital body (donorIds now (body_bloodGroup body) allDonors) in
  if validate bloodRequest then
    let _id := fresh (dom db) in
    (<[_id := bloodRequest]> db, Created _id None)
  else (db, ServerError None).

(** [donor.phoneNumber || donor["Mobile No"] || donor.phone] *)
Definition donorPhone (donor : Donor.t) : option string :=
  js_or (js_or (Donor.phoneNumber donor) (Donor.Mobile_No donor)) (Donor.phone donor).

(** The fan-out of [sendNextBatch]: the donors found by
    [Donor.find({ _id: { $in: nextBatchIds } })], those without a phone
    skipped; one [sendSMS] for each of the others (the text of the message,
    the response token and the notification that follow a successful send
    are left out). *)
Definition batchSms (allDonors : list Donor.t) (nextBatchIds : list ObjectId)
    : list Sms :=
  omap (λ donor,
          if truthy (donorPhone donor)
          then Some (Donor._id donor, default EmptyString (donorPhone donor))
          else None)
       (List.filter (λ donor, bool_decide (Donor._id donor ∈ nextBatchIds)) allDonors).

(** The dequeue of [sendNextBatch], shared by both revisions: everything
    after the guards.  [now] is the [new Date()] that the function reads for
    [batchSentAt].  The four assignments are made to the loaded document;
    where [request.save()] throws, the [catch] of [sendNextBatch] logs the
    error: nothing is stored and nothing is sent. *)
Definition dequeueBatch (db : Store) (allDonors : list Donor.t) (now : Time)
    (requestId : ObjectId) (request : BloodRequest.t) : Store * list Sms :=
  let batchSize := num_or (BloodRequest.batchSize request) 1 in
  let nextBatchIds := slice_to (BloodRequest.remainingDonorsQueue request) batchSize in
  let request' :=
    BloodRequest.set_batch
      (slice_from (BloodRequest.remainingDonorsQueue request) batchSize)
      (BloodRequest.notifiedDonors request ++ nextBatchIds)
      now request in
  if validate_loaded request'
  then (<[requestId := request']> db, batchSms allDonors nextBatchIds)
  else (db, []).

Definition sendNextBatch (db : Store) (allDonors : list Donor.t) (now : Time)
    (requestId : ObjectId) : Store * list Sms :=
  match db !! requestId with
  | None => (db, [])
  | Some request =>
      if Status_eqb (BloodRequest.status request) fulfilled
         || Status_eqb (BloodRequest.status request) cancelled
         || Status_eqb (BloodRequest.status request) expired
      then (db, [])
      else if (length (BloodRequest.remainingDonorsQueue request) =? 0)%nat
      then (db, [])
      else dequeueBatch db allDonors now requestId request
  end.

(** [request.save()] after the assignment of one path: Mongoose writes the
    modified path of the stored document. *)
Definition save_status (s : Status) (requestId : ObjectId) (db : Store) : Store :=
  alter (BloodRequest.set_status s) requestId db.

(** [request.status = s; await request.save()] of [getBloodRequestById]:
    the store and the document after it, or nothing where the [save()]
    throws. *)
Definition assign_status (s : Status) (id : ObjectId) (db : Store)
    (request : BloodRequest.t) : option (Store * BloodRequest.t) :=
  let request' := BloodRequest.set_status s request in
  if validate_loaded request' then Some (save_status s id db, request') else None.

(** A [save()] that throws takes the handler to its [catch] branch,
    [res.status(500).json({ success: false, error })]. *)
Definition getBloodRequestById (db : Store) (now : Time) (id : ObjectId)
    : Store * Response :=
  match db !! id with
  | None => (db, NotFound)
  | Some request =>
      let isExpired := BloodRequest.requiredBy request <? now in
      let isFull := BloodRequest.quantity request <=? BloodRequest.confirmedUnits request in
      let updated :=
        if Status_eqb (BloodRequest.status request) active then
          if isFull then assign_status fulfilled id db request
          else if isExpired then assign_status expired id db request
          else Some (db, request)
        else Some (db, request) in
      match updated with
      | None => (db, ServerError None)
      | Some (db', request') =>
          if negb (Status_eqb (BloodRequest.status request') active) || isFull || isExpired
          then (db', Closed)
          else (db', Data request')
      end
  end.

(** The filter of the [findOneAndUpdate] in [confirmDonation]:
    [{ status: 'active', $expr: { $lt: ['$confirmedUnits', '$quantity'] },
       requiredBy: { $gte: now } }]. *)
Definition confirmable (now : Time) (request : BloodRequest.t) : bool :=
  Status_eqb (BloodRequest.status request) active
  && (BloodRequest.confirmedUnits request <? BloodRequest.quantity request)
  && (now <=? BloodRequest.requiredBy request).

(** [BloodRequest.findOneAndUpdate(filter, { $inc: { confirmedUnits: 1 } },
    { new: true })]: one operation of the store, which tests the filter and
    increments within that operation, and returns the updated document or
    [null]. *)
Definition findOneAndUpdate_inc (db : Store) (now : Time) (requestId : ObjectId)
    : Store * option BloodRequest.t :=
  match db !! requestId with
  | Some request =>
      if confirmable now request then
        let updated :=
          BloodRequest.set_confirmedUnits (BloodRequest.confirmedUnits request + 1) request in
        (<[requestId := updated]> db, Some updated)
      else (db, None)
  | None => (db, None)
  end.

Definition confirmDonation (db : Store) (now : Time) (requestId : ObjectId)
    : Store * Response :=
  match findOneAndUpdate_inc db now requestId with
  | (db', None) => (db', AlreadyClosed)
  | (db', Some updatedRequest) =>
      if BloodRequest.quantity updatedRequest <=? BloodRequest.confirmedUnits updatedRequest
      then (save_status fulfilled requestId db',
            Confirmed (BloodRequest.set_status fulfilled updatedRequest))
      else (db', Confirmed updatedRequest)
  end.

End Controller.

(** ** The controller, revision kept under [controllers/]

    It has no [confirmDonation], leaves [status] to the schema default, does
    not test for ['expired'] and answers every read with the document. *)
Module V1.

Definition newBloodRequest (hospital : ObjectId) (body : RequestBody)
    (queue : list ObjectId) : BloodRequest.t :=
  BloodRequest.mk hospital (body_bloodGroup body) (body_quantity body)
    (body_urgency body) (body_requiredBy body)
    Schema.status_default 0 1 [] queue None 2 false.

(** The [message] member of the answer 201. *)
Definition created : string :=
  "Blood request created. SMS batch processing started.".

(** The [catch] branch answers [res.status(500).json({ success: false,
    message: 'Failed to create blood request', error })]. *)
Definition createBloodRequest (localeCompare : string → string → Z)
    (String_toUpperCase : string → string) (LocalTZA : Time → bool → Z)
    (db : Store) (allDonors : list Donor.t)
    (now : Time) (hospital : ObjectId) (body : RequestBody)
    : Store * Response :=
  let bloodRequest :=
    newBloodRequest hospital body
      (donorIds localeCompare String_toUpperCase LocalTZA now
         (body_bloodGroup body) allDonors) in
  if validate bloodRequest then
    let _id := fresh (dom db) in
    (<[_id := bloodRequest]> db, Created _id (Some created))
  else (db, ServerError (Some "Failed to create blood request"%string)).

Definition sendNextBatch (db : Store) (allDonors : list Donor.t) (now : Time)
    (requestId : ObjectId) : Store * list Sms :=
  match db !! requestId with
  | None => (db, [])
  | Some request =>
      if Status_eqb (BloodRequest.status request) fulfilled
         || Status_eqb (BloodRequest.status request) cancelled
      then (db, [])
      else if (length (BloodRequest.remainingDonorsQueue request) =? 0)%nat
      then (db, [])
      else dequeueBatch db allDonors now requestId request
  end.

(** The effect of this [sendNextBatch] on the document it is called for. *)
Definition dispatch (now : Time) (request : BloodRequest.t) : BloodRequest.t :=
  if Status_eqb (BloodRequest.status request) fulfilled
     || Status_eqb (BloodRequest.status request) cancelled
     || bool_decide (BloodRequest.remainingDonorsQueue request = [])
  then request
  else
    let batchSize := num_or (BloodRequest.batchSize request) 1 in
    let request' :=
      BloodRequest.set_batch
        (slice_from (BloodRequest.remainingDonorsQueue request) batchSize)
        (BloodRequest.notifiedDonors request
           ++ slice_to (BloodRequest.remainingDonorsQueue request) batchSize)
        now request in
    if validate_loaded request' then request' else request.

Definition getBloodRequestById (db : Store) (id : ObjectId) : Store * Response :=
  match db !! id with
  | None => (db, NotFound)
  | Some request => (db, Data request)
  end.

End V1.

(** ** The batch scheduler: [checkPendingBatches] *)

Section Scheduler.

(** The [sendNextBatch] the server imports from the controller. *)
Variable sendNextBatch :
  Store → list Donor.t → Time → ObjectId → Store * list Sms.

(** [BloodRequest.find({ status: 'pending', batchInProgress: true,
    $expr: { $lt: ['$confirmedUnits', '$quantity'] } })] *)
Definition scanned (request : BloodRequest.t) : bool :=
  Status_eqb (BloodRequest.status request) pending
  && BloodRequest.batchInProgress request
  && (BloodRequest.confirmedUnits request <? BloodRequest.quantity request).

Definition pendingRequests (db : Store) : list (ObjectId * BloodRequest.t) :=
  filter (λ entry, scanned entry.2) (map_to_list db).

(** [(now - sentTime) / (1000 * 60)] *)
Definition elapsedMinutes (now sentTime : Time) : Q :=
  Qmake (now - sentTime) (60 * 1000).

(** [elapsedMinutes >= windowMinutes], with
    [windowMinutes = request.responseWindow || 2]. *)
Definition windowClosed (now : Time) (request : BloodRequest.t) (sentTime : Time) : bool :=
  let windowMinutes := num_or (BloodRequest.responseWindow request) 2 in
  Qle_bool (inject_Z windowMinutes) (elapsedMinutes now sentTime).

(** What a tick has done so far: the store, the requests handed to
    [sendNextBatch] and the messages those calls sent. *)
Record Tick : Type := {
  tick_db : Store;
  tick_advanced : list ObjectId;
  tick_sms : list Sms
}.

(** The body of [for (const request of pendingRequests)]; [request] is the
    snapshot that the scan returned, and the [save()] writes the one path it
    changed (the status of a scanned request is ['pending'], which the
    validator admits).  [now] is the [Date.now()] that the tick reads once,
    before the loop; the [sendNextBatch] called for a request reads a clock
    of its own, later, and [sentAt] gives that reading for each request. *)
Definition checkOne (allDonors : list Donor.t) (now : Time) (sentAt : ObjectId → Time)
    (acc : Tick) (entry : ObjectId * BloodRequest.t) : Tick :=
  let request := entry.2 in
  match BloodRequest.batchSentAt request with
  | None => acc
  | Some sentTime =>
      if windowClosed now request sentTime then
        let db1 := alter (BloodRequest.set_batchInProgress false) entry.1 (tick_db acc) in
        let '(db2, sms) := sendNextBatch db1 allDonors (sentAt entry.1) entry.1 in
        {| tick_db := db2;
           tick_advanced := tick_advanced acc ++ [entry.1];
           tick_sms := tick_sms acc ++ sms |}
      else acc
  end.

(** [dbReady] is [mongoose.connection.readyState === 1]. *)
Definition checkPendingBatches (dbReady : bool) (db : Store)
    (allDonors : list Donor.t) (now : Time) (sentAt : ObjectId → Time) : Tick :=
  let start := {| tick_db := db; tick_advanced := []; tick_sms := [] |} in
  if negb dbReady then start
  else foldl (checkOne allDonors now sentAt) start (pendingRequests db).

End Scheduler.

(** ** The engine as a transition system

    One event is one handler run, one detached [sendNextBatch] or one tick of
    the scheduler, at the time it happens and with the donor directory as it
    is then; a tick comes with the clock readings of the [sendNextBatch]
    calls it makes.  The scheduler calls the [sendNextBatch] of the
    controller that also serves the public route, the revision with
    [confirmDonation]. *)

Inductive Op : Type :=
  | OpCreate (allDonors : list Donor.t) (hospital : ObjectId) (body : RequestBody)
  | OpSendNextBatch (allDonors : list Donor.t) (requestId : ObjectId)
  | OpGet (id : ObjectId)
  | OpConfirm (requestId : ObjectId)
  | OpTick (dbReady : bool) (allDonors : list Donor.t) (sentAt : ObjectId → Time).

Section Engine.

Variable localeCompare : string → string → Z.
Variable String_toUpperCase : string → string.
Variable LocalTZA : Time → bool → Z.

Definition step (db : Store) (event : Time * Op) : Store :=
  let now := event.1 in
  match event.2 with
  | OpCreate allDonors hospital body =>
      (createBloodRequest localeCompare String_toUpperCase LocalTZA
         db allDonors now hospital body).1
  | OpSendNextBatch allDonors requestId =>
      (sendNextBatch db allDonors now requestId).1
  | OpGet id => (getBloodRequestById db now id).1
  | OpConfirm requestId => (confirmDonation db now requestId).1
  | OpTick dbReady allDonors sentAt =>
      tick_db (checkPendingBatches sendNextBatch dbReady db allDonors now sentAt)
  end.

Definition run (db : Store) (events : list (Time * Op)) : Store :=
  foldl step db events.

End Engine.

Definition is_tick (event : Time * Op) : bool :=
  match event.2 with
  | OpTick _ _ _ => true
  | _ => false
  end.

(** A run of [confirmDonation] calls on one request: the store at the end and
    the answers in order. *)
Fixpoint confirmAll (db : Store) (requestId : ObjectId) (times : list Time)
    : Store * list Response :=
  match times with
  | [] => (db, [])
  | now :: times' =>
      let '(db1, answer) := confirmDonation db now requestId in
      let '(db2, answers) := confirmAll db1 requestId times' in
      (db2, answer :: answers)
  end.

(** The calls that reported success. *)
Definition successes (answers : list Response) : nat :=
  length (List.filter success answers).

(** ** Concurrent confirmations

    A [confirmDonation] handler talks to the store twice: the
    [findOneAndUpdate], and the [save()] when that update reached the
    quantity.  Each is one operation of the store; between the two, other
    handlers may take their steps. *)

Inductive Handler : Type :=
  | Waiting (now : Time)
  | Saving
  | Answered (ok : bool).

Definition handler_step (requestId : ObjectId) (db : Store) (h : Handler)
    : Store * Handler :=
  match h with
  | Waiting now =>
      match findOneAndUpdate_inc db now requestId with
      | (db', None) => (db', Answered false)
      | (db', Some updatedRequest) =>
          if BloodRequest.quantity updatedRequest
             <=? BloodRequest.confirmedUnits updatedRequest
          then (db', Saving)
          else (db', Answered true)
      end
  | Saving => (save_status fulfilled requestId db, Answered true)
  | Answered ok => (db, Answered ok)
  end.

(** The handlers take their steps in the order of [schedule], a list of
    positions in [handlers]. *)
Fixpoint interleave (requestId : ObjectId) (db : Store) (handlers : list Handler)
    (schedule : list nat) : Store * list Handler :=
  match schedule with
  | [] => (db, handlers)
  | i :: schedule' =>
      match handlers !! i with
      | None => interleave requestId db handlers schedule'
      | Some h =>
          let '(db', h') := handler_step requestId db h in
          interleave requestId db' (<[i := h']> handlers) schedule'
      end
  end.

(** The handlers whose increment went through, those that were refused, and
    those that have answered. *)
Definition incremented (h : Handler) : bool :=
  match h with
  | Saving | Answered true => true
  | _ => false
  end.

Definition refused (h : Handler) : bool :=
  match h with
  | Answered false => true
  | _ => false
  end.

Definition answered (h : Handler) : bool :=
  match h with
  | Answered _ => true
  | _ => false
  end.

(** One step of a handler, on the request it is about. *)
Definition handler_request (r : BloodRequest.t) (h : Handler)
    : BloodRequest.t * Handler :=
  match h with
  | Waiting now =>
      if confirmable now r then
        let updated :=
          BloodRequest.set_confirmedUnits (BloodRequest.confirmedUnits r + 1) r in
        (updated,
         if BloodRequest.quantity updated <=? BloodRequest.confirmedUnits updated
         then Saving else Answered true)
      else (r, Answered false)
  | Saving => (BloodRequest.set_status fulfilled r, Answered true)
  | Answered ok => (r, Answered ok)
  end.

(** What holds of the request and the handlers along every schedule. *)
Definition confirm_inv (Q : Z) (r : BloodRequest.t) (hs : list Handler) : Prop :=
  BloodRequest.quantity r = Q
  ∧ 0 <= BloodRequest.confirmedUnits r <= Q
  ∧ BloodRequest.confirmedUnits r = Z.of_nat (length (List.filter incremented hs)).

(** And, for a request that started active, while no handler took its time
    after the deadline. *)
Definition open_inv (Q : Z) (D : Time) (r : BloodRequest.t) (hs : list Handler) : Prop :=
  BloodRequest.requiredBy r = D
  ∧ (BloodRequest.status r = active ∨ BloodRequest.confirmedUnits r = Q)
  ∧ (∀ i now, hs !! i = Some (Waiting now) → now <= D)
  ∧ (∀ i, hs !! i = Some Saving → BloodRequest.confirmedUnits r = Q)
  ∧ (∀ i, hs !! i = Some (Answered false) → BloodRequest.confirmedUnits r = Q).

(** ** The engine seen from one request

    Every operation reads and writes the one document it is called for; these
    are its effects on that document. *)

(** [sendNextBatch] *)
Definition dispatch (now : Time) (request : BloodRequest.t) : BloodRequest.t :=
  if terminal (BloodRequest.status request)
     || bool_decide (BloodRequest.remainingDonorsQueue request = [])
  then request
  else
    let batchSize := num_or (BloodRequest.batchSize request) 1 in
    let request' :=
      BloodRequest.set_batch
        (slice_from (BloodRequest.remainingDonorsQueue request) batchSize)
        (BloodRequest.notifiedDonors request
           ++ slice_to (BloodRequest.remainingDonorsQueue request) batchSize)
        now request in
    if validate_loaded request' then request' else request.

(** What [request.status = s; await request.save()] leaves stored. *)
Definition stored_status (s : Status) (request : BloodRequest.t) : BloodRequest.t :=
  let request' := BloodRequest.set_status s request in
  if validate_loaded request' then request' else request.

(** The lifecycle evaluation of [getBloodRequestById] *)
Definition lifecycle (now : Time) (request : BloodRequest.t) : BloodRequest.t :=
  if Status_eqb (BloodRequest.status request) active then
    if BloodRequest.quantity request <=? BloodRequest.confirmedUnits request
    then stored_status fulfilled request
    else if BloodRequest.requiredBy request <? now
    then stored_status expired request
    else request
  else request.

(** [confirmDonation] *)
Definition confirm (now : Time) (request : BloodRequest.t) : BloodRequest.t :=
  if confirmable now request then
    let updated :=
      BloodRequest.set_confirmedUnits (BloodRequest.confirmedUnits request + 1) request in
    if BloodRequest.quantity updated <=? BloodRequest.confirmedUnits updated
    then BloodRequest.set_status fulfilled updated
    else updated
  else request.

(** The test of the scheduler loop on a scanned request: it has a
    [batchSentAt] and its window is closed. *)
Definition windowOver (now : Time) (request : BloodRequest.t) : bool :=
  match BloodRequest.batchSentAt request with
  | Some sentTime => windowClosed now request sentTime
  | None => false
  end.

(** The requests a tick advances. *)
Definition due (now : Time) (request : BloodRequest.t) : bool :=
  scanned request && windowOver now request.

(** One tick of the scheduler, for a controller whose [sendNextBatch] does
    [send] to the document; [sentAt] is the clock reading of that call. *)
Definition advance_by (send : Time → BloodRequest.t → BloodRequest.t)
    (now sentAt : Time) (request : BloodRequest.t) : BloodRequest.t :=
  if due now request
  then send sentAt (BloodRequest.set_batchInProgress false request)
  else request.

Definition advance : Time → Time → BloodRequest.t → BloodRequest.t :=
  advance_by dispatch.

(** How a stored request may differ from an earlier state of itself. *)
Definition evolves (r r' : BloodRequest.t) : Prop :=
  BloodRequest.quantity r' = BloodRequest.quantity r
  ∧ BloodRequest.requiredBy r' = BloodRequest.requiredBy r
  ∧ BloodRequest.batchSize r' = BloodRequest.batchSize r
  ∧ (BloodRequest.status r' = BloodRequest.status r
     ∨ (BloodRequest.status r = active
        ∧ BloodRequest.status r' ∈ [fulfilled; expired]))
  ∧ BloodRequest.confirmedUnits r <= BloodRequest.confirmedUnits r'
  ∧ (BloodRequest.confirmedUnits r <= BloodRequest.quantity r →
     BloodRequest.confirmedUnits r' <= BloodRequest.quantity r)
  ∧ BloodRequest.notifiedDonors r' ++ BloodRequest.remainingDonorsQueue r'
    = BloodRequest.notifiedDonors r ++ BloodRequest.remainingDonorsQueue r
  ∧ BloodRequest.notifiedDonors r `prefix_of` BloodRequest.notifiedDonors r'.

Definition step_request (event : Time * Op) (id : ObjectId)
    (request : BloodRequest.t) : BloodRequest.t :=
  let now := event.1 in
  match event.2 with
  | OpCreate _ _ _ => request
  | OpSendNextBatch _ requestId =>
      if decide (requestId = id) then dispatch now request else request
  | OpGet id' => if decide (id' = id) then lifecycle now request else request
  | OpConfirm requestId =>
      if decide (requestId = id) then confirm now request else request
  | OpTick dbReady _ sentAt =>
      if dbReady then advance now (sentAt id) request else request
  end.

(** ** Sample data

    A small donor directory and request, for the concrete runs below. *)

Definition sampleDonor (id : ObjectId) (name bloodGroup : string)
    (lastDonationDate : option Time) : Donor.t :=
  Donor.mk id (Some name) None (Some bloodGroup) None lastDonationDate
    (Some "5550100"%string) None None.

Definition sampleDirectory : list Donor.t :=
  [ sampleDonor 1 "Eve" "O+" None;
    sampleDonor 2 "Cy" " o +" (Some 0);
    sampleDonor 3 "Al" "A+" None;
    sampleDonor 4 "Bob" "O+" (Some 9000000000);
    sampleDonor 5 "Al" "o+" None;
    sampleDonor 6 "Al" "O+" None ].

(** A request for three units with three donors queued. *)
Definition sampleRequest (status : Status) : BloodRequest.t :=
  BloodRequest.mk 77 "O+" 3 high 20000000000 status 0 1 []
    [5; 6; 1]%nat None 2 false.

(** The sample request after its first batch went out at time 1000. *)
Definition sampleSent (status : Status) : BloodRequest.t :=
  BloodRequest.set_batch [6; 1]%nat [5]%nat 1000 (sampleRequest status).

(** A clock that reads [t] whatever the request. *)
Definition clockAt (t : Time) : ObjectId → Time := λ _, t.

Definition sampleBody : RequestBody :=
  {| body_bloodGroup := "O+"; body_quantity := 3; body_urgency := high;
     body_requiredBy := 20000000000 |}.

(** ** Strings, as the messaging code uses them *)

(** Whether the character [c] occurs in [s]. *)
Fixpoint has (c : ascii) (s : string) : bool :=
  match s with
  | EmptyString => false
  | String d s' => Ascii.eqb c d || has c s'
  end.

(** [s] without its prefix [p], when it starts with [p]. *)
Fixpoint stripPrefix (p s : string) : option string :=
  match p with
  | EmptyString => Some s
  | String c p' =>
      match s with
      | String d s' => if Ascii.eqb c d then stripPrefix p' s' else None
      | EmptyString => None
      end
  end.

(** [s.startsWith(p)] *)
Definition startsWith (s p : string) : bool :=
  if stripPrefix p s is Some _ then true else false.

(** The first occurrence of [pattern] in [s]: the text before it and the
    text after it. *)
Fixpoint firstMatch (pattern s : string) {struct s} : option (string * string) :=
  match stripPrefix pattern s with
  | Some after => Some (EmptyString, after)
  | None =>
      match s with
      | EmptyString => None
      | String c s' =>
          (λ found : string * string, (String c found.1, found.2))
            <$> firstMatch pattern s'
      end
  end.

(** [s.includes(p)] *)
Definition includes (s p : string) : bool :=
  if firstMatch p s is Some _ then true else false.

(** [GetSubstitution] for a pattern that is a string, hence without
    captures: in the replacement [$$] stands for a dollar, [$&] for the
    match, [$`] for the text before it and [$'] for the text after it; any
    other [$] stands for itself. *)
Fixpoint getSubstitution (matched before after replacement : string) : string :=
  match replacement with
  | EmptyString => EmptyString
  | String c r =>
      if Ascii.eqb c "$" then
        match r with
        | String d r' =>
            if Ascii.eqb d "$" then
              String "$" (getSubstitution matched before after r')
            else if Ascii.eqb d "&" then
              matched +:+ getSubstitution matched before after r'
            else if Ascii.eqb d "`" then
              before +:+ getSubstitution matched before after r'
            else if Ascii.eqb d "'" then
              after +:+ getSubstitution matched before after r'
            else String c (getSubstitution matched before after r)
        | EmptyString => String c EmptyString
        end
      else String c (getSubstitution matched before after r)
  end.

(** [s.replace(pattern, replacement)] with a string [pattern]: the first
    occurrence only. *)
Definition replace (s pattern replacement : string) : string :=
  match firstMatch pattern s with
  | Some (before, after) =>
      before +:+ getSubstitution pattern before after replacement +:+ after
  | None => s
  end.

(** ** The text of a batch message ([services/smsService.js] and the body
    of the [donors.map] in [sendNextBatch]) *)

(** [getSMSTemplate(priority)]: one template, whatever the priority. *)
Definition getSMSTemplate (priority : string) : string :=
  "URGENT BLOOD REQUEST: {quantity} units of {bloodType} needed at {hospital}. {urgency}. Respond: {responseUrl}".

(** [formatSMSMessage(template, vars)]; [vars] lists the object's keys in
    the order [for (const key in vars)] visits them, each value as text. *)
Definition formatSMSMessage (template : string) (vars : list (string * string))
    : string :=
  foldl (λ msg var, replace msg ("{" +:+ var.1 +:+ "}") var.2) template vars.

Definition urgencyText (urgency : Urgency) : string :=
  match urgency with
  | pregnancy => "PREGNANCY EMERGENCY - URGENT"
  | high => "HIGH PRIORITY - EMERGENCY"
  | medium => "MEDIUM PRIORITY"
  | low => "LOW PRIORITY"
  end.

Definition priority (urgency : Urgency) : string :=
  match urgency with
  | high | pregnancy => "high"
  | _ => "normal"
  end.

Section Message.

(** The text of an [ObjectId] in a template literal, which belongs to the
    database driver; and the address of the donor tracker, which is
    [https://innovate-tracker2.vercel.app/] in the revision with
    [confirmDonation] and [https://donor-tracker-msrl.vercel.app/] in the
    earlier one. *)
Variable toHexString : ObjectId → string.
Variable tracker : string.

(** [donor["Student Name"] || donor.name || donor._id], as text. *)
Definition donorName (donor : Donor.t) : string :=
  let named := js_or (Donor.Student_Name donor) (Donor.name donor) in
  if truthy named then default EmptyString named
  else toHexString (Donor._id donor).

Definition responseUrl (requestId : ObjectId) : string :=
  tracker +:+ toHexString requestId.

(** [templateVars]; [hospitalName] is the [name] of the populated
    [request.hospitalId], and the quantity is written as [Number]s are. *)
Definition templateVars (hospitalName : string) (requestId : ObjectId)
    (request : BloodRequest.t) (donor : Donor.t) : list (string * string) :=
  [ ("hospital", hospitalName);
    ("bloodType", BloodRequest.bloodGroup request);
    ("quantity", pretty (BloodRequest.quantity request));
    ("urgency", urgencyText (BloodRequest.urgency request));
    ("donorName", donorName donor);
    ("responseUrl", responseUrl requestId) ]%string.

(** The [message] composed for one donor of the batch from the template
    that [getSMSTemplate] returned. *)
Definition composeMessage (smsTemplate hospitalName : string) (requestId : ObjectId)
    (request : BloodRequest.t) (donor : Donor.t) : string :=
  let templateVars := templateVars hospitalName requestId request donor in
  match BloodRequest.urgency request with
  | pregnancy =>
      "PREGNANCY EMERGENCY: " +:+ pretty (BloodRequest.quantity request)
      +:+ " units " +:+ BloodRequest.bloodGroup request
      +:+ " blood needed URGENTLY for pregnant patient at " +:+ hospitalName
      +:+ ". Please respond: " +:+ responseUrl requestId
  | _ =>
      let message := formatSMSMessage smsTemplate templateVars in
      if negb (includes message "http") && negb (includes message "{responseUrl}")
      then message +:+ " Respond: " +:+ responseUrl requestId
      else message
  end.

(** The [message] handed to [sendSMS] for one donor of the batch. *)
Definition smsMessage (hospitalName : string) (requestId : ObjectId)
    (request : BloodRequest.t) (donor : Donor.t) : string :=
  let smsTemplate := getSMSTemplate (priority (BloodRequest.urgency request)) in
  composeMessage smsTemplate hospitalName requestId request donor.

End Message.

(** The two addresses of the donor tracker. *)
Definition trackers : list string :=
  [ "https://innovate-tracker2.vercel.app/";
    "https://donor-tracker-msrl.vercel.app/" ]%string.

(** A 24-digit identifier for the small ids of the concrete runs. *)
Definition sampleHex (id : ObjectId) : string :=
  "65f1c0de9a3b4c5d6e70" +:+ pretty (1000 + id)%nat.

(** ** [sendSMS] of [services/smsService.js] *)

(** [s.trimStart()], [s.trimEnd()] and [s.trim()], on the white space of
    [is_space]. *)
Fixpoint trimStart (s : string) : string :=
  match s with
  | EmptyString => EmptyString
  | String c s' => if is_space c then trimStart s' else s
  end.

Fixpoint trimEnd (s : string) : string :=
  match s with
  | EmptyString => EmptyString
  | String c s' =>
      let rest := trimEnd s' in
      if is_space c && String.eqb rest EmptyString then EmptyString
      else String c rest
  end.

Definition trim (s : string) : string := trimEnd (trimStart s).

(** [s] does not start with white space. *)
Definition noLeadingSpace (s : string) : Prop :=
  match s with
  | EmptyString => True
  | String c _ => is_space c = false
  end.

(** The number handed to the gateway: [to.trim()], with [+91] in front of
    a number of ten characters and [+] in front of any other that has none. *)
Definition formattedTo (to : string) : string :=
  let formattedTo := trim to in
  if negb (startsWith formattedTo "+") then
    if (String.length formattedTo =? 10)%nat then "+91" +:+ formattedTo
    else "+" +:+ formattedTo
  else formattedTo.

(** [{ success: true, sid }] or [{ success: false, error }]. *)
Inductive SmsResult : Type :=
  | Sent (sid : string)
  | NotSent (error : string).

(** [sendSMS(to, body)].  [client] is the Twilio client if the account is
    configured; its [messages.create] returns the [sid] of the message or
    throws.  Without a client the call is mocked and [mockSid] is
    ['mock_sid_' + Date.now()]. *)
Definition sendSMS (client : option (string → string → string + string))
    (mockSid : string) (to body : string) : SmsResult :=
  match client with
  | None => Sent mockSid
  | Some messages_create =>
      match messages_create (formattedTo to) body with
      | inl sid => Sent sid
      | inr error => NotSent error
      end
  end.

(** The calls of [sendSMS] that [sendNextBatch] makes for a batch, as they
    reach the gateway when it is configured: for each donor found with a
    phone, the number handed over and the text. *)
Definition batchCalls (toHexString : ObjectId → string)
    (tracker hospitalName : string) (requestId : ObjectId)
    (request : BloodRequest.t) (allDonors : list Donor.t)
    (nextBatchIds : list ObjectId) : list (string * string) :=
  omap (λ donor,
          if truthy (donorPhone donor)
          then Some (formattedTo (default EmptyString (donorPhone donor)),
                     smsMessage toHexString tracker hospitalName requestId
                       request donor)
          else None)
       (List.filter (λ donor, bool_decide (Donor._id donor ∈ nextBatchIds)) allDonors).

(** ** The clients of the notification stream ([utils/notificationStream.js]) *)

Module NotificationStream.

(** [{ id: clientId, res }]: [id] is the [Date.now()] of the connection,
    [res] names the response that the client reads. *)
Record Client : Type := {
  id : Time;
  res : nat
}.

(** [addClient(req, res)] at the time [now]: [clients.push(newClient)]. *)
Definition addClient (clients : list Client) (now : Time) (res : nat) : list Client :=
  clients ++ [{| id := now; res := res |}].

(** [clients.findIndex(c => c.id === clientId)]; [None] is [-1]. *)
Fixpoint findIndex (clientId : Time) (clients : list Client) : option nat :=
  match clients with
  | [] => None
  | c :: clients' =>
      if id c =? clientId then Some 0%nat else S <$> findIndex clientId clients'
  end.

(** The handler of [req.on('close', ...)] of the client that connected at
    [clientId]: [clients.splice(index, 1)] if an index is found. *)
Definition onClose (clients : list Client) (clientId : Time) : list Client :=
  match findIndex clientId clients with
  | Some index => delete index clients
  | None => clients
  end.

(** [broadcastNotification(data)]: the responses written to, in order, and
    the text written; [json] is [JSON.stringify(data)]. *)
Definition broadcastNotification (clients : list Client) (json : string)
    : list (nat * string) :=
  (λ client,
     (res client,
      "data: " +:+ json +:+ String (ascii_of_nat 10) (String (ascii_of_nat 10) EmptyString)))
  <$> clients.

End NotificationStream.

(** ** [connectToMongoDB] of the server start-up code *)

(** How the start-up connection ended: whether a [mongoose.connect]
    resolved, how many were tried and how long the function waited between
    them, in milliseconds. *)
Record Connection : Type := {
  connected : bool;
  attempts : nat;
  waited : Z
}.

(** The [while (retries)] loop.  [connect n] tells whether the call of
    [mongoose.connect] number [n] (from 0) resolves; [attempt] calls have
    been made so far. *)
Fixpoint connectLoop (retries : nat) (connect : nat → bool) (attempt : nat)
    (waited : Z) : Connection :=
  match retries with
  | O => {| connected := false; attempts := attempt; waited := waited |}
  | S retries' =>
      if connect attempt then
        {| connected := true; attempts := S attempt; waited := waited |}
      else
        match retries' with
        | O => {| connected := false; attempts := S attempt; waited := waited |}
        | S _ => connectLoop retries' connect (S attempt) (waited + 5000)
        end
  end.

(** [let retries = 5; while (retries) { ... }] *)
Definition connectToMongoDB (connect : nat → bool) : Connection :=
  connectLoop 5 connect 0 0.

(** ** [authenticateToken] of the server start-up code *)

(** [s.split(separator)] for a separator of one character. *)
Fixpoint split (separator : ascii) (s : string) : list string :=
  match s with
  | EmptyString => [EmptyString]
  | String c s' =>
      if Ascii.eqb c separator then EmptyString :: split separator s'
      else
        match split separator s' with
        | word :: words => String c word :: words
        | [] => [String c EmptyString]
        end
  end.

(** [res.sendStatus(401)], [res.sendStatus(403)], or [next()] with
    [req.user] set. *)
Inductive Authentication (User : Type) : Type :=
  | Unauthorized
  | Forbidden
  | Next (user : User).

Arguments Unauthorized {User}.
Arguments Forbidden {User}.
Arguments Next {User} user.

(** [authenticateToken(req, res, next)]; [authHeader] is
    [req.headers['authorization']] and [verify] is [jwt.verify] with the
    server's secret, which yields the payload of a valid token. *)
Definition authenticateToken {User : Type} (verify : string → option User)
    (authHeader : option string) : Authentication User :=
  let token :=
    if truthy authHeader
    then split " " (default EmptyString authHeader) !! 1%nat
    else authHeader in
  if negb (truthy token) then Unauthorized
  else
    match verify (default EmptyString token) with
    | None => Forbidden
    | Some user => Next user
    end.

(** ** The bulk import of donors ([POST /admin/donors/import]) *)

Definition lower (c : ascii) : ascii :=
  let n := nat_of_ascii c in
  if ((65 <=? n) && (n <=? 90))%nat then ascii_of_nat (n + 32) else c.

Fixpoint toLowerCase (s : string) : string :=
  match s with
  | EmptyString => EmptyString
  | String c s' => String (lower c) (toLowerCase s')
  end.

(** [s.replace(/\s+/g, ' ')]; [inSpace] tells that the character before was
    white space. *)
Fixpoint collapseSpaces (inSpace : bool) (s : string) : string :=
  match s with
  | EmptyString => EmptyString
  | String c s' =>
      if is_space c then
        if inSpace then collapseSpaces true s'
        else String " " (collapseSpaces true s')
      else String c (collapseSpaces false s')
  end.

(** [s.replace(/[^a-z0-9]/g, '')] *)
Fixpoint keepAlphanumeric (s : string) : string :=
  match s with
  | EmptyString => EmptyString
  | String c s' =>
      let n := nat_of_ascii c in
      if (((97 <=? n) && (n <=? 122)) || ((48 <=? n) && (n <=? 57)))%nat
      then String c (keepAlphanumeric s')
      else keepAlphanumeric s'
  end.

Module DonorImport.

(** A row of the parsed file: its headers with their values, in the order
    of [Object.keys]; the values are strings, as a CSV parser yields them. *)
Abbreviation Row := (list (string * string)) (only parsing).

(** [rawOriginal[k]] *)
Definition get (rawOriginal : Row) (k : string) : option string :=
  snd <$> List.find (λ entry, String.eqb entry.1 k) rawOriginal.

Definition allowedBloodGroups : list string :=
  [ "A+"; "A-"; "B+"; "B-"; "AB+"; "AB-"; "O+"; "O-"; "NK" ]%string.

(** [normalizeBloodGroup(value)] on a value that is present. *)
Definition normalizeBloodGroup (value : option string) : string :=
  if truthy value
  then trim (strip_spaces (toUpperCase (default EmptyString value)))
  else EmptyString.

(** [sanitizeKey(k)]; the byte-order mark that it removes first is no
    letter or digit, so the last replacement removes it as well. *)
Definition sanitizeKey (k : string) : string :=
  keepAlphanumeric (toLowerCase k).

Definition variantGroups : list (string * list string) :=
  [ ("name", ["name"; "fullname"; "donorname"; "studentname"]);
    ("email", ["email"; "mail"; "emailid"; "e"]);
    ("phone", ["phone"; "phoneno"; "mobileno"; "mobile"; "contact"; "contactno";
               "number"; toLowerCase "phoneNumber"]);
    ("bloodGroup", ["bloodgroup"; "bloodgrp"; "blood"; "bgroup"; "bloodtype";
                    "bloodgrpup"]);
    ("rollNo", ["rollno"; "rollnumber"; "roll"; "enrollment"; "enrollmentno";
                "enroll"; "studentid"; "id"; "studentnumber"]) ]%string.

(** [variantLookup[sk]]: the table is filled group by group, a later entry
    replacing an earlier one with the same key. *)
Definition variantLookup (sk : string) : option string :=
  foldl (λ found group,
           if bool_decide (sk ∈ sanitizeKey <$> group.2) then Some group.1 else found)
        None variantGroups.

(** [mapped], as the pairs of a canonical field and its value. *)
Definition set (mapped : Row) (k v : string) : Row :=
  if bool_decide (k ∈ mapped.*1)
  then (λ entry, if String.eqb entry.1 k then (k, v) else entry) <$> mapped
  else mapped ++ [(k, v)].

(** The body of [Object.keys(rawOriginal).forEach(k => ...)]. *)
Definition mapKey (rawOriginal : Row) (mapped : Row) (k : string) : Row :=
  let sk := sanitizeKey k in
  match variantLookup sk with
  | Some canonical =>
      match get mapped canonical with
      | None => set mapped canonical (default EmptyString (get rawOriginal k))
      | Some _ => mapped
      end
  | None =>
      if bool_decide (k ∈ ["name"; "email"; "phone"; "bloodGroup"; "rollNo"]%string)
      then set mapped k (default EmptyString (get rawOriginal k))
      else mapped
  end.

Definition mapRow (rawOriginal : Row) : Row :=
  foldl (mapKey rawOriginal) [] rawOriginal.*1.

(** [normName(v)] on a string. *)
Definition normName (v : string) : string :=
  collapseSpaces false (trim (toLowerCase v)).

(** The fields of a stored donor that the import reads
    ([Donor.find({}, 'email name bloodGroup phone rollNo').lean()]). *)
Record Existing : Type := {
  email : option string;
  name : option string;
  bloodGroup : option string;
  phone : option string;
  rollNo : option string
}.

(** The document that an accepted row saves (the password apart). *)
Record NewDonor : Type := {
  new_name : string;
  new_email : string;
  new_phone : string;
  new_bloodGroup : string;
  new_rollNo : option string
}.

(** [status: 'inserted'], [status: 'skipped'] or [status: 'error'], the
    last two with their [reason]. *)
Inductive Outcome : Type :=
  | Inserted
  | Skipped (reason : string)
  | Failed (reason : string).

Record Result : Type := {
  index : nat;
  result_email : option string;
  outcome : Outcome
}.

(** What the loop carries: the answer in the making, the keys reserved by
    the rows accepted so far, and the documents saved. *)
Record State : Type := {
  results : list Result;
  credentials : list string;
  inserted : nat;
  skipped : nat;
  batchEmails : gset string;
  batchNameGroup : gset string;
  batchPhones : gset string;
  batchRolls : gset string;
  saved : list NewDonor
}.

Definition start : State :=
  {| results := []; credentials := []; inserted := 0; skipped := 0;
     batchEmails := ∅; batchNameGroup := ∅; batchPhones := ∅; batchRolls := ∅;
     saved := [] |}.

(** [results.push({ ...lineInfo, status, reason }); skipped++; continue;] *)
Definition skip (st : State) (lineInfo : nat * option string) (o : Outcome) : State :=
  {| results := results st ++ [{| index := lineInfo.1; result_email := lineInfo.2;
                                  outcome := o |}];
     credentials := credentials st; inserted := inserted st;
     skipped := S (skipped st);
     batchEmails := batchEmails st; batchNameGroup := batchNameGroup st;
     batchPhones := batchPhones st; batchRolls := batchRolls st;
     saved := saved st |}.

Section Rows.

(** The stored donors, and [donorDoc.save()] for the row at a position:
    [None] when the document is saved, the message of the error otherwise. *)
Variable existingDocs : list Existing.
Variable save : nat → NewDonor → option string.

Definition existingEmails : gset string :=
  list_to_set (omap email existingDocs).

Definition existingNameGroup : gset string :=
  list_to_set
    ((λ d, normName (default EmptyString (name d)) +:+ "|"
           +:+ normalizeBloodGroup (bloodGroup d)) <$> existingDocs).

Definition existingPhones : gset string :=
  list_to_set
    ((λ d, trim (default EmptyString (phone d)))
       <$> List.filter (λ d, truthy (phone d)) existingDocs).

Definition existingRolls : gset string :=
  list_to_set
    ((λ d, toLowerCase (trim (default EmptyString (rollNo d))))
       <$> List.filter (λ d, truthy (rollNo d)) existingDocs).

(** The body of the loop over the rows, for the row at position [i]. *)
Definition importRow (st : State) (i : nat) (rawOriginal : Row) : State :=
  let mapped := mapRow rawOriginal in
  let nameRaw := js_or (get mapped "name") (get rawOriginal "name") in
  let emailRaw := js_or (get mapped "email") (get rawOriginal "email") in
  let phoneRaw := js_or (get mapped "phone") (get rawOriginal "phone") in
  let rawGroup :=
    js_or (js_or (get mapped "bloodGroup") (get rawOriginal "bloodGroup"))
          (get rawOriginal "blood group") in
  let rollNoRaw := js_or (get mapped "rollNo") (get rawOriginal "rollNo") in
  let lineInfo := (S i, emailRaw) in
  if negb (truthy nameRaw) || negb (truthy emailRaw) || negb (truthy phoneRaw)
     || negb (truthy rawGroup)
  then skip st lineInfo (Failed "Missing required field (name,email,phone,bloodGroup)")
  else
    let email := trim (toLowerCase (default EmptyString emailRaw)) in
    let bloodGroup := normalizeBloodGroup rawGroup in
    if negb (bool_decide (bloodGroup ∈ allowedBloodGroups))
    then skip st lineInfo (Failed ("Invalid blood group: " +:+ bloodGroup))
    else
      let nameGroupKey :=
        normName (default EmptyString nameRaw) +:+ "|" +:+ bloodGroup in
      let phoneKey :=
        if truthy phoneRaw then trim (default EmptyString phoneRaw) else EmptyString in
      let rollKey :=
        if truthy rollNoRaw
        then toLowerCase (trim (default EmptyString rollNoRaw))
        else EmptyString in
      if bool_decide (email ∈ existingEmails)
      then skip st lineInfo (Skipped "Duplicate (email exists)")
      else if bool_decide (nameGroupKey ∈ existingNameGroup)
      then skip st lineInfo (Skipped "Duplicate (name+bloodGroup exists)")
      else if truthy (Some phoneKey) && bool_decide (phoneKey ∈ existingPhones)
      then skip st lineInfo (Skipped "Duplicate (phone exists)")
      else if truthy (Some rollKey) && bool_decide (rollKey ∈ existingRolls)
      then skip st lineInfo (Skipped "Duplicate (rollNo exists)")
      else if bool_decide (email ∈ batchEmails st)
      then skip st lineInfo (Skipped "Duplicate in file (email)")
      else if bool_decide (nameGroupKey ∈ batchNameGroup st)
      then skip st lineInfo (Skipped "Duplicate in file (name+bloodGroup)")
      else if truthy (Some phoneKey) && bool_decide (phoneKey ∈ batchPhones st)
      then skip st lineInfo (Skipped "Duplicate in file (phone)")
      else if truthy (Some rollKey) && bool_decide (rollKey ∈ batchRolls st)
      then skip st lineInfo (Skipped "Duplicate in file (rollNo)")
      else
        let reserved :=
          {| results := results st; credentials := credentials st;
             inserted := inserted st; skipped := skipped st;
             batchEmails := {[ email ]} ∪ batchEmails st;
             batchNameGroup := {[ nameGroupKey ]} ∪ batchNameGroup st;
             batchPhones :=
               if truthy (Some phoneKey) then {[ phoneKey ]} ∪ batchPhones st
               else batchPhones st;
             batchRolls :=
               if truthy (Some rollKey) then {[ rollKey ]} ∪ batchRolls st
               else batchRolls st;
             saved := saved st |} in
        let donorDoc :=
          {| new_name := trim (default EmptyString nameRaw);
             new_email := email;
             new_phone := trim (default EmptyString phoneRaw);
             new_bloodGroup := bloodGroup;
             new_rollNo :=
               if truthy rollNoRaw then Some (trim (default EmptyString rollNoRaw))
               else None |} in
        match save i donorDoc with
        | None =>
            {| results := results reserved
                          ++ [{| index := S i; result_email := emailRaw;
                                 outcome := Inserted |}];
               credentials := credentials reserved ++ [email];
               inserted := S (inserted reserved);
               skipped := skipped reserved;
               batchEmails := batchEmails reserved;
               batchNameGroup := batchNameGroup reserved;
               batchPhones := batchPhones reserved;
               batchRolls := batchRolls reserved;
               saved := saved reserved ++ [donorDoc] |}
        | Some message => skip reserved lineInfo (Failed message)
        end.

(** [for (let i = 0; i < donors.length; i++) { ... }], from position [i]. *)
Fixpoint importFrom (i : nat) (donors : list Row) (st : State) : State :=
  match donors with
  | [] => st
  | rawOriginal :: donors' => importFrom (S i) donors' (importRow st i rawOriginal)
  end.

Definition importDonors (donors : list Row) : State := importFrom 0 donors start.

End Rows.

(** The keys under which the import tells donors apart, read off a saved
    document. *)
Definition emailKey (d : NewDonor) : option string := Some (new_email d).

Definition nameGroupKey (d : NewDonor) : option string :=
  Some (normName (new_name d) +:+ "|" +:+ new_bloodGroup d).

Definition phoneKey (d : NewDonor) : option string :=
  if truthy (Some (new_phone d)) then Some (new_phone d) else None.

Definition rollKey (d : NewDonor) : option string :=
  match new_rollNo d with
  | Some roll =>
      if truthy (Some (toLowerCase roll)) then Some (toLowerCase roll) else None
  | None => None
  end.

(** The saved documents are told apart by [key]: no two of them have the
    same key, and none has a key of a stored donor. *)
Definition distinct (key : NewDonor → option string) (existingKeys : gset string)
    (saved : list NewDonor) : Prop :=
  NoDup (omap key saved)
  ∧ ∀ d x, d ∈ saved → key d = Some x → x ∉ existingKeys.

(** The same while the import runs, [batchKeys] being the keys reserved. *)
Definition reserving (key : NewDonor → option string)
    (existingKeys batchKeys : gset string) (saved : list NewDonor) : Prop :=
  NoDup (omap key saved)
  ∧ ∀ d x, d ∈ saved → key d = Some x → x ∈ batchKeys ∧ x ∉ existingKeys.

(** What holds of the loop's state after [n] rows. *)
Definition importing (existingDocs : list Existing) (n : nat) (st : State) : Prop :=
  (inserted st + skipped st = n)%nat
  ∧ index <$> results st = seq 1 n
  ∧ credentials st = new_email <$> saved st
  ∧ length (saved st) = inserted st
  ∧ Forall (λ d, new_bloodGroup d ∈ allowedBloodGroups) (saved st)
  ∧ reserving emailKey (existingEmails existingDocs) (batchEmails st) (saved st)
  ∧ reserving nameGroupKey (existingNameGroup existingDocs) (batchNameGroup st) (saved st)
  ∧ reserving phoneKey (existingPhones existingDocs) (batchPhones st) (saved st)
  ∧ reserving rollKey (existingRolls existingDocs) (batchRolls st) (saved st).

End DonorImport.

(** * Properties *)

(** ** The stable sort *)

Section SortFacts.

Context {A : Type} (compareFn : A → A → Z).

Local Abbreviation consistent := (consistent compareFn).
Local Abbreviation before := (before compareFn).
Local Abbreviation tied := (tied compareFn).

Lemma insert_sorted_perm x l : Permutation (insert_sorted compareFn x l) (x :: l).
Proof.
  induction l as [|y l IH]; simpl; [reflexivity|].
  destruct (compareFn x y <=? 0); [reflexivity|].
  rewrite IH. apply perm_swap.
Qed.

Lemma js_sort_perm l : Permutation (js_sort compareFn l) l.
Proof.
  induction l as [|x l IH]; simpl; [reflexivity|].
  rewrite insert_sorted_perm. by constructor.
Qed.

Lemma insert_sorted_HdRel a x l :
  before a x → HdRel before a l → HdRel before a (insert_sorted compareFn x l).
Proof.
  intros Hax Hal. destruct l as [|y l]; simpl; [by constructor|].
  destruct (compareFn x y <=? 0); constructor; [done|].
  by inversion Hal.
Qed.

Lemma insert_sorted_Sorted x l :
  consistent → Sorted before l → Sorted before (insert_sorted compareFn x l).
Proof.
  intros [Htotal _]. induction 1 as [|y l Hl IH Hy]; simpl.
  - by repeat constructor.
  - destruct (Z.leb_spec (compareFn x y) 0) as [Hxy|Hxy].
    + constructor; [by constructor|by constructor].
    + constructor; [done|]. apply insert_sorted_HdRel; [|done].
      unfold before. destruct (Htotal x y); [lia|done].
Qed.

Lemma js_sort_Sorted l : consistent → Sorted before (js_sort compareFn l).
Proof.
  intros Hc. induction l as [|x l IH]; simpl; [constructor|].
  by apply insert_sorted_Sorted.
Qed.

Lemma js_sort_StronglySorted l :
  consistent → StronglySorted before (js_sort compareFn l).
Proof.
  intros Hc. apply Sorted_StronglySorted; [|by apply js_sort_Sorted].
  intros a b c. apply Hc.
Qed.

(** Insertion never moves an element past one it is tied with. *)
Lemma insert_sorted_stable a x l :
  consistent →
  List.filter (tied a) (insert_sorted compareFn x l) = List.filter (tied a) (x :: l).
Proof.
  intros [_ Htrans]. induction l as [|y l IH]; [done|].
  cbn [insert_sorted].
  destruct (Z.leb_spec (compareFn x y) 0) as [Hxy|Hxy]; [done|].
  cbn [List.filter] in *. rewrite IH.
  destruct (tied a x) eqn:Hx, (tied a y) eqn:Hy; try done.
  unfold tied in Hx, Hy.
  apply andb_prop in Hx as [_ Hxa%Z.leb_le].
  apply andb_prop in Hy as [Hay%Z.leb_le _].
  specialize (Htrans x a y Hxa Hay). lia.
Qed.

Lemma js_sort_stable a l :
  consistent →
  List.filter (tied a) (js_sort compareFn l) = List.filter (tied a) l.
Proof.
  intros Hc. induction l as [|x l IH]; [done|].
  cbn [js_sort]. rewrite insert_sorted_stable by done.
  cbn [List.filter]. by rewrite IH.
Qed.

End SortFacts.

Lemma codeUnitCompare_consistent : consistent codeUnitCompare.
Proof.
  split.
  - induction a as [|c a IH]; intros [|d b]; simpl; try lia.
    destruct (Nat.ltb_spec (nat_of_ascii c) (nat_of_ascii d)); [lia|].
    destruct (Nat.ltb_spec (nat_of_ascii d) (nat_of_ascii c)); [lia|].
    apply IH.
  - induction a as [|c a IH]; intros [|d b] [|e s]; simpl; try lia.
    destruct (Nat.ltb_spec (nat_of_ascii c) (nat_of_ascii d)),
        (Nat.ltb_spec (nat_of_ascii d) (nat_of_ascii c)),
        (Nat.ltb_spec (nat_of_ascii d) (nat_of_ascii e)),
        (Nat.ltb_spec (nat_of_ascii e) (nat_of_ascii d)),
        (Nat.ltb_spec (nat_of_ascii c) (nat_of_ascii e)),
        (Nat.ltb_spec (nat_of_ascii e) (nat_of_ascii c));
        try lia; apply IH.
Qed.

(** ** Dates *)

Lemma DayFromYear_succ y :
  DayFromYear (y + 1) = DayFromYear y + 365 + (if leapYear y then 1 else 0).
Proof.
  unfold DayFromYear, leapYear.
  destruct (Z.eqb_spec (y mod 4) 0), (Z.eqb_spec (y mod 100) 0),
      (Z.eqb_spec (y mod 400) 0);
    cbn [negb orb andb]; Z.div_mod_to_equations; lia.
Qed.

(** [YearFromTime(t)] is the largest [y] with [TimeFromYear(y) <= t]. *)
Lemma YearFromTime_largest t :
  DayFromYear (YearFromTime t) <= Day t < DayFromYear (YearFromTime t + 1).
Proof.
  unfold YearFromTime. generalize (Day t). intros d. cbv zeta.
  destruct (Z.ltb_spec d (DayFromYear (1970 + d * 400 / 146097))).
  - unfold DayFromYear in *. Z.div_mod_to_equations. lia.
  - destruct (Z.leb_spec (DayFromYear (1970 + d * 400 / 146097 + 1)) d).
    + unfold DayFromYear in *. Z.div_mod_to_equations. lia.
    + lia.
Qed.

Lemma MonthFromTime_range t : 0 <= MonthFromTime t <= 11.
Proof. unfold MonthFromTime. cbv zeta. repeat case_match; lia. Qed.

(** The lengths of one, three and four months in a row. *)
Ltac monthsBack_cases y m Hm :=
  unfold monthsBack, MakeDay; cbv zeta;
  let Hy := fresh "Hy" in
  pose proof (DayFromYear_succ (y - 1)) as Hy;
  replace (y - 1 + 1) with y in Hy by lia;
  let Hcases := fresh "Hcases" in
  assert (m = 0 ∨ m = 1 ∨ m = 2 ∨ m = 3 ∨ m = 4 ∨ m = 5 ∨ m = 6 ∨ m = 7
          ∨ m = 8 ∨ m = 9 ∨ m = 10 ∨ m = 11) as Hcases by lia;
  destruct Hcases as [->|[->|[->|[->|[->|[->|[->|[->|[->|[->|[->| ->]]]]]]]]]]];
    cbn [Z.sub Z.add Z.opp Z.pos_sub Pos.pred_double Z.succ_double Z.pred_double Z.double];
    match goal with
    | |- context [?a / 12] => let q := eval vm_compute in (a / 12) in
                              change (a / 12) with q
    end;
    match goal with
    | |- context [?a mod 12] => let r := eval vm_compute in (a mod 12) in
                                change (a mod 12) with r
    end;
    unfold daysBeforeMonth; cbn [Z.eqb Pos.eqb];
    replace (y + -1) with (y - 1) by lia; rewrite ?Z.add_0_r;
    destruct (leapYear y), (leapYear (y - 1)); lia.

Lemma monthsBack_1_range y m : 0 <= m <= 11 → 28 <= monthsBack 1 y m <= 31.
Proof. intros Hm. monthsBack_cases y m Hm. Qed.

Lemma monthsBack_3_range y m : 0 <= m <= 11 → 89 <= monthsBack 3 y m <= 92.
Proof. intros Hm. monthsBack_cases y m Hm. Qed.

Lemma monthsBack_4_range y m : 0 <= m <= 11 → 120 <= monthsBack 4 y m <= 123.
Proof. intros Hm. monthsBack_cases y m Hm. Qed.

(** The date [k] months ago is, in local time, earlier than now by the
    lengths of [k] months, at the same time of day. *)
Lemma setMonth_back LocalTZA k now :
  let local := LocalTime LocalTZA now in
  setMonth LocalTZA now (getMonth LocalTZA now - k)
  = UTC LocalTZA
      (local - monthsBack k (YearFromTime local) (MonthFromTime local) * msPerDay).
Proof.
  cbv zeta. unfold setMonth, getMonth.
  generalize (LocalTime LocalTZA now). intros local. f_equal.
  unfold MakeDate, monthsBack, MakeDay, DateFromTime, DayWithinYear, InLeapYear.
  cbv zeta.
  pose proof (Z.div_mod local msPerDay ltac:(done)) as Hlocal.
  fold (Day local) in Hlocal. fold (TimeWithinDay local) in Hlocal.
  lia.
Qed.

Lemma threeMonthsAgo_local LocalTZA now :
  let local := LocalTime LocalTZA now in
  threeMonthsAgo LocalTZA now
  = UTC LocalTZA
      (local - monthsBack 3 (YearFromTime local) (MonthFromTime local) * msPerDay).
Proof. apply setMonth_back. Qed.

(** In a zone without daylight saving: the bounds of the three dates of the
    script. *)
Lemma monthsAgo_fixedZone offset now :
  let monthsAgo := Test3MonthRule.monthsAgo (fixedZone offset) in
  now - 31 * msPerDay <= monthsAgo 1 now
  ∧ now - 92 * msPerDay <= monthsAgo 3 now <= now - 89 * msPerDay
  ∧ monthsAgo 4 now <= now - 120 * msPerDay.
Proof.
  cbv zeta. unfold Test3MonthRule.monthsAgo. rewrite !setMonth_back.
  unfold UTC, LocalTime, fixedZone.
  pose proof (MonthFromTime_range (now + offset)) as Hm.
  pose proof (monthsBack_1_range (YearFromTime (now + offset)) _ Hm).
  pose proof (monthsBack_3_range (YearFromTime (now + offset)) _ Hm).
  pose proof (monthsBack_4_range (YearFromTime (now + offset)) _ Hm).
  unfold msPerDay. lia.
Qed.

(** ** White space *)

Lemma removeWhiteSpace_cons c s :
  whiteSpace1 c = false →
  (∀ c2, whiteSpace2 c c2 = false) →
  (∀ c2 c3, whiteSpace3 c c2 c3 = false) →
  removeWhiteSpace (String c s) = String c (removeWhiteSpace s).
Proof.
  intros H1 H2 H3. destruct s as [|c2 [|c3 s3]].
  - cbn [removeWhiteSpace]. by rewrite H1.
  - cbn [removeWhiteSpace]. by rewrite H1, H2.
  - cbn [removeWhiteSpace]. rewrite H1, H2, H3.
    destruct (whiteSpace1 c2); [done|]. done.
Qed.

(** On ASCII strings [\s] matches the six ASCII blanks only. *)
Lemma removeWhiteSpace_ascii s :
  isAscii s = true → removeWhiteSpace s = strip_spaces s.
Proof.
  induction s as [|c s IH]; [done|].
  cbn [isAscii]. intros [Hc Hs]%andb_prop. apply Nat.ltb_lt in Hc.
  cbn [strip_spaces]. destruct (is_space c) eqn:Hspace.
  - cbn [removeWhiteSpace]. unfold whiteSpace1. rewrite Hspace. by apply IH.
  - rewrite removeWhiteSpace_cons, IH; try done.
    + intros c2. unfold whiteSpace2.
      destruct (Nat.eqb_spec (nat_of_ascii c) 194); [lia|done].
    + intros c2 c3. unfold whiteSpace3. cbv zeta.
      destruct (Nat.eqb_spec (nat_of_ascii c) 225); [lia|].
      destruct (Nat.eqb_spec (nat_of_ascii c) 226); [lia|].
      destruct (Nat.eqb_spec (nat_of_ascii c) 227); [lia|].
      destruct (Nat.eqb_spec (nat_of_ascii c) 239); [lia|done].
Qed.

(** Each of the characters of [\s] is dropped where it stands. *)
Lemma removeWhiteSpace_whiteSpace w s :
  w ∈ whiteSpace → removeWhiteSpace (w +:+ s) = removeWhiteSpace s.
Proof.
  intros Hw. unfold whiteSpace in Hw. cbn [fmap list_fmap] in Hw.
  repeat (apply elem_of_cons in Hw as [->|Hw]; [reflexivity|]).
  by apply elem_of_nil in Hw.
Qed.

Lemma removeWhiteSpace_ascii_append a s :
  isAscii a = true →
  removeWhiteSpace (a +:+ s) = strip_spaces a +:+ removeWhiteSpace s.
Proof.
  induction a as [|c a IH]; [done|].
  cbn [isAscii]. intros [Hc Ha]%andb_prop. apply Nat.ltb_lt in Hc.
  change (String c a +:+ s) with (String c (a +:+ s)).
  cbn [strip_spaces]. destruct (is_space c) eqn:Hspace.
  - cbn [removeWhiteSpace]. unfold whiteSpace1. rewrite Hspace. by apply IH.
  - change (String c (strip_spaces a) +:+ removeWhiteSpace s)
      with (String c (strip_spaces a +:+ removeWhiteSpace s)).
    rewrite removeWhiteSpace_cons, IH; try done.
    + intros c2. unfold whiteSpace2.
      destruct (Nat.eqb_spec (nat_of_ascii c) 194); [lia|done].
    + intros c2 c3. unfold whiteSpace3. cbv zeta.
      destruct (Nat.eqb_spec (nat_of_ascii c) 225); [lia|].
      destruct (Nat.eqb_spec (nat_of_ascii c) 226); [lia|].
      destruct (Nat.eqb_spec (nat_of_ascii c) 227); [lia|].
      destruct (Nat.eqb_spec (nat_of_ascii c) 239); [lia|done].
Qed.

(** The no-break space U+00A0 is white space too. *)
Example removeWhiteSpace_nbsp :
  removeWhiteSpace (bytes [79; 194; 160; 43; 226; 128; 137]%nat) = "O+"%string.
Proof. reflexivity. Qed.

(** ** Donor eligibility and the order of the queue *)

Lemma StronglySorted_impl {A} (R R' : A → A → Prop) (l : list A) :
  (∀ a b, R a b → R' a b) → StronglySorted R l → StronglySorted R' l.
Proof.
  intros HR. induction 1 as [|a l Hl IH Ha]; constructor; [done|].
  rewrite List.Forall_forall in *. intros b Hb. by apply HR, Ha.
Qed.

Section Eligibility.

Variable localeCompare : string → string → Z.
Variable String_toUpperCase : string → string.
Variable LocalTZA : Time → bool → Z.

Lemma byName_consistent :
  consistent localeCompare → consistent (byName localeCompare).
Proof.
  intros [Htotal Htrans]. split; unfold byName.
  - intros a b. apply Htotal.
  - intros a b c. apply Htrans.
Qed.

(** The sort key is the [name] field, the empty string where it is absent. *)
Lemma byName_name a b :
  byName localeCompare a b
  = localeCompare (default EmptyString (Donor.name a))
                  (default EmptyString (Donor.name b)).
Proof.
  unfold byName, js_or, truthy.
  destruct (Donor.name a) as [[|? ?]|], (Donor.name b) as [[|? ?]|]; done.
Qed.

Lemma matching_true now bloodGroup donor :
  matching String_toUpperCase LocalTZA now bloodGroup donor = true ↔
    normalizedDonor String_toUpperCase donor = normalize String_toUpperCase bloodGroup
    ∧ (Donor.lastDonationDate donor = None
       ∨ ∃ lastDonation, Donor.lastDonationDate donor = Some lastDonation
                         ∧ lastDonation <= threeMonthsAgo LocalTZA now).
Proof.
  unfold matching. destruct (Donor.lastDonationDate donor) as [lastDonation|].
  - destruct (Z.ltb_spec (threeMonthsAgo LocalTZA now) lastDonation) as [Hlt|Hle].
    + split; [done|]. intros [_ [?|(t & [= <-] & ?)]]; [done|lia].
    + rewrite String.eqb_eq. split; [|by intros [? _]].
      intros ->. split; [done|]. right. by exists lastDonation.
  - rewrite String.eqb_eq. split; [|by intros [? _]].
    intros ->. split; [done|]. by left.
Qed.

Lemma matchingDonors_spec now bloodGroup allDonors :
  consistent localeCompare →
  let selected :=
    matchingDonors localeCompare String_toUpperCase LocalTZA now bloodGroup allDonors in
  (∀ donor, donor ∈ selected ↔
     donor ∈ allDonors
     ∧ matching String_toUpperCase LocalTZA now bloodGroup donor = true)
  ∧ StronglySorted (before (byName localeCompare)) selected
  ∧ (∀ a, List.filter (tied (byName localeCompare) a) selected
          = List.filter (tied (byName localeCompare) a)
              (List.filter (matching String_toUpperCase LocalTZA now bloodGroup) allDonors)).
Proof.
  intros Hc selected. subst selected. unfold matchingDonors.
  pose proof (byName_consistent Hc) as Hb.
  split; [|split].
  - intros donor. rewrite !list_elem_of_In.
    rewrite (Permutation_in' (eq_refl donor) (js_sort_perm _ _)).
    by rewrite filter_In, <- list_elem_of_In.
  - by apply js_sort_StronglySorted.
  - intros a. by apply js_sort_stable.
Qed.

End Eligibility.

(** C6. With a consistent [localeCompare] and a [toUpperCase] that is the
    ASCII one on ASCII strings: a donor of the directory is selected if and
    only if the donor's blood group ([bloodGroup], else ["Blood Group"],
    else the empty string), with its white space removed and put in upper
    case, equals the requested group treated the same way, and the donor has
    no last donation date or one that is not later than
    [setMonth(getMonth() - 3)] of now; on ASCII strings the normalisation
    removes the six ASCII blanks and puts the letters a to z in upper case,
    and any character that [\s] matches makes no difference to it (after
    an ASCII prefix, at least); the date three months ago is, in local time, 89 to 92 days before now
    at the same time of day, hence 89 to 92 days before now in a zone
    without daylight saving; the queue lists the ids of the selected donors
    sorted by their [name] field under [localeCompare] (the empty string
    where there is no [name]; the display name, which prefers ["Student
    Name"], is not read), and donors whose [name]s compare as equal keep the
    order they have in the directory. *)
Theorem eligibility_filter (localeCompare : string → string → Z)
    (String_toUpperCase : string → string) (LocalTZA : Time → bool → Z)
    (now : Time) (bloodGroup : string) (allDonors : list Donor.t) :
  consistent localeCompare →
  (∀ s, isAscii s = true → String_toUpperCase s = toUpperCase s) →
  let selected :=
    matchingDonors localeCompare String_toUpperCase LocalTZA now bloodGroup allDonors in
  let key := λ donor, default EmptyString (Donor.name donor) in
  (∀ donor, donor ∈ selected ↔
     donor ∈ allDonors
     ∧ (if truthy (js_or (Donor.bloodGroup donor) (Donor.Blood_Group donor))
        then String_toUpperCase
               (removeWhiteSpace
                  (default EmptyString
                     (js_or (Donor.bloodGroup donor) (Donor.Blood_Group donor))))
        else EmptyString)
       = String_toUpperCase (removeWhiteSpace bloodGroup)
     ∧ (Donor.lastDonationDate donor = None
        ∨ ∃ lastDonation, Donor.lastDonationDate donor = Some lastDonation
                          ∧ lastDonation <= threeMonthsAgo LocalTZA now))
  ∧ (∀ s, isAscii s = true →
          normalize String_toUpperCase s = toUpperCase (strip_spaces s))
  ∧ (∀ a w s, isAscii a = true → w ∈ whiteSpace →
              normalize String_toUpperCase (a +:+ w +:+ s)
              = normalize String_toUpperCase (a +:+ s))
  ∧ (∃ days, 89 <= days <= 92
             ∧ let local := now + LocalTZA now true - days * msPerDay in
               threeMonthsAgo LocalTZA now = local - LocalTZA local false)
  ∧ (∀ offset, (∀ t isUTC, LocalTZA t isUTC = offset) →
       ∃ days, 89 <= days <= 92
               ∧ threeMonthsAgo LocalTZA now = now - days * msPerDay)
  ∧ donorIds localeCompare String_toUpperCase LocalTZA now bloodGroup allDonors
    = map Donor._id selected
  ∧ StronglySorted (λ a b, localeCompare (key a) (key b) <= 0) selected
  ∧ (∀ a,
       let tie := λ b, (localeCompare (key a) (key b) <=? 0)
                       && (localeCompare (key b) (key a) <=? 0) in
       List.filter tie selected
       = List.filter tie
           (List.filter (matching String_toUpperCase LocalTZA now bloodGroup) allDonors)).
Proof.
  intros Hc Hupper selected key.
  destruct (matchingDonors_spec localeCompare String_toUpperCase LocalTZA
              now bloodGroup allDonors Hc) as (Hin & Hsorted & Hstable).
  fold selected in Hin, Hsorted, Hstable.
  pose proof (threeMonthsAgo_local LocalTZA now) as Hdate. cbv zeta in Hdate.
  pose proof (monthsBack_3_range (YearFromTime (LocalTime LocalTZA now))
                (MonthFromTime (LocalTime LocalTZA now))
                (MonthFromTime_range _)) as Hrange.
  split; [|split; [|split; [|split; [|split; [|split; [done|split]]]]]].
  - intros donor. rewrite Hin, matching_true. done.
  - intros s Hs. unfold normalize.
    rewrite removeWhiteSpace_ascii by done. apply Hupper.
    clear -Hs. induction s as [|c s IH]; [done|].
    cbn [isAscii] in Hs. apply andb_prop in Hs as [Hc Hs].
    cbn [strip_spaces]. destruct (is_space c); [by apply IH|].
    cbn [isAscii]. by rewrite Hc, IH.
  - intros a w s Ha Hw. unfold normalize.
    rewrite (removeWhiteSpace_ascii_append a (w +:+ s)) by done.
    rewrite (removeWhiteSpace_ascii_append a s) by done.
    by rewrite removeWhiteSpace_whiteSpace.
  - eexists. split; [exact Hrange|]. exact Hdate.
  - intros offset Hzone. eexists. split; [exact Hrange|].
    rewrite Hdate. unfold UTC, LocalTime. rewrite !Hzone. lia.
  - eapply StronglySorted_impl; [|exact Hsorted].
    intros a b. unfold before. by rewrite byName_name.
  - intros a. cbv zeta.
    assert (∀ b, (localeCompare (key a) (key b) <=? 0)
                 && (localeCompare (key b) (key a) <=? 0)
                 = tied (byName localeCompare) a b) as Htie
      by (intros b; unfold tied; by rewrite !byName_name).
    rewrite !(List.filter_ext _ _ Htie). apply Hstable.
Qed.

(** ** [slice] and the batch size *)

Lemma slice_partition {A} (l : list A) (k : Z) : slice_to l k ++ slice_from l k = l.
Proof. apply take_drop. Qed.

Lemma slice_to_nonneg {A} (l : list A) (k : Z) :
  0 <= k → slice_to l k = take (Z.to_nat k) l.
Proof.
  intros Hk. unfold slice_to, slice_index.
  destruct (Z.ltb_spec k 0) as [?|_]; [lia|].
  destruct (Z.le_ge_cases k (Z.of_nat (length l))).
  - by rewrite Z.min_l.
  - rewrite Z.min_r, Nat2Z.id by done. rewrite !take_ge; [done|lia|done].
Qed.

Lemma slice_from_nonneg {A} (l : list A) (k : Z) :
  0 <= k → slice_from l k = drop (Z.to_nat k) l.
Proof.
  intros Hk. unfold slice_from, slice_index.
  destruct (Z.ltb_spec k 0) as [?|_]; [lia|].
  destruct (Z.le_ge_cases k (Z.of_nat (length l))).
  - by rewrite Z.min_l.
  - rewrite Z.min_r, Nat2Z.id by done. rewrite !drop_ge; [done|lia|done].
Qed.

Lemma num_or_pos (x : Z) : 0 <= x → 1 <= num_or x 1.
Proof. unfold num_or. destruct (Z.eqb_spec x 0); lia. Qed.

Lemma num_or_id (x : Z) : 1 <= x → num_or x 1 = x.
Proof. unfold num_or. destruct (Z.eqb_spec x 0); lia. Qed.

(** ** The dispatcher *)

(** Case analysis on a hypothesis [H : x ∈ [a; b; ...]]. *)
Ltac in_list H :=
  repeat (apply elem_of_cons in H as [H|H]);
  [..|by apply elem_of_nil in H]; try subst.

Lemma terminal_guard (s : Status) :
  Status_eqb s fulfilled || Status_eqb s cancelled || Status_eqb s expired = terminal s.
Proof. by destruct s. Qed.

(** The one status that passes the guards of [sendNextBatch] and the
    validator of [save()]. *)
Lemma pending_open_valid (s : Status) :
  s = pending ↔ terminal s = false ∧ Schema.status_valid s = true.
Proof. destruct s; split; try done; intros [? ?]; done. Qed.

Lemma not_pending_guard (s : Status) :
  s ≠ pending → terminal s = true ∨ Schema.status_valid s = false.
Proof. destruct s; intros Hs; try done; (by left) || (by right). Qed.

Lemma validate_loaded_set_batch queue notified sentAt request :
  validate_loaded (BloodRequest.set_batch queue notified sentAt request)
  = Schema.status_valid (BloodRequest.status request).
Proof. done. Qed.

(** [sendNextBatch] on a stored request: the guards, then the dequeue. *)
Lemma sendNextBatch_found db allDonors now requestId request :
  db !! requestId = Some request →
  sendNextBatch db allDonors now requestId =
    if terminal (BloodRequest.status request)
       || bool_decide (BloodRequest.remainingDonorsQueue request = [])
    then (db, [])
    else dequeueBatch db allDonors now requestId request.
Proof.
  intros Hdb. unfold sendNextBatch. rewrite Hdb, terminal_guard.
  destruct (terminal _); [done|].
  by destruct (BloodRequest.remainingDonorsQueue request).
Qed.

(** The dequeue on a request whose status the schema rejects: the [save()]
    throws, and the call ends as it began. *)
Lemma dequeueBatch_rejected db allDonors now requestId request :
  Schema.status_valid (BloodRequest.status request) = false →
  dequeueBatch db allDonors now requestId request = (db, []).
Proof.
  intros Hvalid. unfold dequeueBatch. cbv zeta.
  by rewrite validate_loaded_set_batch, Hvalid.
Qed.

(** What the dequeue stores: the front of the queue moves to the end of the
    notified list, in order. *)
Lemma dequeueBatch_lookup db allDonors now requestId request :
  0 <= BloodRequest.batchSize request →
  Schema.status_valid (BloodRequest.status request) = true →
  let b := Z.to_nat (num_or (BloodRequest.batchSize request) 1) in
  let queue := BloodRequest.remainingDonorsQueue request in
  (dequeueBatch db allDonors now requestId request).1 !! requestId =
    Some (BloodRequest.set_batch (drop b queue)
            (BloodRequest.notifiedDonors request ++ take b queue) now request).
Proof.
  intros Hb Hvalid b queue. unfold dequeueBatch. cbv zeta.
  rewrite validate_loaded_set_batch, Hvalid. cbn [fst].
  rewrite lookup_insert_eq.
  pose proof (num_or_pos _ Hb).
  by rewrite slice_to_nonneg, slice_from_nonneg by lia.
Qed.

(** The revision under [controllers/] has the same guards but for
    ['expired'].  On an expired request with donors queued it goes on to
    the dequeue, where the [save()] throws: in what they store and send the
    two revisions are one function. *)
Lemma V1_sendNextBatch_eq (db : Store) (allDonors : list Donor.t)
    (now : Time) (requestId : ObjectId) :
  V1.sendNextBatch db allDonors now requestId
  = sendNextBatch db allDonors now requestId.
Proof.
  unfold V1.sendNextBatch, sendNextBatch.
  destruct (db !! requestId) as [request|]; [|done].
  destruct (BloodRequest.status request) eqn:Hst; try done.
  change (Status_eqb expired fulfilled || Status_eqb expired cancelled) with false.
  change (Status_eqb expired fulfilled || Status_eqb expired cancelled
          || Status_eqb expired expired) with true.
  cbn match. destruct (_ =? _)%nat; [done|].
  apply dequeueBatch_rejected. by rewrite Hst.
Qed.

Lemma sendNextBatch_noop_at (db : Store) (allDonors : list Donor.t)
    (now : Time) (requestId : ObjectId) :
  (db !! requestId = None
   ∨ ∃ request, db !! requestId = Some request
       ∧ (BloodRequest.status request ∈ [fulfilled; cancelled; expired]
          ∨ BloodRequest.remainingDonorsQueue request = [])) →
  sendNextBatch db allDonors now requestId = (db, []).
Proof.
  intros [Hnone|(request & Hdb & Hguard)].
  - unfold sendNextBatch. by rewrite Hnone.
  - rewrite (sendNextBatch_found _ _ _ _ _ Hdb).
    destruct Hguard as [Hst|Hq].
    + replace (terminal (BloodRequest.status request)) with true; [done|].
      in_list Hst; by rewrite Hst.
    + rewrite Hq. by rewrite orb_true_r.
Qed.

(** A request that is not pending is left alone: its status stops the call
    at the guard, or at the [save()]. *)
Lemma sendNextBatch_not_pending (db : Store) (allDonors : list Donor.t)
    (now : Time) (requestId : ObjectId) (request : BloodRequest.t) :
  db !! requestId = Some request →
  BloodRequest.status request ≠ pending →
  sendNextBatch db allDonors now requestId = (db, []).
Proof.
  intros Hdb Hst. rewrite (sendNextBatch_found _ _ _ _ _ Hdb).
  destruct (not_pending_guard _ Hst) as [Hterm|Hvalid].
  - by rewrite Hterm.
  - destruct (_ || _); [done|]. by apply dequeueBatch_rejected.
Qed.

(** C7. [sendNextBatch] returns without touching the store and without
    sending a message when the request is not found, when its status is
    fulfilled, cancelled or expired, and when its queue is empty; so does
    the revision under [controllers/], which has no guard for ['expired']:
    there the call ends at the [save()], which the schema's enum rejects,
    before anything is stored or sent. *)
Theorem sendNextBatch_noop (db : Store) (allDonors : list Donor.t)
    (now : Time) (requestId : ObjectId) :
  (db !! requestId = None
   ∨ ∃ request, db !! requestId = Some request
       ∧ (BloodRequest.status request ∈ [fulfilled; cancelled; expired]
          ∨ BloodRequest.remainingDonorsQueue request = [])) →
  sendNextBatch db allDonors now requestId = (db, [])
  ∧ V1.sendNextBatch db allDonors now requestId = (db, []).
Proof.
  intros Hguard. rewrite V1_sendNextBatch_eq.
  split; by apply sendNextBatch_noop_at.
Qed.

(** The request that [sendNextBatch] leaves in the store. *)
Lemma sendNextBatch_lookup db allDonors now requestId request :
  db !! requestId = Some request →
  0 <= BloodRequest.batchSize request →
  BloodRequest.status request = pending →
  let b := Z.to_nat (num_or (BloodRequest.batchSize request) 1) in
  let queue := BloodRequest.remainingDonorsQueue request in
  (sendNextBatch db allDonors now requestId).1 !! requestId =
    Some (if bool_decide (queue = []) then request
          else BloodRequest.set_batch (drop b queue)
                 (BloodRequest.notifiedDonors request ++ take b queue) now request).
Proof.
  intros Hdb Hb Hst b queue.
  apply pending_open_valid in Hst as [Hterm Hvalid].
  rewrite (sendNextBatch_found _ _ _ _ _ Hdb), Hterm. cbn [orb].
  fold queue. case_bool_decide; [done|].
  by apply dequeueBatch_lookup.
Qed.

(** C4, as the code has it.  [sendNextBatch] does not look at
    [batchInProgress].  On a pending request, the one status on which it
    gets as far as storing a batch, two calls in succession move the first
    two batches from the queue to the notified list, and the second call
    does nothing exactly when the first one left the queue empty.  On a
    request of any other status neither call stores or sends anything. *)
Theorem sendNextBatch_twice (db : Store) (allDonors : list Donor.t)
    (now now' : Time) (requestId : ObjectId) (request : BloodRequest.t) :
  db !! requestId = Some request →
  0 <= BloodRequest.batchSize request →
  let b := Z.to_nat (num_or (BloodRequest.batchSize request) 1) in
  let queue := BloodRequest.remainingDonorsQueue request in
  let first := sendNextBatch db allDonors now requestId in
  let second := sendNextBatch first.1 allDonors now' requestId in
  (BloodRequest.status request = pending →
     (∃ request2, second.1 !! requestId = Some request2
        ∧ BloodRequest.notifiedDonors request2
          = BloodRequest.notifiedDonors request ++ take (b + b) queue
        ∧ BloodRequest.remainingDonorsQueue request2 = drop (b + b) queue)
     ∧ (second = (first.1, []) ↔ (length queue ≤ b)%nat))
  ∧ (BloodRequest.status request ≠ pending →
       first = (db, []) ∧ second = (db, [])).
Proof.
  intros Hdb Hb b queue first second.
  split; cycle 1.
  { intros Hst.
    assert (first = (db, [])) as Hf
      by (subst first; by eapply sendNextBatch_not_pending).
    split; [done|]. subst second. rewrite Hf.
    by eapply sendNextBatch_not_pending. }
  intros Hst.
  pose proof (num_or_pos _ Hb) as Hpos.
  assert (1 ≤ b)%nat as Hb1 by (subst b; lia).
  pose proof (sendNextBatch_lookup db allDonors now requestId request Hdb Hb Hst)
    as Hfirst.
  cbn zeta in Hfirst. fold b queue first in Hfirst.
  destruct (decide (queue = [])) as [Hnil|Hq].
  { (* nothing queued: both calls return at the guard *)
    assert (first = (db, [])) as Hf.
    { subst first. apply sendNextBatch_noop_at. right. exists request. auto. }
    assert (second = (db, [])) as Hs.
    { subst second. rewrite Hf. apply sendNextBatch_noop_at.
      right. exists request. auto. }
    split.
    - exists request. rewrite Hs. cbn [fst]. split; [done|].
      fold queue. rewrite Hnil, take_nil, drop_nil, app_nil_r. done.
    - rewrite Hs, Hf. cbn [fst]. rewrite Hnil. cbn. split; [lia|done]. }
  rewrite bool_decide_eq_false_2 in Hfirst by done.
  set (request1 := BloodRequest.set_batch (drop b queue)
                     (BloodRequest.notifiedDonors request ++ take b queue) now request)
    in Hfirst.
  pose proof (sendNextBatch_lookup first.1 allDonors now' requestId request1
                Hfirst Hb Hst) as Hsecond.
  cbn zeta in Hsecond. fold second in Hsecond.
  change (BloodRequest.batchSize request1) with (BloodRequest.batchSize request) in Hsecond.
  change (BloodRequest.remainingDonorsQueue request1) with (drop b queue) in Hsecond.
  change (BloodRequest.notifiedDonors request1)
    with (BloodRequest.notifiedDonors request ++ take b queue) in Hsecond.
  fold b in Hsecond.
  destruct (decide (drop b queue = [])) as [Hdrop|Hdrop].
  - (* the first call emptied the queue *)
    pose proof (drop_nil_inv _ _ Hdrop) as Hlen.
    split.
    + exists request1. rewrite Hsecond, bool_decide_eq_true_2 by done.
      split; [done|]. cbn. split.
      * by rewrite !take_ge by lia.
      * by rewrite !drop_ge by lia.
    + split; [done|]. intros _. subst second.
      apply sendNextBatch_noop_at. right. exists request1. auto.
  - (* donors remain: the second call dequeues again *)
    rewrite bool_decide_eq_false_2 in Hsecond by done.
    split.
    + eexists. split; [exact Hsecond|]. cbn. split.
      * by rewrite <- app_assoc, take_take_drop.
      * by rewrite drop_drop.
    + split.
      * intros Heq. rewrite Heq in Hsecond. cbn [fst] in Hsecond.
        pose proof (f_equal (fmap BloodRequest.remainingDonorsQueue)
                      (eq_trans (eq_sym Hfirst) Hsecond)) as Hreq.
        cbn in Hreq. injection Hreq as Hreq.
        apply (f_equal length) in Hreq. rewrite !length_drop in Hreq.
        assert (length queue ≤ b ∨ b < length queue)%nat as [?|?] by lia; [done|].
        lia.
      * intros Hlen. destruct Hdrop. by apply drop_ge.
Qed.

(** C4, as stated, fails.  A pending request with three donors queued and
    [batchSize] 1: the second call, one millisecond after the first, while
    [batchInProgress] is set and the window of two minutes is still open,
    dequeues donor 6 and sends a second message. *)
Lemma sendNextBatch_twice_counterexample :
  let db : gmap nat BloodRequest.t := {[ 0%nat := sampleRequest pending ]} in
  let first := sendNextBatch db sampleDirectory 1000 0%nat in
  let second := sendNextBatch first.1 sampleDirectory 1001 0%nat in
  first.1 !! 0%nat
    = Some (BloodRequest.set_batch [6; 1]%nat [5]%nat 1000 (sampleRequest pending))
  ∧ BloodRequest.batchInProgress (BloodRequest.set_batch [6; 1]%nat [5]%nat 1000
                                    (sampleRequest pending)) = true
  ∧ windowClosed 1001 (sampleRequest pending) 1000 = false
  ∧ second.1 !! 0%nat
    = Some (BloodRequest.set_batch [1]%nat [5; 6]%nat 1001 (sampleRequest pending))
  ∧ second.2 = [(6%nat, "5550100"%string)]
  ∧ second ≠ (first.1, []).
Proof.
  cbv zeta. repeat split; by vm_compute.
Qed.

(** ** Every operation acts on one document *)

Lemma alter_same {A} (f : A → A) (m : gmap nat A) (i : nat) :
  (∀ x, m !! i = Some x → f x = x) → alter f i m = m.
Proof.
  intros Hf. apply map_eq. intros j. rewrite lookup_alter. case_decide; [|done].
  subst. destruct (m !! j) eqn:Hm; [|done]. cbn. by rewrite Hf.
Qed.

Lemma insert_as_alter {A} (f : A → A) (m : gmap nat A) (i : nat) (x : A) :
  m !! i = Some x → <[i := f x]> m = alter f i m.
Proof.
  intros Hm. apply map_eq. intros j. rewrite lookup_alter, lookup_insert.
  case_decide; [|done]. subst. by rewrite Hm.
Qed.

Lemma alter_twice {A} (f g : A → A) (m : gmap nat A) (i : nat) :
  alter f i (alter g i m) = alter (f ∘ g) i m.
Proof.
  apply map_eq. intros j. rewrite !lookup_alter. case_decide; [|done].
  rewrite decide_True by done. by destruct (m !! i).
Qed.

Lemma sendNextBatch_alter db allDonors now requestId :
  (sendNextBatch db allDonors now requestId).1 = alter (dispatch now) requestId db.
Proof.
  destruct (db !! requestId) as [request|] eqn:Hdb.
  - rewrite (sendNextBatch_found _ _ _ _ _ Hdb).
    destruct (terminal _ || bool_decide _) eqn:Hguard.
    + cbn [fst]. symmetry. apply alter_same. intros x Hx. unfold dispatch.
      assert (x = request) as -> by congruence. by rewrite Hguard.
    + unfold dequeueBatch. cbv zeta.
      destruct (validate_loaded _) eqn:Hvalid; cbn [fst].
      * rewrite <- (insert_as_alter (dispatch now) _ _ _ Hdb).
        unfold dispatch. cbv zeta. by rewrite Hguard, Hvalid.
      * symmetry. apply alter_same. intros x Hx. unfold dispatch. cbv zeta.
        assert (x = request) as -> by congruence. by rewrite Hguard, Hvalid.
  - unfold sendNextBatch. rewrite Hdb. cbn [fst]. symmetry. apply alter_same. intros x Hx. congruence.
Qed.

(** [dispatch], by the status of the request. *)
Lemma dispatch_pending now request :
  BloodRequest.status request = pending →
  dispatch now request =
    if bool_decide (BloodRequest.remainingDonorsQueue request = []) then request
    else
      let batchSize := num_or (BloodRequest.batchSize request) 1 in
      BloodRequest.set_batch
        (slice_from (BloodRequest.remainingDonorsQueue request) batchSize)
        (BloodRequest.notifiedDonors request
           ++ slice_to (BloodRequest.remainingDonorsQueue request) batchSize)
        now request.
Proof.
  intros Hst. unfold dispatch. cbv zeta.
  rewrite validate_loaded_set_batch, Hst.
  by destruct (bool_decide _).
Qed.

Lemma dispatch_not_pending now request :
  BloodRequest.status request ≠ pending → dispatch now request = request.
Proof.
  intros Hst. unfold dispatch. cbv zeta. rewrite validate_loaded_set_batch.
  destruct (not_pending_guard _ Hst) as [->| ->]; [done|].
  by destruct (_ || _).
Qed.

Lemma V1_dispatch_eq now request : V1.dispatch now request = dispatch now request.
Proof.
  unfold V1.dispatch, dispatch. cbv zeta. rewrite validate_loaded_set_batch.
  destruct (BloodRequest.status request) eqn:Hst; try done.
  by destruct (bool_decide _).
Qed.

Lemma save_status_insert s id (db : gmap nat BloodRequest.t) request :
  save_status s id (<[id := request]> db) = <[id := BloodRequest.set_status s request]> db.
Proof. unfold save_status. apply alter_insert_eq. Qed.

Lemma save_status_alter s id (db : gmap nat BloodRequest.t) :
  save_status s id db = alter (BloodRequest.set_status s) id db.
Proof. done. Qed.

Lemma getBloodRequestById_alter db now id :
  (getBloodRequestById db now id).1 = alter (lifecycle now) id db.
Proof.
  unfold getBloodRequestById.
  destruct (db !! id) as [request|] eqn:Hdb.
  2:{ cbn [fst]. symmetry. apply alter_same. intros x Hx. congruence. }
  assert (∀ s, save_status s id db = <[id := BloodRequest.set_status s request]> db)
    as Hsave.
  { intros s. unfold save_status. symmetry. by apply insert_as_alter. }
  rewrite <- (insert_as_alter (lifecycle now) _ _ _ Hdb).
  unfold lifecycle, assign_status, stored_status. cbv zeta.
  destruct (Status_eqb (BloodRequest.status request) active).
  - destruct (BloodRequest.quantity request <=? BloodRequest.confirmedUnits request).
    + cbn. by rewrite Hsave.
    + destruct (BloodRequest.requiredBy request <? now).
      * cbn. by rewrite insert_id.
      * cbn. destruct (negb _ || false || false); cbn; by rewrite insert_id.
  - destruct (negb _ || _ || _); cbn; by rewrite insert_id.
Qed.

(** [confirmDonation] on a stored request, in one equation. *)
Lemma confirmDonation_found db now requestId request :
  db !! requestId = Some request →
  confirmDonation db now requestId =
    if confirmable now request
    then (<[requestId := confirm now request]> db, Confirmed (confirm now request))
    else (db, AlreadyClosed).
Proof.
  intros Hdb. unfold confirmDonation, findOneAndUpdate_inc, confirm. rewrite Hdb.
  destruct (confirmable now request); [|done].
  destruct (_ <=? _); [|done].
  by rewrite save_status_insert.
Qed.

(** An unknown id matches no document either. *)
Lemma confirmDonation_not_found (db : Store) now requestId :
  db !! requestId = None → confirmDonation db now requestId = (db, AlreadyClosed).
Proof.
  intros Hdb. unfold confirmDonation, findOneAndUpdate_inc. by rewrite Hdb.
Qed.

Lemma confirmDonation_alter db now requestId :
  (confirmDonation db now requestId).1 = alter (confirm now) requestId db.
Proof.
  destruct (db !! requestId) as [request|] eqn:Hdb.
  - rewrite (confirmDonation_found _ _ _ _ Hdb).
    destruct (confirmable now request) eqn:Hc; cbn [fst].
    + by apply insert_as_alter.
    + cbn [fst]. symmetry. apply alter_same. intros x Hx.
      assert (x = request) as -> by congruence. unfold confirm. by rewrite Hc.
  - unfold confirmDonation, findOneAndUpdate_inc. rewrite Hdb.
    cbn [fst]. symmetry. apply alter_same. intros x Hx. congruence.
Qed.

(** ** One tick of the scheduler *)

Lemma V1_sendNextBatch_alter db allDonors now requestId :
  (V1.sendNextBatch db allDonors now requestId).1 = alter (V1.dispatch now) requestId db.
Proof.
  rewrite V1_sendNextBatch_eq, sendNextBatch_alter.
  apply map_eq. intros j. rewrite !lookup_alter. case_decide; [|done].
  destruct (db !! requestId); [|done]. cbn. by rewrite V1_dispatch_eq.
Qed.

(** The scheduler with any [sendNextBatch] that acts on the one document it
    is called for, as both revisions do. *)
Section Tick.

Variable sendNextBatch' : Store → list Donor.t → Time → ObjectId → Store * list Sms.
Variable send : Time → BloodRequest.t → BloodRequest.t.
Hypothesis sendNextBatch'_alter : ∀ db allDonors now requestId,
  (sendNextBatch' db allDonors now requestId).1 = alter (send now) requestId db.

Lemma checkOne_db allDonors now sentAt acc entry :
  tick_db (checkOne sendNextBatch' allDonors now sentAt acc entry) =
    if windowOver now entry.2
    then alter (send (sentAt entry.1) ∘ BloodRequest.set_batchInProgress false)
           entry.1 (tick_db acc)
    else tick_db acc.
Proof.
  unfold checkOne, windowOver.
  destruct (BloodRequest.batchSentAt entry.2) as [sentTime|]; [|done].
  destruct (windowClosed now entry.2 sentTime); [|done].
  pose proof (sendNextBatch'_alter
                (alter (BloodRequest.set_batchInProgress false) entry.1 (tick_db acc))
                allDonors (sentAt entry.1) entry.1) as Halter.
  destruct (sendNextBatch' _ allDonors (sentAt entry.1) entry.1) as [db2 sms].
  cbn [fst tick_db] in *. rewrite Halter. apply alter_twice.
Qed.

Lemma checkOne_advanced allDonors now sentAt acc entry :
  tick_advanced (checkOne sendNextBatch' allDonors now sentAt acc entry) =
    if windowOver now entry.2
    then tick_advanced acc ++ [entry.1]
    else tick_advanced acc.
Proof.
  unfold checkOne, windowOver.
  destruct (BloodRequest.batchSentAt entry.2) as [sentTime|]; [|done].
  destruct (windowClosed now entry.2 sentTime); [|done].
  by destruct (sendNextBatch' _ allDonors (sentAt entry.1) entry.1).
Qed.

(** The loop over a list of snapshots without repeated ids. *)
Lemma foldl_checkOne allDonors now sentAt (l : list (nat * BloodRequest.t)) acc k :
  NoDup l.*1 →
  let result := foldl (checkOne sendNextBatch' allDonors now sentAt) acc l in
  (∀ r, (k, r) ∈ l → windowOver now r = true →
     tick_db result !! k
     = (send (sentAt k) ∘ BloodRequest.set_batchInProgress false) <$> tick_db acc !! k)
  ∧ ((∀ r, (k, r) ∈ l → windowOver now r = false) →
     tick_db result !! k = tick_db acc !! k)
  ∧ (k ∈ tick_advanced result ↔
     k ∈ tick_advanced acc ∨ ∃ r, (k, r) ∈ l ∧ windowOver now r = true).
Proof.
  revert acc. induction l as [|[j s] l IH]; intros acc Hnd result.
  { subst result. cbn. split; [|split; [done|]].
    - intros r Hin. by apply elem_of_nil in Hin.
    - split; [auto|]. intros [?|(r & Hin & _)]; [done|]. by apply elem_of_nil in Hin. }
  cbn [fmap list_fmap fst] in Hnd. apply NoDup_cons in Hnd as [Hj Hnd].
  specialize (IH (checkOne sendNextBatch' allDonors now sentAt acc (j, s)) Hnd).
  cbn zeta in IH. subst result. cbn [foldl].
  destruct IH as (IHdue & IHnot & IHadv).
  rewrite checkOne_db in IHdue, IHnot. rewrite checkOne_advanced in IHadv.
  cbn [fst snd] in *.
  assert (∀ r, (k, r) ∈ l → k ≠ j) as Hne.
  { intros r Hin ->. apply Hj. apply list_elem_of_fmap. by exists (j, r). }
  split; [|split].
  - intros r [Heq|Hin]%elem_of_cons Hover.
    + injection Heq as -> ->. rewrite IHnot.
      * by rewrite Hover, lookup_alter_eq.
      * intros r' Hin. by destruct (Hne r' Hin).
    + rewrite (IHdue r Hin Hover).
      destruct (windowOver now s); [|done].
      rewrite lookup_alter_ne; [done|]. intros ->. by apply (Hne r Hin).
  - intros Hall. rewrite IHnot.
    + destruct (windowOver now s) eqn:Hs; [|done].
      destruct (decide (j = k)) as [->|?]; [|by rewrite lookup_alter_ne].
      rewrite Hall in Hs; [done|]. apply elem_of_cons. by left.
    + intros r Hin. apply Hall. apply elem_of_cons. by right.
  - rewrite IHadv. split.
    + intros [Hacc|(r & Hin & Hover)].
      * destruct (windowOver now s) eqn:Hs; [|by left].
        apply elem_of_app in Hacc as [?|Hk]; [by left|].
        apply list_elem_of_singleton in Hk as ->. right. exists s.
        split; [|done]. apply elem_of_cons. by left.
      * right. exists r. split; [|done]. apply elem_of_cons. by right.
    + intros [Hacc|(r & [Heq|Hin]%elem_of_cons & Hover)].
      * left. destruct (windowOver now s); [|done]. apply elem_of_app. by left.
      * injection Heq as -> ->. left. rewrite Hover.
        apply elem_of_app. right. by apply list_elem_of_singleton.
      * right. by exists r.
Qed.

Lemma elem_of_pendingRequests (db : gmap nat BloodRequest.t) k r :
  (k, r) ∈ pendingRequests db ↔ db !! k = Some r ∧ scanned r = true.
Proof.
  unfold pendingRequests. rewrite list_elem_of_filter, elem_of_map_to_list.
  cbn. rewrite Is_true_true. tauto.
Qed.

Lemma NoDup_pendingRequests (db : gmap nat BloodRequest.t) :
  NoDup (pendingRequests db).*1.
Proof.
  unfold pendingRequests.
  apply (sublist_NoDup _ (map_to_list db).*1); [apply NoDup_fst_map_to_list|].
  apply fmap_sublist, sublist_filter.
Qed.

(** What a tick does to each stored request, and which requests it hands to
    [sendNextBatch]. *)
Lemma checkPendingBatches_by dbReady (db : gmap nat BloodRequest.t) allDonors now sentAt k :
  let tick := checkPendingBatches sendNextBatch' dbReady db allDonors now sentAt in
  tick_db tick !! k = (if dbReady then advance_by send now (sentAt k) else id) <$> db !! k
  ∧ (k ∈ tick_advanced tick ↔
     dbReady = true ∧ ∃ r, db !! k = Some r ∧ due now r = true).
Proof.
  intros tick. subst tick. unfold checkPendingBatches.
  destruct dbReady; cbn [negb].
  2:{ cbn. split; [by rewrite option_fmap_id|].
      split; [by intros ?%elem_of_nil|by intros [? _]]. }
  set (start := {| tick_db := db; tick_advanced := []; tick_sms := [] |}).
  destruct (foldl_checkOne allDonors now sentAt (pendingRequests db) start k
              (NoDup_pendingRequests db)) as (Hdue & Hnot & Hadv).
  cbn [tick_db tick_advanced start] in *.
  split.
  - destruct (db !! k) as [r|] eqn:Hdb.
    + cbn. unfold advance_by, due. destruct (scanned r) eqn:Hscan; cbn [andb].
      * destruct (windowOver now r) eqn:Hover.
        -- rewrite (Hdue r); [done| |done].
           by apply elem_of_pendingRequests.
        -- rewrite Hnot; [done|]. intros r' [Hr' _]%elem_of_pendingRequests.
           congruence.
      * rewrite Hnot; [done|]. intros r' [Hr' Hs]%elem_of_pendingRequests.
        congruence.
    + rewrite Hnot; [by rewrite ?Hdb|]. intros r' [Hr' _]%elem_of_pendingRequests.
      congruence.
  - rewrite Hadv. unfold due. split.
    + intros [?%elem_of_nil|(r & [Hr Hs]%elem_of_pendingRequests & Hover)]; [done|].
      split; [done|]. exists r. by rewrite Hs, Hover.
    + intros [_ (r & Hr & [Hs Hover]%andb_prop)]. right. exists r.
      split; [|done]. by apply elem_of_pendingRequests.
Qed.

Lemma checkPendingBatches_not_due dbReady (db : gmap nat BloodRequest.t)
    allDonors now sentAt k request :
  db !! k = Some request →
  due now request = false →
  let tick := checkPendingBatches sendNextBatch' dbReady db allDonors now sentAt in
  tick_db tick !! k = Some request ∧ k ∉ tick_advanced tick.
Proof.
  intros Hdb Hdue tick. subst tick.
  destruct (checkPendingBatches_by dbReady db allDonors now sentAt k) as [Hlookup Hadv].
  cbn zeta in Hlookup, Hadv. split.
  - rewrite Hlookup, Hdb. destruct dbReady; [|done].
    cbn. unfold advance_by. by rewrite Hdue.
  - rewrite Hadv. intros [_ (r & Hr & Hd)]. congruence.
Qed.

End Tick.

Lemma checkPendingBatches_lookup dbReady (db : gmap nat BloodRequest.t) allDonors now sentAt k :
  let tick := checkPendingBatches sendNextBatch dbReady db allDonors now sentAt in
  tick_db tick !! k = (if dbReady then advance now (sentAt k) else id) <$> db !! k
  ∧ (k ∈ tick_advanced tick ↔
     dbReady = true ∧ ∃ r, db !! k = Some r ∧ due now r = true).
Proof. apply checkPendingBatches_by, sendNextBatch_alter. Qed.

Lemma V1_checkPendingBatches_lookup dbReady (db : gmap nat BloodRequest.t) allDonors now sentAt k :
  let tick := checkPendingBatches V1.sendNextBatch dbReady db allDonors now sentAt in
  tick_db tick !! k = (if dbReady then advance_by V1.dispatch now (sentAt k) else id) <$> db !! k
  ∧ (k ∈ tick_advanced tick ↔
     dbReady = true ∧ ∃ r, db !! k = Some r ∧ due now r = true).
Proof. apply checkPendingBatches_by, V1_sendNextBatch_alter. Qed.

(** ** Runs of the engine, one request at a time *)

Section Runs.

Variable localeCompare : string → string → Z.
Variable String_toUpperCase : string → string.
Variable LocalTZA : Time → bool → Z.

(** The document that this revision builds has the status ['active']: its
    [save()] throws on the enum, whatever the body. *)
Lemma createBloodRequest_rejected (db : gmap nat BloodRequest.t)
    allDonors now hospital body :
  createBloodRequest localeCompare String_toUpperCase LocalTZA
    db allDonors now hospital body
  = (db, ServerError None).
Proof. done. Qed.

Lemma createBloodRequest_lookup (db : gmap nat BloodRequest.t)
    allDonors now hospital body k r :
  db !! k = Some r →
  (createBloodRequest localeCompare String_toUpperCase LocalTZA db allDonors now hospital body).1
    !! k = Some r.
Proof. intros Hdb. by rewrite createBloodRequest_rejected. Qed.

Lemma step_lookup (db : gmap nat BloodRequest.t) event k r :
  db !! k = Some r →
  step localeCompare String_toUpperCase LocalTZA db event !! k = Some (step_request event k r).
Proof.
  intros Hdb. destruct event as [now op]. unfold step, step_request.
  cbn [fst snd].
  destruct op as [allDonors hospital body|allDonors requestId|id|requestId
                  |dbReady allDonors sentAt].
  - by apply createBloodRequest_lookup.
  - rewrite sendNextBatch_alter, lookup_alter. case_decide; subst; by rewrite Hdb.
  - rewrite getBloodRequestById_alter, lookup_alter. case_decide; subst; by rewrite Hdb.
  - rewrite confirmDonation_alter, lookup_alter. case_decide; subst; by rewrite Hdb.
  - destruct (checkPendingBatches_lookup dbReady db allDonors now sentAt k) as [-> _].
    rewrite Hdb. by destruct dbReady.
Qed.

Lemma run_lookup (db : gmap nat BloodRequest.t) events k r :
  db !! k = Some r →
  run localeCompare String_toUpperCase LocalTZA db events !! k
  = Some (foldl (λ r event, step_request event k r) r events).
Proof.
  revert db r. induction events as [|event events IH]; intros db r Hdb; [done|].
  cbn [run foldl]. apply IH. by apply step_lookup.
Qed.

End Runs.

(** ** What every operation preserves *)

Lemma evolves_refl r : evolves r r.
Proof. unfold evolves. repeat split; auto; lia. Qed.

Lemma evolves_trans r1 r2 r3 : evolves r1 r2 → evolves r2 r3 → evolves r1 r3.
Proof.
  unfold evolves.
  intros (Hq1 & Hd1 & Hb1 & Hs1 & Hc1 & Hle1 & Hp1 & Hn1)
         (Hq2 & Hd2 & Hb2 & Hs2 & Hc2 & Hle2 & Hp2 & Hn2).
  repeat split; try congruence; try lia.
  - destruct Hs1 as [Hs1|[Hs1 Hin1]], Hs2 as [Hs2|[Hs2 Hin2]].
    + left. congruence.
    + right. split; congruence.
    + right. split; [done|]. congruence.
    + rewrite Hs2 in Hin1. in_list Hin1; done.
  - by etrans.
Qed.

Lemma dispatch_evolves now r : evolves r (dispatch now r).
Proof.
  unfold dispatch. destruct (terminal _ || bool_decide _); [apply evolves_refl|].
  cbv zeta. destruct (validate_loaded _); [|apply evolves_refl].
  unfold evolves. cbn. repeat split; auto; try lia.
  - by rewrite <- app_assoc, slice_partition.
  - by apply prefix_app_r.
Qed.

Lemma set_batchInProgress_evolves b r :
  evolves r (BloodRequest.set_batchInProgress b r).
Proof. unfold evolves. cbn. repeat split; auto; lia. Qed.

Lemma lifecycle_evolves now r : evolves r (lifecycle now r).
Proof.
  unfold lifecycle.
  destruct (Status_eqb (BloodRequest.status r) active) eqn:Hact;
    [|apply evolves_refl].
  apply bool_decide_eq_true in Hact. unfold stored_status. cbv zeta.
  destruct (_ <=? _); [|destruct (_ <? _); [|apply evolves_refl]];
    (destruct (validate_loaded _); [|apply evolves_refl]);
    unfold evolves; cbn; repeat split; auto; try lia;
    right; (split; [done|]); set_solver.
Qed.

Lemma confirm_evolves now r : evolves r (confirm now r).
Proof.
  unfold confirm. destruct (confirmable now r) eqn:Hc; [|apply evolves_refl].
  unfold confirmable in Hc.
  apply andb_prop in Hc as [[Hact%bool_decide_eq_true Hlt%Z.ltb_lt]%andb_prop _].
  cbn. destruct (Z.leb_spec (BloodRequest.quantity r) (BloodRequest.confirmedUnits r + 1));
    unfold evolves; cbn; repeat split; auto; try lia.
  right. split; [done|]. set_solver.
Qed.

Lemma advance_evolves now sentAt r : evolves r (advance now sentAt r).
Proof.
  unfold advance, advance_by. destruct (due now r); [|apply evolves_refl].
  eapply evolves_trans; [apply (set_batchInProgress_evolves false)|].
  apply dispatch_evolves.
Qed.

Lemma step_request_evolves event k r : evolves r (step_request event k r).
Proof.
  unfold step_request. destruct event as [now op]. cbn [fst snd].
  destruct op as [| |?|?|[] ? ?]; repeat case_decide;
    auto using evolves_refl, dispatch_evolves, lifecycle_evolves,
               confirm_evolves, advance_evolves.
Qed.

Lemma foldl_step_request_evolves events k r :
  evolves r (foldl (λ r event, step_request event k r) r events).
Proof.
  revert r. induction events as [|event events IH]; intros r; [apply evolves_refl|].
  cbn [foldl]. eapply evolves_trans; [apply step_request_evolves|apply IH].
Qed.

(** Whatever happens, a stored request stays stored and evolves. *)
Lemma run_evolves localeCompare String_toUpperCase LocalTZA
    (db : gmap nat BloodRequest.t) events k r :
  db !! k = Some r →
  ∃ r', run localeCompare String_toUpperCase LocalTZA db events !! k = Some r' ∧ evolves r r'.
Proof.
  intros Hdb. eexists. split; [by apply run_lookup|].
  apply foldl_step_request_evolves.
Qed.

(** ** The confirmation coordinator *)

Lemma confirmable_true now request :
  confirmable now request = true ↔
    BloodRequest.status request = active
    ∧ BloodRequest.confirmedUnits request < BloodRequest.quantity request
    ∧ now <= BloodRequest.requiredBy request.
Proof.
  unfold confirmable, Status_eqb.
  rewrite !andb_true_iff, bool_decide_eq_true, Z.ltb_lt, Z.leb_le. tauto.
Qed.

(** C1. On a stored request, [confirmDonation] adds exactly one to
    [confirmedUnits] if and only if, in the store at that moment, the status
    is active, fewer units are confirmed than needed and the deadline is not
    before now; test and increment are the one [findOneAndUpdate] step.  When
    the test fails the answer is the error "Blood request already fulfilled or
    expired." and the store is as before; when the increment reaches the
    quantity needed, the status becomes fulfilled. *)
Theorem confirmDonation_conditional_increment (db : Store) (now : Time)
    (requestId : ObjectId) (request : BloodRequest.t) :
  db !! requestId = Some request →
  let open :=
    BloodRequest.status request = active
    ∧ BloodRequest.confirmedUnits request < BloodRequest.quantity request
    ∧ now <= BloodRequest.requiredBy request in
  let units := BloodRequest.confirmedUnits request in
  let incremented := BloodRequest.set_confirmedUnits (units + 1) request in
  let answer := confirmDonation db now requestId in
  (* the conditional update is one step of the store *)
  (open → findOneAndUpdate_inc db now requestId
          = (<[requestId := incremented]> db, Some incremented))
  ∧ (¬ open → findOneAndUpdate_inc db now requestId = (db, None))
  (* the handler on success *)
  ∧ (open →
     ∃ request',
       answer = (<[requestId := request']> db, Confirmed request')
       ∧ request' = (if BloodRequest.quantity request <=? units + 1
                     then BloodRequest.set_status fulfilled incremented
                     else incremented)
       ∧ BloodRequest.confirmedUnits request' = units + 1
       ∧ (BloodRequest.quantity request <= units + 1 →
          BloodRequest.status request' = fulfilled)
       ∧ (units + 1 < BloodRequest.quantity request →
          BloodRequest.status request' = active))
  (* the handler on failure *)
  ∧ (¬ open →
     answer = (db, AlreadyClosed)
     ∧ success answer.2 = false
     ∧ http_status answer.2 = 400
     ∧ message answer.2 = Some "Blood request already fulfilled or expired."%string)
  (* exactly one, if and only if *)
  ∧ (∃ request',
       answer.1 !! requestId = Some request'
       ∧ (BloodRequest.confirmedUnits request' = units + 1 ↔ open)
       ∧ (BloodRequest.confirmedUnits request' = units ↔ ¬ open)).
Proof.
  intros Hdb open units incremented answer.
  pose proof (confirmable_true now request) as Hopen. fold open in Hopen.
  pose proof (confirmDonation_found db now requestId request Hdb) as Hanswer.
  fold answer in Hanswer.
  assert (confirm now request =
            if confirmable now request
            then (if BloodRequest.quantity request <=? units + 1
                  then BloodRequest.set_status fulfilled incremented
                  else incremented)
            else request) as Hconfirm by done.
  split; [|split; [|split; [|split]]].
  - intros Ho%Hopen. unfold findOneAndUpdate_inc. by rewrite Hdb, Ho.
  - intros Hno. unfold findOneAndUpdate_inc. rewrite Hdb.
    destruct (confirmable now request); [|done]. destruct Hno. by apply Hopen.
  - intros Ho. pose proof Ho as (Hact & Hlt & Hdue). apply Hopen in Ho.
    rewrite Ho in Hanswer, Hconfirm. exists (confirm now request).
    split; [done|]. split; [done|]. rewrite Hconfirm.
    destruct (Z.leb_spec (BloodRequest.quantity request) (units + 1));
      cbn; repeat split; try done; lia.
  - intros Hno. destruct (confirmable now request); [destruct Hno; by apply Hopen|].
    by rewrite Hanswer.
  - destruct (confirmable now request) eqn:Hc.
    + assert open as Ho by by apply Hopen.
      exists (confirm now request). rewrite Hanswer. cbn [fst].
      rewrite lookup_insert_eq. split; [done|]. rewrite Hconfirm.
      assert (BloodRequest.confirmedUnits
                (if BloodRequest.quantity request <=? units + 1
                 then BloodRequest.set_status fulfilled incremented
                 else incremented) = units + 1) as -> by by destruct (_ <=? _).
      split; [tauto|]. split; [lia|tauto].
    + assert (¬ open) as Hno by (rewrite <- Hopen; congruence).
      exists request. rewrite Hanswer. cbn [fst]. split; [done|].
      fold units. split; [|tauto]. split; [lia|tauto].
Qed.

(** *** Runs of confirmations *)

Lemma confirm_units now r :
  BloodRequest.confirmedUnits (confirm now r)
  = BloodRequest.confirmedUnits r + (if confirmable now r then 1 else 0).
Proof.
  unfold confirm. destruct (confirmable now r); [|lia].
  cbn. by destruct (_ <=? _).
Qed.

Lemma confirmAll_cons db requestId now times r :
  db !! requestId = Some r →
  confirmAll db requestId (now :: times) =
    let rest := confirmAll (<[requestId := confirm now r]> db) requestId times in
    (rest.1,
     (if confirmable now r then Confirmed (confirm now r) else AlreadyClosed) :: rest.2).
Proof.
  intros Hdb. cbn [confirmAll]. rewrite (confirmDonation_found _ _ _ _ Hdb).
  destruct (confirmable now r) eqn:Hc.
  - by destruct (confirmAll _ requestId times).
  - assert (confirm now r = r) as -> by (unfold confirm; by rewrite Hc).
    rewrite insert_id by done. by destruct (confirmAll _ requestId times).
Qed.

Lemma confirmAll_app db requestId times1 times2 :
  (confirmAll db requestId (times1 ++ times2)).1
  = (confirmAll (confirmAll db requestId times1).1 requestId times2).1.
Proof.
  revert db. induction times1 as [|now times1 IH]; intros db; [done|].
  cbn [app confirmAll]. destruct (confirmDonation db now requestId) as [db1 answer].
  specialize (IH db1).
  destruct (confirmAll db1 requestId (times1 ++ times2)) as [db2 answers].
  destruct (confirmAll db1 requestId times1) as [db3 answers3].
  cbn [fst] in *. by rewrite IH.
Qed.

(** After any run: the request is still stored, has evolved, and has gained
    one unit for each call that reported success. *)
Lemma confirmAll_inv times db requestId r :
  db !! requestId = Some r →
  let result := confirmAll db requestId times in
  ∃ r', result.1 !! requestId = Some r'
    ∧ evolves r r'
    ∧ BloodRequest.confirmedUnits r'
      = BloodRequest.confirmedUnits r + Z.of_nat (successes result.2).
Proof.
  revert db r. induction times as [|now times IH]; intros db r Hdb result.
  { exists r. subst result. cbn. split; [done|]. split; [apply evolves_refl|lia]. }
  subst result. rewrite (confirmAll_cons _ _ _ _ _ Hdb). cbn zeta. cbn [fst snd].
  destruct (IH (<[requestId := confirm now r]> db) (confirm now r)
              (lookup_insert_eq _ _ _)) as (r' & Hr' & Hev & Hunits).
  exists r'. split; [done|]. split.
  - eapply evolves_trans; [apply confirm_evolves|done].
  - rewrite Hunits, confirm_units. unfold successes.
    destruct (confirmable now r); cbn [List.filter success length]; lia.
Qed.

(** While the deadline is ahead, every call succeeds until the quantity is
    reached. *)
Lemma confirmAll_open times db requestId r :
  db !! requestId = Some r →
  BloodRequest.status r = active
  ∨ BloodRequest.confirmedUnits r = BloodRequest.quantity r →
  BloodRequest.confirmedUnits r <= BloodRequest.quantity r →
  Forall (λ now, now <= BloodRequest.requiredBy r) times →
  ∃ r', (confirmAll db requestId times).1 !! requestId = Some r'
    ∧ BloodRequest.confirmedUnits r'
      = Z.min (BloodRequest.confirmedUnits r + Z.of_nat (length times))
              (BloodRequest.quantity r).
Proof.
  revert db r. induction times as [|now times IH]; intros db r Hdb Hst Hle Htimes.
  { exists r. cbn. split; [done|lia]. }
  apply Forall_cons in Htimes as [Hnow Htimes].
  rewrite (confirmAll_cons _ _ _ _ _ Hdb). cbn zeta. cbn [fst].
  pose proof (confirm_evolves now r) as (Hq & Hd & _).
  pose proof (confirm_units now r) as Hunits.
  destruct (IH (<[requestId := confirm now r]> db) (confirm now r)) as (r' & Hr' & Hmin).
  - apply lookup_insert_eq.
  - rewrite Hq, Hunits. unfold confirm.
    destruct (confirmable now r) eqn:Hc.
    + apply confirmable_true in Hc as (? & ? & ?). cbn.
      destruct (Z.leb_spec (BloodRequest.quantity r) (BloodRequest.confirmedUnits r + 1));
        [right; lia|by left].
    + destruct Hst as [Hact|?]; [|right; lia].
      destruct (Z.lt_ge_cases (BloodRequest.confirmedUnits r) (BloodRequest.quantity r));
        [|right; lia].
      assert (confirmable now r = true) by by apply confirmable_true.
      congruence.
  - rewrite Hq, Hunits. destruct (confirmable now r) eqn:Hc; [|lia].
    apply confirmable_true in Hc. lia.
  - by rewrite Hd.
  - exists r'. split; [done|]. rewrite Hmin, Hq, Hunits.
    destruct (confirmable now r) eqn:Hc; cbn [length]; [lia|].
    assert (BloodRequest.confirmedUnits r = BloodRequest.quantity r) as Heq; [|lia].
    destruct Hst as [Hact|?]; [|done].
    destruct (Z.lt_ge_cases (BloodRequest.confirmedUnits r) (BloodRequest.quantity r));
      [|lia].
    assert (confirmable now r = true) by by apply confirmable_true. congruence.
Qed.

(** C2, as the code has it.  A request for [Q] units with none confirmed
    yet, and any sequence of [confirmDonation] calls on it.  After every call
    the confirmed units lie between 0 and [Q], equal the number of calls that
    reported success so far and are not below what they were after any
    earlier call; at most [Q] calls report success.  When the request is
    active and no call comes after its deadline, the units confirmed at the
    end, and the successful calls, are [min N Q]. *)
Theorem no_overbooking (db : Store) (requestId : ObjectId)
    (request : BloodRequest.t) (times : list Time) :
  db !! requestId = Some request →
  BloodRequest.confirmedUnits request = 0 →
  0 <= BloodRequest.quantity request →
  let Q := BloodRequest.quantity request in
  let N := Z.of_nat (length times) in
  let after (n : nat) := confirmAll db requestId (take n times) in
  (∀ n, ∃ r,
     (after n).1 !! requestId = Some r
     ∧ BloodRequest.quantity r = Q
     ∧ 0 <= BloodRequest.confirmedUnits r <= Q
     ∧ BloodRequest.confirmedUnits r = Z.of_nat (successes (after n).2)
     ∧ ∀ m, (m ≤ n)%nat →
         ∃ r0, (after m).1 !! requestId = Some r0
           ∧ BloodRequest.confirmedUnits r0 <= BloodRequest.confirmedUnits r)
  ∧ Z.of_nat (successes (confirmAll db requestId times).2) <= Q
  ∧ (BloodRequest.status request = active →
     Forall (λ now, now <= BloodRequest.requiredBy request) times →
     ∃ r, (confirmAll db requestId times).1 !! requestId = Some r
       ∧ BloodRequest.confirmedUnits r = Z.min N Q
       ∧ Z.of_nat (successes (confirmAll db requestId times).2) = Z.min N Q).
Proof.
  intros Hdb Hzero HQ Q N after.
  assert (∀ l, ∃ r, (confirmAll db requestId l).1 !! requestId = Some r
            ∧ evolves request r
            ∧ BloodRequest.confirmedUnits r
              = Z.of_nat (successes (confirmAll db requestId l).2)) as Hinv.
  { intros l. destruct (confirmAll_inv l db requestId request Hdb) as (r & Hr & Hev & Hu).
    exists r. split; [done|]. split; [done|]. lia. }
  split; [|split].
  - intros n. destruct (Hinv (take n times)) as (r & Hr & Hev & Hu).
    pose proof Hev as (Hq & _ & _ & _ & Hmono & Hbound & _).
    exists r. split; [done|]. split; [done|]. split; [fold Q in Hbound; lia|].
    split; [done|]. intros m Hm.
    destruct (Hinv (take m times)) as (r0 & Hr0 & _ & _).
    exists r0. split; [done|].
    assert (take n times = take m times ++ drop m (take n times)) as Hsplit.
    { rewrite <- (take_drop m (take n times)) at 1.
      by rewrite take_take, Nat.min_l. }
    subst after. cbn beta in Hr. rewrite Hsplit, confirmAll_app in Hr.
    destruct (confirmAll_inv (drop m (take n times)) _ requestId r0 Hr0)
      as (r1 & Hr1 & (_ & _ & _ & _ & Hle & _) & _).
    cbn zeta in Hr1. rewrite Hr in Hr1. injection Hr1 as <-. done.
  - destruct (Hinv times) as (r & Hr & (_ & _ & _ & _ & _ & Hbound & _) & Hu).
    rewrite <- Hu. fold Q in Hbound. lia.
  - intros Hact Htimes.
    destruct (confirmAll_open times db requestId request Hdb) as (r & Hr & Hmin);
      [by left|lia|done|].
    destruct (Hinv times) as (r1 & Hr1 & _ & Hu).
    assert (r1 = r) as -> by congruence.
    exists r. split; [done|]. rewrite <- Hu, Hmin, Hzero. fold Q N.
    split; f_equal; lia.
Qed.

(** C2, as stated, fails once the deadline has passed: two calls on the
    sample request (three units needed, none confirmed, status active) one
    and two milliseconds after [requiredBy] are both refused, and the
    confirmed units stay 0, not [min 2 3]. *)
Lemma no_overbooking_counterexample :
  let db : gmap nat BloodRequest.t := {[ 0%nat := sampleRequest active ]} in
  let times := [20000000001; 20000000002] in
  BloodRequest.status (sampleRequest active) = active
  ∧ BloodRequest.quantity (sampleRequest active) = 3
  ∧ BloodRequest.confirmedUnits (sampleRequest active) = 0
  ∧ BloodRequest.requiredBy (sampleRequest active) = 20000000000
  ∧ (confirmAll db 0%nat times).2 = [AlreadyClosed; AlreadyClosed]
  ∧ (confirmAll db 0%nat times).1 !! 0%nat = Some (sampleRequest active)
  ∧ Z.min (Z.of_nat (length times)) 3 = 2.
Proof. cbv zeta. repeat split; by vm_compute. Qed.

(** *** Confirmations that interleave *)

(** The handler of [confirmDonation] is its two steps, one after the other. *)
Lemma confirmDonation_steps (db : Store) now requestId :
  let first := handler_step requestId db (Waiting now) in
  let second := handler_step requestId first.1 first.2 in
  (confirmDonation db now requestId).1 = second.1
  ∧ Answered (success (confirmDonation db now requestId).2) = second.2.
Proof.
  unfold confirmDonation. cbn [handler_step].
  destruct (findOneAndUpdate_inc db now requestId) as [db' [updated|]]; [|done].
  by destruct (_ <=? _).
Qed.

Lemma handler_step_found (db : Store) requestId r h :
  db !! requestId = Some r →
  handler_step requestId db h
  = (<[requestId := (handler_request r h).1]> db, (handler_request r h).2).
Proof.
  intros Hdb. destruct h as [now| |ok]; cbn.
  - unfold findOneAndUpdate_inc. rewrite Hdb.
    destruct (confirmable now r); cbn.
    + by destruct (_ <=? _).
    + by rewrite insert_id.
  - unfold save_status. by rewrite <- (insert_as_alter _ _ _ _ Hdb).
  - by rewrite insert_id.
Qed.

Lemma count_insert {A} (p : A → bool) (l : list A) i x y :
  l !! i = Some x →
  (length (List.filter p (<[i := y]> l)) + (if p x then 1 else 0)
   = length (List.filter p l) + (if p y then 1 else 0))%nat.
Proof.
  revert i. induction l as [|z l IH]; intros [|i] Hi; try done.
  - injection Hi as ->. cbn. destruct (p x), (p y); cbn; lia.
  - specialize (IH i Hi).
    change (<[S i := y]> (z :: l)) with (z :: <[i := y]> l).
    cbn [List.filter]. destruct (p z), (p x), (p y); cbn [length] in *; lia.
Qed.

Lemma handler_request_inv Q r hs i h :
  hs !! i = Some h →
  confirm_inv Q r hs →
  confirm_inv Q (handler_request r h).1 (<[i := (handler_request r h).2]> hs).
Proof.
  intros Hi (Hq & Hbound & Hcount). unfold confirm_inv.
  pose proof (count_insert incremented hs i h (handler_request r h).2 Hi) as Hc.
  destruct h as [now| |ok]; cbn in *.
  - destruct (confirmable now r) eqn:Hopen; cbn in *.
    + apply confirmable_true in Hopen as (_ & Hlt & _).
      split; [done|]. destruct (_ <=? _); cbn in Hc; lia.
    + split; [done|]. lia.
  - split; [done|]. lia.
  - split; [done|]. destruct ok; cbn in Hc; lia.
Qed.

Lemma lookup_insert_handler (hs : list Handler) i (h' x : Handler) (P : Prop) :
  (h' = x → P) →
  (∀ j, hs !! j = Some x → P) →
  ∀ j, <[i := h']> hs !! j = Some x → P.
Proof.
  intros Hnew Hold j Hj.
  apply list_lookup_insert_Some in Hj as [(_ & ? & _)|[_ ?]]; eauto.
Qed.

Lemma handler_request_open Q D r hs i h :
  hs !! i = Some h →
  confirm_inv Q r hs →
  open_inv Q D r hs →
  open_inv Q D (handler_request r h).1 (<[i := (handler_request r h).2]> hs).
Proof.
  intros Hi (Hq & Hbound & _) (Hd & Hst & Hwait & Hsave & Hrefused).
  assert (∀ h' r',
            (∀ now, h' ≠ Waiting now) →
            BloodRequest.requiredBy r' = D →
            BloodRequest.confirmedUnits r' = Q →
            open_inv Q D r' (<[i := h']> hs)) as Hkeep.
  { intros h' r' Hw Hd' Hfull. unfold open_inv.
    split; [done|]. split; [by right|]. split; [|by split].
    intros j now. revert j. apply lookup_insert_handler; [|eauto].
    intros ->. by destruct (Hw now). }
  destruct h as [now| |ok]; cbn [handler_request fst snd].
  - pose proof (Hwait i now Hi) as Hnow.
    destruct (confirmable now r) eqn:Hopen; cbn [fst snd].
    + apply confirmable_true in Hopen as (Hact & Hlt & _). cbn.
      destruct (Z.leb_spec (BloodRequest.quantity r) (BloodRequest.confirmedUnits r + 1)).
      * apply Hkeep; cbn; [done|done|lia].
      * assert (∀ j, hs !! j ≠ Some Saving) as Hno1.
        { intros j Hj. specialize (Hsave j Hj). lia. }
        assert (∀ j, hs !! j ≠ Some (Answered false)) as Hno2.
        { intros j Hj. specialize (Hrefused j Hj). lia. }
        unfold open_inv. cbn. split; [done|]. split; [by left|]. split; [|split].
        -- intros j now'. revert j. apply lookup_insert_handler; [done|eauto].
        -- apply lookup_insert_handler; [done|]. intros j Hj. by destruct (Hno1 j).
        -- apply lookup_insert_handler; [done|]. intros j Hj. by destruct (Hno2 j).
    + assert (BloodRequest.confirmedUnits r = Q) as Hfull.
      { destruct Hst as [Hact|?]; [|done].
        destruct (Z.lt_ge_cases (BloodRequest.confirmedUnits r) (BloodRequest.quantity r));
          [|lia].
        assert (confirmable now r = true)
          by (apply confirmable_true; split; [done|split; [done|lia]]).
        congruence. }
      by apply Hkeep.
  - pose proof (Hsave i Hi) as Hfull. by apply Hkeep.
  - rewrite list_insert_id by done. unfold open_inv. eauto 10.
Qed.

Lemma interleave_inv Q schedule : ∀ (db : Store) requestId r hs,
  db !! requestId = Some r →
  confirm_inv Q r hs →
  ∃ r', (interleave requestId db hs schedule).1 !! requestId = Some r'
    ∧ confirm_inv Q r' (interleave requestId db hs schedule).2
    ∧ length (interleave requestId db hs schedule).2 = length hs
    ∧ ∀ D, open_inv Q D r hs →
           open_inv Q D r' (interleave requestId db hs schedule).2.
Proof.
  induction schedule as [|i schedule IH]; intros db requestId r hs Hdb Hinv.
  { exists r. by cbn. }
  cbn [interleave]. destruct (hs !! i) as [h|] eqn:Hi; [|by apply IH].
  rewrite (handler_step_found _ _ _ _ Hdb).
  destruct (IH (<[requestId := (handler_request r h).1]> db) requestId
              (handler_request r h).1 (<[i := (handler_request r h).2]> hs))
    as (r' & Hr' & Hinv' & Hlen & Hopen').
  - apply lookup_insert_eq.
  - by apply handler_request_inv.
  - exists r'. split; [done|]. split; [done|]. split.
    + by rewrite Hlen, length_insert.
    + intros D Hopen. apply Hopen'. by apply handler_request_open.
Qed.

Lemma answered_split (hs : list Handler) :
  forallb answered hs = true →
  (length (List.filter incremented hs) + length (List.filter refused hs))%nat
  = length hs.
Proof.
  induction hs as [|h hs IH]; [done|]. cbn [forallb]. intros [Hh Hhs]%andb_prop.
  specialize (IH Hhs). destruct h as [| |[]]; cbn in *; try done; lia.
Qed.

Lemma refused_lookup (hs : list Handler) :
  (0 < length (List.filter refused hs))%nat → ∃ i, hs !! i = Some (Answered false).
Proof.
  induction hs as [|h hs IH]; cbn; [lia|].
  destruct h as [| |[]]; cbn; try (intros [i Hi]%IH; by exists (S i)).
  intros _. by exists 0%nat.
Qed.

(** X2. No overbooking, whatever the interleaving.  [N] handlers start on a
    request for [Q] units with none confirmed and take their steps in any
    order: the confirmed units never exceed [Q] and equal the number of
    handlers whose increment went through; and if the request was active, no
    handler took its time after the deadline and all have answered, [min N Q]
    units are confirmed and as many handlers report success. *)
Theorem no_overbooking_interleaved (db : Store) (requestId : ObjectId)
    (request : BloodRequest.t) (times : list Time) (schedule : list nat) :
  db !! requestId = Some request →
  BloodRequest.confirmedUnits request = 0 →
  0 <= BloodRequest.quantity request →
  let Q := BloodRequest.quantity request in
  let N := Z.of_nat (length times) in
  let result := interleave requestId db (Waiting <$> times) schedule in
  ∃ r, result.1 !! requestId = Some r
    ∧ 0 <= BloodRequest.confirmedUnits r <= Q
    ∧ BloodRequest.confirmedUnits r
      = Z.of_nat (length (List.filter incremented result.2))
    ∧ (BloodRequest.status request = active →
       Forall (λ now, now <= BloodRequest.requiredBy request) times →
       forallb answered result.2 = true →
       BloodRequest.confirmedUnits r = Z.min N Q).
Proof.
  intros Hdb Hzero HQ Q N result.
  assert (length (List.filter incremented (Waiting <$> times)) = 0%nat) as Hnone.
  { clear. induction times; [done|]. by cbn. }
  destruct (interleave_inv Q schedule db requestId request (Waiting <$> times) Hdb)
    as (r & Hr & (Hq & Hbound & Hcount) & Hlen & Hopen).
  { unfold confirm_inv. rewrite Hnone, Hzero. repeat split; try done; lia. }
  fold result in Hr, Hcount, Hlen, Hopen.
  exists r. split; [done|]. split; [done|]. split; [done|].
  intros Hact Htimes Hall.
  destruct (Hopen (BloodRequest.requiredBy request)) as (_ & _ & _ & _ & Hrefused).
  { unfold open_inv. split; [done|]. split; [by left|]. split; [|split].
    - intros i now [t [[= ->] Ht]]%list_lookup_fmap_Some.
      rewrite Forall_lookup in Htimes. by eapply Htimes.
    - intros i [t [? _]]%list_lookup_fmap_Some. done.
    - intros i [t [? _]]%list_lookup_fmap_Some. done. }
  pose proof (answered_split _ Hall) as Hsplit.
  rewrite Hlen, length_fmap in Hsplit.
  destruct (decide (length (List.filter refused result.2) = 0%nat)) as [Hzero'|Hpos].
  - lia.
  - destruct (refused_lookup result.2) as [i Hi]; [lia|].
    specialize (Hrefused i Hi). lia.
Qed.

(** ** Terminal states *)

Lemma getBloodRequestById_closed (db : Store) now id request :
  db !! id = Some request →
  terminal (BloodRequest.status request) = true →
  getBloodRequestById db now id = (db, Closed).
Proof.
  intros Hdb Hterm. unfold getBloodRequestById. rewrite Hdb.
  assert (Status_eqb (BloodRequest.status request) active = false) as Hne
    by by destruct (BloodRequest.status request).
  rewrite Hne. cbn beta iota zeta. by rewrite Hne.
Qed.

Lemma confirmDonation_closed (db : Store) now requestId request :
  db !! requestId = Some request →
  terminal (BloodRequest.status request) = true →
  confirmDonation db now requestId = (db, AlreadyClosed).
Proof.
  intros Hdb Hterm. rewrite (confirmDonation_found _ _ _ _ Hdb).
  unfold confirmable. by destruct (BloodRequest.status request).
Qed.


(** ** The queue and the notified list *)

Lemma filter_sublist {A} (f : A → bool) (l : list A) : List.filter f l `sublist_of` l.
Proof.
  induction l as [|x l IH]; cbn; [constructor|].
  destruct (f x); by constructor.
Qed.

Lemma donorIds_NoDup localeCompare String_toUpperCase LocalTZA now bloodGroup allDonors :
  NoDup (Donor._id <$> allDonors) →
  NoDup (donorIds localeCompare String_toUpperCase LocalTZA now bloodGroup allDonors).
Proof.
  intros Hnd. unfold donorIds, matchingDonors.
  change (map Donor._id ?l) with (Donor._id <$> l).
  rewrite js_sort_perm.
  eapply sublist_NoDup; [exact Hnd|]. apply fmap_sublist, filter_sublist.
Qed.

Lemma donorIds_length localeCompare String_toUpperCase LocalTZA now bloodGroup allDonors :
  (length (donorIds localeCompare String_toUpperCase LocalTZA now bloodGroup allDonors)
   ≤ length allDonors)%nat.
Proof.
  unfold donorIds, matchingDonors. rewrite length_map.
  rewrite (Permutation_length (js_sort_perm _ _)).
  apply sublist_length, filter_sublist.
Qed.

(** [createBloodRequest] of the revision under [controllers/]: the document
    starts pending, and its [save()] passes exactly when the body's blood
    group is one of the schema's eight and its quantity is at least one. *)
Lemma V1_createBloodRequest_eq localeCompare String_toUpperCase LocalTZA
    (db : Store) allDonors now hospital body :
  V1.createBloodRequest localeCompare String_toUpperCase LocalTZA
    db allDonors now hospital body
  = if bool_decide (body_bloodGroup body ∈ Schema.bloodGroup_enum)
       && (1 <=? body_quantity body)
    then (<[fresh (dom db) :=
              V1.newBloodRequest hospital body
                (donorIds localeCompare String_toUpperCase LocalTZA now
                   (body_bloodGroup body) allDonors)]> db,
          Created (fresh (dom db)) (Some V1.created))
    else (db, ServerError (Some "Failed to create blood request"%string)).
Proof. done. Qed.


(** ** The status vocabulary *)

(** C3, at the schema.  [models/BloodRequest.js] admits the statuses pending,
    fulfilled and cancelled and defaults to pending: it rejects the active
    and expired that the controller with [confirmDonation] stores, and the
    controller under [controllers/], which passes no status, creates
    requests that are pending, a status outside the four of the
    specification; the other controller creates them active. *)
Theorem schema_status_vocabulary :
  Schema.status_enum = [pending; fulfilled; cancelled]
  ∧ Schema.status_default = pending
  ∧ Schema.status_valid active = false
  ∧ Schema.status_valid expired = false
  ∧ bool_decide (pending ∈ spec_statuses) = false
  ∧ BloodRequest.status (V1.newBloodRequest 77 sampleBody [5; 6; 1]%nat) = pending
  ∧ BloodRequest.status (newBloodRequest 77 sampleBody [5; 6; 1]%nat) = active.
Proof. by repeat split. Qed.

(** ** The scheduler *)

Lemma windowClosed_minutes now request sentTime :
  windowClosed now request sentTime = true ↔
    num_or (BloodRequest.responseWindow request) 2 * 60000 <= now - sentTime.
Proof.
  unfold windowClosed, elapsedMinutes.
  rewrite Qle_bool_iff. unfold Qle, inject_Z. cbn [Qnum Qden].
  change (Z.pos (60 * 1000)) with 60000. lia.
Qed.

(** X18. Which requests a tick takes up, and what it does to them: a
    stored request is due exactly when it is pending, in progress, under its
    quantity, has a [batchSentAt] and its response window (2 minutes if the
    field is 0) has passed; a due request has [batchInProgress] cleared and
    is handed to [sendNextBatch]; any other is left as stored. *)
Lemma checkPendingBatches_due (db : Store) allDonors now sentAt k request :
  db !! k = Some request →
  let tick := checkPendingBatches sendNextBatch true db allDonors now sentAt in
  (due now request = true ↔
     BloodRequest.status request = pending
     ∧ BloodRequest.batchInProgress request = true
     ∧ BloodRequest.confirmedUnits request < BloodRequest.quantity request
     ∧ ∃ sentTime, BloodRequest.batchSentAt request = Some sentTime
         ∧ num_or (BloodRequest.responseWindow request) 2 * 60000 <= now - sentTime)
  ∧ (due now request = true →
     tick_db tick !! k
       = (sendNextBatch
            (<[k := BloodRequest.set_batchInProgress false request]> db)
            allDonors (sentAt k) k).1
         !! k
     ∧ k ∈ tick_advanced tick)
  ∧ (due now request = false →
     tick_db tick !! k = Some request ∧ k ∉ tick_advanced tick).
Proof.
  intros Hdb tick. subst tick.
  destruct (checkPendingBatches_lookup true db allDonors now sentAt k) as [Hlookup Hadv].
  cbn zeta in Hlookup, Hadv. rewrite Hdb in Hlookup.
  cbn [fmap option_fmap option_map] in Hlookup.
  split; [|split].
  - unfold due, scanned, windowOver, Status_eqb.
    rewrite !andb_true_iff, bool_decide_eq_true, Z.ltb_lt.
    destruct (BloodRequest.batchSentAt request) as [sentTime|].
    + rewrite windowClosed_minutes. split.
      * intros [[[? ?] ?] ?]. repeat split; try done. by exists sentTime.
      * intros (? & ? & ? & s & [= <-] & ?). done.
    + split; [by intros [_ ?]|]. by intros (_ & _ & _ & s & ? & _).
  - intros Hdue. split.
    + rewrite Hlookup, sendNextBatch_alter, lookup_alter_eq, lookup_insert_eq.
      unfold advance, advance_by. by rewrite Hdue.
    + apply Hadv. split; [done|]. by exists request.
  - intros Hdue. split.
    + rewrite Hlookup. unfold advance, advance_by. by rewrite Hdue.
    + rewrite Hadv. intros [_ (r & Hr & Hd)]. congruence.
Qed.

(** C5, at the scan.  The request that [createBloodRequest] and the first
    [sendNextBatch] leave behind is active, in progress and under quota;
    three minutes later its window of two minutes is over, and the tick
    neither clears [batchInProgress] nor calls [sendNextBatch], because it
    looks for the status pending.  The same request with status pending is
    advanced to donor 6, at the time that [sendNextBatch] reads. *)
Theorem scheduler_scans_pending (sentAt : ObjectId → Time) :
  let now := 1000 + 3 * 60000 in
  let db (status : Status) : gmap nat BloodRequest.t := {[ 0%nat := sampleSent status ]} in
  let tick (status : Status) :=
    checkPendingBatches sendNextBatch true (db status) sampleDirectory now sentAt in
  BloodRequest.status (sampleSent active) = active
  ∧ BloodRequest.batchInProgress (sampleSent active) = true
  ∧ (BloodRequest.confirmedUnits (sampleSent active)
     <? BloodRequest.quantity (sampleSent active)) = true
  ∧ windowOver now (sampleSent active) = true
  ∧ tick_db (tick active) = db active
  ∧ tick_advanced (tick active) = []
  ∧ tick_sms (tick active) = []
  ∧ tick_db (tick pending) !! 0%nat
    = Some (BloodRequest.set_batch [1]%nat [5; 6]%nat (sentAt 0%nat)
              (sampleRequest pending))
  ∧ tick_advanced (tick pending) = [0%nat].
Proof. cbv zeta. repeat split; by vm_compute. Qed.

(** A request that is not pending is out of the scheduler's reach. *)
Lemma checkPendingBatches_not_pending dbReady (db : Store) allDonors now sentAt
    k request :
  db !! k = Some request →
  BloodRequest.status request ≠ pending →
  let tick := checkPendingBatches sendNextBatch dbReady db allDonors now sentAt in
  tick_db tick !! k = Some request ∧ k ∉ tick_advanced tick.
Proof.
  intros Hdb Hst.
  apply (checkPendingBatches_not_due _ _ sendNextBatch_alter); [done|].
  unfold due, scanned. by destruct (BloodRequest.status request).
Qed.

Lemma advance_unsent now sentAt request :
  BloodRequest.batchSentAt request = None → advance now sentAt request = request.
Proof.
  intros Hsent. unfold advance, advance_by, due, windowOver.
  by rewrite Hsent, andb_false_r.
Qed.

(** C10. A request that the scan of the scheduler matches and whose
    [batchSentAt] is unset: a tick leaves it as it is and does not call
    [sendNextBatch] on it, whichever revision of [sendNextBatch] the server
    imports, and so do any number of ticks. *)
Theorem scheduler_skips_unsent (localeCompare : string → string → Z)
    (String_toUpperCase : string → string) (LocalTZA : Time → bool → Z)
    (dbReady : bool) (db : Store)
    (allDonors : list Donor.t) (now : Time) (sentAt : ObjectId → Time) (k : ObjectId)
    (request : BloodRequest.t) (ticks : list (Time * Op)) :
  db !! k = Some request →
  scanned request = true →
  BloodRequest.batchSentAt request = None →
  forallb is_tick ticks = true →
  let tick := checkPendingBatches sendNextBatch dbReady db allDonors now sentAt in
  let tick1 := checkPendingBatches V1.sendNextBatch dbReady db allDonors now sentAt in
  tick_db tick !! k = Some request
  ∧ (k ∉ tick_advanced tick)
  ∧ tick_db tick1 !! k = Some request
  ∧ (k ∉ tick_advanced tick1)
  ∧ run localeCompare String_toUpperCase LocalTZA db ticks !! k = Some request.
Proof.
  intros Hdb Hscan Hsent Hticks tick tick1.
  assert (due now request = false) as Hdue.
  { unfold due, windowOver. by rewrite Hsent, andb_false_r. }
  destruct (checkPendingBatches_not_due _ _ sendNextBatch_alter
              dbReady db allDonors now sentAt k request Hdb Hdue) as [Hlookup Hadv].
  destruct (checkPendingBatches_not_due _ _ V1_sendNextBatch_alter
              dbReady db allDonors now sentAt k request Hdb Hdue) as [Hlookup1 Hadv1].
  split; [done|split; [done|split; [done|split; [done|]]]].
  rewrite (run_lookup _ _ _ _ _ _ _ Hdb). f_equal.
    induction ticks as [|[t op] ticks IH]; [done|].
    cbn [forallb] in Hticks. apply andb_prop in Hticks as [Hop Hticks].
    cbn [foldl]. destruct op; try done. unfold step_request. cbn [fst snd].
    destruct dbReady0; rewrite ?advance_unsent by done; by apply IH.
Qed.

(** * Concrete instances

    Each theorem above that has hypotheses, applied to the sample data. *)

Lemma sample_lookup (r : BloodRequest.t) :
  ({[ 0%nat := r ]} : gmap nat BloodRequest.t) !! 0%nat = Some r.
Proof. apply lookup_singleton_eq. Qed.

(** C1 on the sample request, one unit short of its quantity, at a time
    before the deadline: the call increments and fulfils. *)
Lemma confirmDonation_conditional_increment_witness :
  let request := BloodRequest.set_confirmedUnits 2 (sampleRequest active) in
  let db : gmap nat BloodRequest.t := {[ 0%nat := request ]} in
  let now := 5000 in
  db !! 0%nat = Some request
  ∧ confirmDonation db now 0%nat
    = (<[0%nat := BloodRequest.set_status fulfilled
                    (BloodRequest.set_confirmedUnits 3 request)]> db,
       Confirmed (BloodRequest.set_status fulfilled
                    (BloodRequest.set_confirmedUnits 3 request))).
Proof.
  cbv zeta. split; [apply sample_lookup|].
  destruct (confirmDonation_conditional_increment
              {[ 0%nat := BloodRequest.set_confirmedUnits 2 (sampleRequest active) ]}
              5000 0%nat (BloodRequest.set_confirmedUnits 2 (sampleRequest active))
              (sample_lookup _)) as (_ & _ & Hopen & _).
  destruct Hopen as (request' & Hanswer & Hrequest' & _);
    [cbn; repeat split; try reflexivity; lia|].
  rewrite Hanswer, Hrequest'. reflexivity.
Defined.

(** C2 on the sample request: four calls for three units. *)
Lemma no_overbooking_witness :
  let db : gmap nat BloodRequest.t := {[ 0%nat := sampleRequest active ]} in
  let times := [1; 2; 3; 4] in
  (db !! 0%nat = Some (sampleRequest active)
   ∧ BloodRequest.confirmedUnits (sampleRequest active) = 0
   ∧ 0 <= BloodRequest.quantity (sampleRequest active)
   ∧ BloodRequest.status (sampleRequest active) = active
   ∧ Forall (λ now, now <= BloodRequest.requiredBy (sampleRequest active)) times)
  ∧ Z.of_nat (successes (confirmAll db 0%nat times).2) <= 3
  ∧ ∃ r, (confirmAll db 0%nat times).1 !! 0%nat = Some r
      ∧ BloodRequest.confirmedUnits r = Z.min 4 3
      ∧ Z.of_nat (successes (confirmAll db 0%nat times).2) = Z.min 4 3.
Proof.
  cbv zeta.
  assert (Forall (λ now, now <= BloodRequest.requiredBy (sampleRequest active))
            [1; 2; 3; 4]) as Htimes.
  { repeat constructor; cbn; lia. }
  split.
  - split; [apply sample_lookup|]. split; [reflexivity|]. split; [cbn; lia|].
    split; [reflexivity|exact Htimes].
  - destruct (no_overbooking {[ 0%nat := sampleRequest active ]} 0%nat
                (sampleRequest active) [1; 2; 3; 4] (sample_lookup _) eq_refl)
      as (_ & Hsucc & Hmin).
    + cbn. lia.
    + split; [exact Hsucc|]. exact (Hmin eq_refl Htimes).
Defined.

(** C4 on the sample request, pending: the two calls move donors 5 and 6. *)
Lemma sendNextBatch_twice_witness :
  let db : gmap nat BloodRequest.t := {[ 0%nat := sampleRequest pending ]} in
  let first := sendNextBatch db sampleDirectory 1000 0%nat in
  let second := sendNextBatch first.1 sampleDirectory 1001 0%nat in
  (db !! 0%nat = Some (sampleRequest pending)
   ∧ 0 <= BloodRequest.batchSize (sampleRequest pending)
   ∧ BloodRequest.status (sampleRequest pending) = pending)
  ∧ (∃ request2, second.1 !! 0%nat = Some request2
       ∧ BloodRequest.notifiedDonors request2 = [] ++ take (1 + 1) [5; 6; 1]%nat
       ∧ BloodRequest.remainingDonorsQueue request2 = drop (1 + 1) [5; 6; 1]%nat)
  ∧ (second = (first.1, []) ↔ (length [5; 6; 1]%nat ≤ 1)%nat).
Proof.
  cbv zeta. split.
  - split; [apply sample_lookup|]. split; [cbn; lia|reflexivity].
  - apply (sendNextBatch_twice {[ 0%nat := sampleRequest pending ]} sampleDirectory
             1000 1001 0%nat (sampleRequest pending) (sample_lookup _));
      [cbn; lia|reflexivity].
Defined.

(** The sample directory on 26 April 1970, in UTC: donors 1, 2, 5 and 6 are
    selected (donor 3 is of another group, donor 4 gave blood eleven days
    before), and the date three months ago is 26 January, ninety days
    back. *)
Example matchingDonors_sample :
  donorIds codeUnitCompare toUpperCase utc 10000000000 "O+" sampleDirectory
  = [5; 6; 2; 1]%nat
  ∧ threeMonthsAgo utc 10000000000 = 10000000000 - 90 * msPerDay.
Proof. split; by vm_compute. Qed.

(** Where the day of the month does not exist three months back, the date
    carries over: from noon of 31 May 2025 to noon of 3 March 2025, and in
    Indian Standard Time just the same. *)
Example threeMonthsAgo_overflow :
  threeMonthsAgo utc 1748692800000 = 1741003200000
  ∧ threeMonthsAgo ist 1748692800000 = 1741003200000.
Proof. split; by vm_compute. Qed.

(** C6 on the sample directory, in UTC, names compared by code units. *)
Lemma eligibility_filter_witness :
  let now := 10000000000 in
  let LocalTZA := utc in
  let selected :=
    matchingDonors codeUnitCompare toUpperCase LocalTZA now "O+" sampleDirectory in
  let key := λ donor, default EmptyString (Donor.name donor) in
  (consistent codeUnitCompare
   ∧ (∀ s, isAscii s = true → toUpperCase s = toUpperCase s))
  ∧ (∀ donor, donor ∈ selected ↔
       donor ∈ sampleDirectory
       ∧ (if truthy (js_or (Donor.bloodGroup donor) (Donor.Blood_Group donor))
          then toUpperCase
                 (removeWhiteSpace
                    (default EmptyString
                       (js_or (Donor.bloodGroup donor) (Donor.Blood_Group donor))))
          else EmptyString)
         = toUpperCase (removeWhiteSpace "O+")
       ∧ (Donor.lastDonationDate donor = None
          ∨ ∃ lastDonation, Donor.lastDonationDate donor = Some lastDonation
                            ∧ lastDonation <= threeMonthsAgo LocalTZA now))
  ∧ (∀ s, isAscii s = true →
          normalize toUpperCase s = toUpperCase (strip_spaces s))
  ∧ (∀ a w s, isAscii a = true → w ∈ whiteSpace →
              normalize toUpperCase (a +:+ w +:+ s)
              = normalize toUpperCase (a +:+ s))
  ∧ (∃ days, 89 <= days <= 92
             ∧ let local := now + LocalTZA now true - days * msPerDay in
               threeMonthsAgo LocalTZA now = local - LocalTZA local false)
  ∧ (∀ offset, (∀ t isUTC, LocalTZA t isUTC = offset) →
       ∃ days, 89 <= days <= 92
               ∧ threeMonthsAgo LocalTZA now = now - days * msPerDay)
  ∧ donorIds codeUnitCompare toUpperCase LocalTZA now "O+" sampleDirectory
    = map Donor._id selected
  ∧ StronglySorted (λ a b, codeUnitCompare (key a) (key b) <= 0) selected
  ∧ (∀ a,
       let tie := λ b, (codeUnitCompare (key a) (key b) <=? 0)
                       && (codeUnitCompare (key b) (key a) <=? 0) in
       List.filter tie selected
       = List.filter tie
           (List.filter (matching toUpperCase LocalTZA now "O+") sampleDirectory)).
Proof.
  cbv zeta. split; [split; [exact codeUnitCompare_consistent|done]|].
  exact (eligibility_filter codeUnitCompare toUpperCase utc 10000000000 "O+"
           sampleDirectory codeUnitCompare_consistent (λ s _, eq_refl)).
Defined.

(** C6, as stated, fails on the order.  Two donors known by ["Student Name"]
    only, Zed stored before Amy: both sort keys are the empty string, the
    sort leaves them as they are stored, and Zed is queued before Amy, under
    every comparator that takes the empty string as equal to itself. *)
Lemma eligibility_filter_counterexample :
  let zed := Donor.mk 1 None (Some "Zed"%string) (Some "O+"%string) None None
               (Some "5550100"%string) None None in
  let amy := Donor.mk 2 None (Some "Amy"%string) (Some "O+"%string) None None
               (Some "5550100"%string) None None in
  donorName sampleHex zed = "Zed"%string
  ∧ donorName sampleHex amy = "Amy"%string
  ∧ codeUnitCompare "Amy" "Zed" < 0
  ∧ donorIds codeUnitCompare toUpperCase utc 10000000000 "O+" [zed; amy]
    = [1; 2]%nat
  ∧ (∀ localeCompare : string → string → Z,
       localeCompare EmptyString EmptyString <= 0 →
       donorIds localeCompare toUpperCase utc 10000000000 "O+" [zed; amy]
       = [1; 2]%nat).
Proof.
  cbv zeta. repeat split; try by vm_compute.
  intros localeCompare Hc. unfold donorIds, matchingDonors.
  cbn [List.filter matching Donor.lastDonationDate].
  change (String.eqb (normalizedDonor toUpperCase _) (normalize toUpperCase "O+"))
    with true at 1.
  change (String.eqb (normalizedDonor toUpperCase _) (normalize toUpperCase "O+"))
    with true.
  cbn [js_sort insert_sorted]. unfold byName at 1. cbn [Donor.name js_or truthy default from_option].
  unfold id. by rewrite (proj2 (Z.leb_le _ _) Hc).
Qed.

(** C7 on an expired request with donors still queued. *)
Lemma sendNextBatch_noop_witness :
  let db : gmap nat BloodRequest.t := {[ 0%nat := sampleRequest expired ]} in
  (db !! 0%nat = None
   ∨ ∃ request, db !! 0%nat = Some request
       ∧ (BloodRequest.status request ∈ [fulfilled; cancelled; expired]
          ∨ BloodRequest.remainingDonorsQueue request = []))
  ∧ sendNextBatch db sampleDirectory 1000 0%nat = (db, [])
  ∧ V1.sendNextBatch db sampleDirectory 1000 0%nat = (db, []).
Proof.
  cbv zeta.
  assert (({[ 0%nat := sampleRequest expired ]} : gmap nat BloodRequest.t) !! 0%nat = None
          ∨ ∃ request,
              ({[ 0%nat := sampleRequest expired ]} : gmap nat BloodRequest.t) !! 0%nat
              = Some request
              ∧ (BloodRequest.status request ∈ [fulfilled; cancelled; expired]
                 ∨ BloodRequest.remainingDonorsQueue request = [])) as Hguard.
  { right. exists (sampleRequest expired). split; [apply sample_lookup|].
    left. apply elem_of_cons. right. apply elem_of_cons. right.
    apply elem_of_cons. by left. }
  split; [exact Hguard|].
  exact (sendNextBatch_noop {[ 0%nat := sampleRequest expired ]}
           sampleDirectory 1000 0%nat Hguard).
Defined.



(** C10 on a pending request marked in progress that has no [batchSentAt]. *)
Lemma scheduler_skips_unsent_witness :
  let request :=
    BloodRequest.set_batchInProgress true (sampleRequest pending) in
  let db : gmap nat BloodRequest.t := {[ 0%nat := request ]} in
  let ticks := [ (60000, OpTick true sampleDirectory (clockAt 60007));
                 (120000, OpTick true sampleDirectory (clockAt 120007)) ] in
  let tick :=
    checkPendingBatches sendNextBatch true db sampleDirectory 60000 (clockAt 60007) in
  let tick1 :=
    checkPendingBatches V1.sendNextBatch true db sampleDirectory 60000 (clockAt 60007) in
  (db !! 0%nat = Some request
   ∧ scanned request = true
   ∧ BloodRequest.batchSentAt request = None
   ∧ forallb is_tick ticks = true)
  ∧ tick_db tick !! 0%nat = Some request
  ∧ (0%nat ∉ tick_advanced tick)
  ∧ tick_db tick1 !! 0%nat = Some request
  ∧ (0%nat ∉ tick_advanced tick1)
  ∧ run codeUnitCompare toUpperCase utc db ticks !! 0%nat = Some request.
Proof.
  cbv zeta.
  split; [split; [apply sample_lookup|split; [|split]; reflexivity]|].
  exact (scheduler_skips_unsent codeUnitCompare toUpperCase utc true
           {[ 0%nat := BloodRequest.set_batchInProgress true (sampleRequest pending) ]}
           sampleDirectory 60000 (clockAt 60007) 0%nat
           (BloodRequest.set_batchInProgress true (sampleRequest pending))
           [ (60000, OpTick true sampleDirectory (clockAt 60007));
             (120000, OpTick true sampleDirectory (clockAt 120007)) ]
           (sample_lookup _) eq_refl eq_refl eq_refl).
Defined.

(** * Further properties of the engine *)

Ltac list_mem :=
  repeat first [apply list_elem_of_here | apply list_elem_of_further].

(** ** The public read *)

(** X1. The read of a stored request changes an active request that is full
    to fulfilled and answers "closed".  On an active request that is not
    full but past its deadline it assigns expired, the [save()] throws on
    the enum of the schema, nothing is stored and the answer is the error
    500: the read never stores the status expired.  A request that is not
    active is answered "closed".  The read answers with the document, and
    writes nothing, exactly when a confirmation at that instant would be
    accepted. *)
Theorem getBloodRequestById_lifecycle (db : Store) (now : Time) (id : ObjectId)
    (request : BloodRequest.t) :
  db !! id = Some request →
  let full := BloodRequest.quantity request <= BloodRequest.confirmedUnits request in
  let late := BloodRequest.requiredBy request < now in
  let answer := getBloodRequestById db now id in
  (BloodRequest.status request = active → full →
   answer = (<[id := BloodRequest.set_status fulfilled request]> db, Closed))
  ∧ (BloodRequest.status request = active → ¬ full → late →
     answer = (db, ServerError None)
     ∧ http_status answer.2 = 500 ∧ success answer.2 = false)
  ∧ (BloodRequest.status request ≠ active → answer = (db, Closed))
  ∧ (confirmable now request = true ↔ answer = (db, Data request))
  ∧ (answer.1 = db
     ∨ answer.1 = <[id := BloodRequest.set_status fulfilled request]> db).
Proof.
  intros Hdb full late answer. subst answer full late.
  unfold getBloodRequestById. rewrite Hdb. unfold assign_status. cbv zeta.
  change (validate_loaded (BloodRequest.set_status fulfilled request)) with true.
  change (validate_loaded (BloodRequest.set_status expired request)) with false.
  assert (∀ s, save_status s id db = <[id := BloodRequest.set_status s request]> db)
    as Hsave.
  { intros s. unfold save_status. symmetry. by apply insert_as_alter. }
  unfold confirmable.
  destruct (decide (BloodRequest.status request = active)) as [Hst|Hst].
  2:{ assert (Status_eqb (BloodRequest.status request) active = false) as Hne
        by by apply bool_decide_eq_false.
      rewrite Hne. cbn beta iota zeta. rewrite Hne. cbn.
      split; [done|]. split; [done|]. split; [done|]. split; [|by left].
      split; [done|]. intros Heq. congruence. }
  rewrite Hst. change (Status_eqb active active) with true. cbn match.
  destruct (Z.leb_spec (BloodRequest.quantity request)
              (BloodRequest.confirmedUnits request)) as [Hfull|Hfull].
  { cbn. rewrite Hsave. split; [done|]. split; [lia|].
    split; [intros Hne; by destruct Hne|].
    split; [|by right].
    replace (BloodRequest.confirmedUnits request <? BloodRequest.quantity request)
      with false by (symmetry; apply Z.ltb_ge; lia).
    split; [done|]. intros Heq.
    change (Status_eqb fulfilled active) with false in Heq. cbn in Heq.
    congruence. }
  destruct (Z.ltb_spec (BloodRequest.requiredBy request) now) as [Hlate|Hlate].
  { cbn. split; [lia|]. split; [done|].
    split; [intros Hne; by destruct Hne|]. split; [|by left].
    replace (now <=? BloodRequest.requiredBy request)
      with false by (symmetry; apply Z.leb_gt; lia).
    rewrite andb_false_r. split; [done|]. intros Heq. congruence. }
  cbn. rewrite Hst. change (Status_eqb active active) with true. cbn.
  split; [lia|]. split; [lia|]. split; [intros Hne; by destruct Hne|].
  split; [|by left].
  replace (BloodRequest.confirmedUnits request <? BloodRequest.quantity request)
    with true by (symmetry; apply Z.ltb_lt; lia).
  replace (now <=? BloodRequest.requiredBy request)
    with true by (symmetry; apply Z.leb_le; lia).
  done.
Qed.

(** ** Documents of the collection *)

Section Documents.

Variable localeCompare : string → string → Z.
Variable String_toUpperCase : string → string.
Variable LocalTZA : Time → bool → Z.

Lemma step_dom (db : gmap nat BloodRequest.t) event :
  dom (step localeCompare String_toUpperCase LocalTZA db event) = dom db.
Proof.
  destruct event as [now op]. unfold step. cbn [fst snd].
  destruct op as [allDonors hospital body|allDonors requestId|id|requestId
                  |dbReady allDonors sentAt].
  - by rewrite createBloodRequest_rejected.
  - rewrite sendNextBatch_alter. by rewrite dom_alter_L.
  - rewrite getBloodRequestById_alter. by rewrite dom_alter_L.
  - rewrite confirmDonation_alter. by rewrite dom_alter_L.
  - apply set_eq. intros k. rewrite !elem_of_dom.
    destruct (checkPendingBatches_lookup dbReady db allDonors now sentAt k) as [-> _].
    by rewrite fmap_is_Some.
Qed.

Lemma run_dom (events : list (Time * Op)) (db : gmap nat BloodRequest.t) :
  dom (run localeCompare String_toUpperCase LocalTZA db events) = dom db.
Proof.
  revert db. induction events as [|event events IH]; intros db; [done|].
  change (run localeCompare String_toUpperCase LocalTZA db (event :: events))
    with (run localeCompare String_toUpperCase LocalTZA
            (step localeCompare String_toUpperCase LocalTZA db event) events).
  by rewrite IH, step_dom.
Qed.

End Documents.

(** X3. The handlers never delete a document.  [createBloodRequest] of the
    revision with [confirmDonation] never adds one either: the document it
    builds has the status ['active'], its [save()] throws and the handler
    answers 500, so that after any sequence of events the collection holds
    the ids it held.  [createBloodRequest] of the revision under
    [controllers/] adds one document, under an id that no document had, when
    the blood group of the body is one of the schema's eight and the
    quantity is at least 1, and answers 500 and stores nothing otherwise.  A
    handler called for one id leaves the document of every other id as it
    is. *)
Theorem run_documents (localeCompare : string → string → Z)
    (String_toUpperCase : string → string) (LocalTZA : Time → bool → Z)
    (db : Store) (events : list (Time * Op)) :
  dom (run localeCompare String_toUpperCase LocalTZA db events) = dom db
  ∧ (∀ allDonors now hospital body,
       createBloodRequest localeCompare String_toUpperCase LocalTZA
         db allDonors now hospital body
       = (db, ServerError None))
  ∧ (∀ allDonors now hospital body,
       let created :=
         V1.createBloodRequest localeCompare String_toUpperCase LocalTZA
           db allDonors now hospital body in
       (body_bloodGroup body ∈ Schema.bloodGroup_enum ∧ 1 <= body_quantity body →
        ∃ id, created.2 = Created id (Some V1.created)
          ∧ db !! id = None
          ∧ dom created.1 = {[ id ]} ∪ dom db
          ∧ (∀ k request, db !! k = Some request → created.1 !! k = Some request))
       ∧ (¬ (body_bloodGroup body ∈ Schema.bloodGroup_enum ∧ 1 <= body_quantity body) →
          created = (db, ServerError (Some "Failed to create blood request"%string))
          ∧ http_status created.2 = 500))
  ∧ (∀ allDonors now id k, k ≠ id →
       (sendNextBatch db allDonors now id).1 !! k = db !! k
       ∧ (V1.sendNextBatch db allDonors now id).1 !! k = db !! k
       ∧ (getBloodRequestById db now id).1 !! k = db !! k
       ∧ (confirmDonation db now id).1 !! k = db !! k).
Proof.
  split; [apply run_dom|]. split; [done|]. split.
  - intros allDonors now hospital body created. subst created.
    rewrite V1_createBloodRequest_eq. split.
    + intros [Hgroup Hquantity].
      rewrite bool_decide_eq_true_2 by done.
      replace (1 <=? body_quantity body) with true by (symmetry; by apply Z.leb_le).
      cbn [andb]. cbn match. exists (fresh (dom db)). cbn [fst snd].
      assert (db !! fresh (dom db) = None) as Hfresh
        by apply not_elem_of_dom, is_fresh.
      split; [done|]. split; [done|]. split; [by rewrite dom_insert_L|].
      intros k request Hk. rewrite lookup_insert_ne; [done|]. congruence.
    + intros Hbody.
      destruct (bool_decide (body_bloodGroup body ∈ Schema.bloodGroup_enum)) eqn:Hgroup;
        [|done].
      apply bool_decide_eq_true in Hgroup.
      destruct (Z.leb_spec 1 (body_quantity body)); [|done].
      destruct Hbody. done.
  - intros allDonors now id k Hk.
    rewrite sendNextBatch_alter, V1_sendNextBatch_alter,
      getBloodRequestById_alter, confirmDonation_alter.
    by rewrite !lookup_alter_ne.
Qed.

(** ** The two revisions of [sendNextBatch] *)


(** ** Who is messaged *)

Lemma truthy_Some (o : option string) :
  truthy o = true ↔ ∃ s, o = Some s ∧ s ≠ EmptyString.
Proof.
  destruct o as [s|]; cbn.
  - rewrite negb_true_iff, String.eqb_neq. split.
    + intros Hs. by exists s.
    + by intros (? & [= <-] & Hs).
  - split; [done|]. by intros (? & [=] & _).
Qed.

Lemma elem_of_batchSms allDonors nextBatchIds id phone :
  (id, phone) ∈ batchSms allDonors nextBatchIds ↔
    id ∈ nextBatchIds ∧ phone ≠ EmptyString
    ∧ ∃ donor, donor ∈ allDonors ∧ Donor._id donor = id
               ∧ donorPhone donor = Some phone.
Proof.
  unfold batchSms. rewrite list_elem_of_omap. split.
  - intros (donor & Hin & Hsome).
    apply list_elem_of_In, filter_In in Hin as [Hin Hid].
    apply list_elem_of_In in Hin. apply bool_decide_eq_true in Hid.
    destruct (truthy (donorPhone donor)) eqn:Hphone; [|done].
    apply truthy_Some in Hphone as (s & Hs & Hne).
    rewrite Hs in Hsome. cbn in Hsome. injection Hsome as <- <-.
    split; [done|]. split; [done|]. by exists donor.
  - intros (Hid & Hne & donor & Hin & <- & Hphone). exists donor. split.
    + apply list_elem_of_In, filter_In. split; [by apply list_elem_of_In|].
      by apply bool_decide_eq_true.
    + assert (truthy (donorPhone donor) = true) as ->
        by (apply truthy_Some; by exists phone).
      by rewrite Hphone.
Qed.

Lemma batchSms_sublist allDonors nextBatchIds :
  (batchSms allDonors nextBatchIds).*1 `sublist_of` Donor._id <$> allDonors.
Proof.
  unfold batchSms. induction allDonors as [|donor allDonors IH]; [done|].
  cbn [List.filter].
  destruct (bool_decide (Donor._id donor ∈ nextBatchIds)).
  - cbn [omap list_omap fmap list_fmap].
    destruct (truthy (donorPhone donor)); cbn.
    + by apply sublist_skip.
    + by apply sublist_cons.
  - cbn. by apply sublist_cons.
Qed.

Lemma slice_to_elem_of {A} (l : list A) (k : Z) x : x ∈ slice_to l k → x ∈ l.
Proof.
  intros Hx. rewrite <- (slice_partition l k). apply elem_of_app. by left.
Qed.


(** ** Calling [sendNextBatch] again and again *)

Lemma dispatch_queue now request :
  0 <= BloodRequest.batchSize request →
  BloodRequest.status request = pending →
  let b := Z.to_nat (num_or (BloodRequest.batchSize request) 1) in
  let queue := BloodRequest.remainingDonorsQueue request in
  BloodRequest.notifiedDonors (dispatch now request)
  = BloodRequest.notifiedDonors request ++ take b queue
  ∧ BloodRequest.remainingDonorsQueue (dispatch now request) = drop b queue
  ∧ BloodRequest.status (dispatch now request) = BloodRequest.status request
  ∧ BloodRequest.batchSize (dispatch now request) = BloodRequest.batchSize request.
Proof.
  intros Hsize Hst b queue. rewrite (dispatch_pending _ _ Hst).
  case_bool_decide as Hq.
  - subst queue. by rewrite Hq, take_nil, drop_nil, app_nil_r.
  - cbn. pose proof (num_or_pos _ Hsize).
    rewrite slice_to_nonneg, slice_from_nonneg by lia. done.
Qed.

Lemma dispatch_repeated (times : list Time) : ∀ request,
  0 <= BloodRequest.batchSize request →
  BloodRequest.status request = pending →
  let b := Z.to_nat (num_or (BloodRequest.batchSize request) 1) in
  let queue := BloodRequest.remainingDonorsQueue request in
  let request' := foldl (λ r now, dispatch now r) request times in
  BloodRequest.notifiedDonors request'
  = BloodRequest.notifiedDonors request ++ take (length times * b) queue
  ∧ BloodRequest.remainingDonorsQueue request' = drop (length times * b) queue
  ∧ BloodRequest.status request' = BloodRequest.status request.
Proof.
  induction times as [|now times IH]; intros request Hsize Hst b queue.
  - cbn. by rewrite take_0, app_nil_r.
  - cbn [foldl length].
    destruct (dispatch_queue now request Hsize Hst) as (Hn & Hq & Hs & Hb).
    fold b queue in Hn, Hq.
    destruct (IH (dispatch now request)) as (Hn' & Hq' & Hs').
    { by rewrite Hb. } { by rewrite Hs. }
    rewrite Hb in Hn', Hq'. fold b in Hn', Hq'.
    rewrite Hn', Hq', Hs', Hn, Hq, Hs.
    rewrite <- app_assoc, take_take_drop, drop_drop.
    by replace (S (length times) * b)%nat with (b + length times * b)%nat by lia.
Qed.

Lemma foldl_sendNextBatch_lookup (times : list Time) : ∀ (db : Store) allDonors requestId,
  foldl (λ db now, (sendNextBatch db allDonors now requestId).1) db times !! requestId
  = (λ r, foldl (λ r now, dispatch now r) r times) <$> db !! requestId.
Proof.
  induction times as [|now times IH]; intros db allDonors requestId.
  - cbn. by destruct (db !! requestId).
  - cbn [foldl]. rewrite IH, sendNextBatch_alter, lookup_alter_eq.
    by destruct (db !! requestId).
Qed.

(** X6. [sendNextBatch] called [n] times in a row on a stored pending
    request, with batch size [b], has moved the first [n * b] ids of the
    queue to the end of the notified list, in order, and left the status
    alone; once [n * b] covers the queue, the queue is empty and every further
    call changes nothing and sends nothing. *)
Theorem sendNextBatch_repeated (db : Store) (allDonors : list Donor.t)
    (requestId : ObjectId) (request : BloodRequest.t) (times : list Time) :
  db !! requestId = Some request →
  0 <= BloodRequest.batchSize request →
  BloodRequest.status request = pending →
  let b := Z.to_nat (num_or (BloodRequest.batchSize request) 1) in
  let queue := BloodRequest.remainingDonorsQueue request in
  let n := length times in
  let db' := foldl (λ db now, (sendNextBatch db allDonors now requestId).1) db times in
  ∃ request',
    db' !! requestId = Some request'
    ∧ BloodRequest.notifiedDonors request'
      = BloodRequest.notifiedDonors request ++ take (n * b) queue
    ∧ BloodRequest.remainingDonorsQueue request' = drop (n * b) queue
    ∧ BloodRequest.status request' = pending
    ∧ ((length queue ≤ n * b)%nat →
       BloodRequest.notifiedDonors request'
       = BloodRequest.notifiedDonors request ++ queue
       ∧ BloodRequest.remainingDonorsQueue request' = []
       ∧ ∀ now, sendNextBatch db' allDonors now requestId = (db', [])).
Proof.
  intros Hdb Hsize Hst b queue n db'.
  destruct (dispatch_repeated times request Hsize Hst) as (Hn & Hq & Hs).
  fold b queue n in Hn, Hq. rewrite Hst in Hs.
  exists (foldl (λ r now, dispatch now r) request times).
  assert (db' !! requestId = Some (foldl (λ r now, dispatch now r) request times))
    as Hdb'.
  { subst db'. by rewrite foldl_sendNextBatch_lookup, Hdb. }
  split; [done|]. split; [done|]. split; [done|]. split; [done|].
  intros Hcover. rewrite Hn, Hq, take_ge, drop_ge by done.
  split; [done|]. split; [done|]. intros now.
  apply sendNextBatch_noop_at. right. eexists. split; [exact Hdb'|].
  right. rewrite Hq. by apply drop_ge.
Qed.

(** ** What a run can and cannot change *)

(** The status of a request changes in one way only: from active to
    fulfilled. *)
Lemma step_request_status event k r :
  BloodRequest.status (step_request event k r) = BloodRequest.status r
  ∨ (BloodRequest.status r = active
     ∧ BloodRequest.status (step_request event k r) = fulfilled).
Proof.
  assert (∀ now r, BloodRequest.status (dispatch now r) = BloodRequest.status r)
    as Hdispatch.
  { intros now r0. unfold dispatch. cbv zeta.
    destruct (_ || _); [done|]. by destruct (validate_loaded _). }
  unfold step_request.
  destruct event as [now [allDonors hospital body|allDonors requestId|id|requestId
                           |dbReady allDonors sentAt]]; cbn [fst snd].
  - by left.
  - destruct (decide (requestId = k)); left; [apply Hdispatch|done].
  - destruct (decide (id = k)); [|by left]. unfold lifecycle, stored_status.
    destruct (Status_eqb (BloodRequest.status r) active) eqn:Hact; [|by left].
    apply bool_decide_eq_true in Hact.
    destruct (BloodRequest.quantity r <=? BloodRequest.confirmedUnits r).
    + right. by split.
    + destruct (BloodRequest.requiredBy r <? now); by left.
  - destruct (decide (requestId = k)); [|by left]. unfold confirm.
    destruct (confirmable now r) eqn:Hc; [|by left].
    apply confirmable_true in Hc as (Hact & _).
    destruct (_ <=? _); [right; by split|by left].
  - destruct dbReady; [|by left]. unfold advance, advance_by.
    destruct (due now r); [|by left]. left. by rewrite Hdispatch.
Qed.

Lemma foldl_step_request_status events k r :
  let r' := foldl (λ r event, step_request event k r) r events in
  BloodRequest.status r' = BloodRequest.status r
  ∨ (BloodRequest.status r = active ∧ BloodRequest.status r' = fulfilled).
Proof.
  revert r. induction events as [|event events IH]; intros r; [by left|].
  cbn [foldl]. cbv zeta.
  destruct (IH (step_request event k r)) as [Hsame|[Hact Hful]],
      (step_request_status event k r) as [Hstep|[Hact' Hful']].
  - left. congruence.
  - right. split; [done|]. congruence.
  - right. split; congruence.
  - congruence.
Qed.

(** X7. Between any two points of a run of the engine, a stored request
    keeps its quantity, deadline and batch size; its confirmed units do not
    decrease; donors are only ever appended to the notified list and taken
    from the front of the queue; and the status either stays or goes from
    active to fulfilled: no run stores expired. *)
Theorem run_monotone (localeCompare : string → string → Z)
    (String_toUpperCase : string → string) (LocalTZA : Time → bool → Z) (db : Store)
    (events1 events2 : list (Time * Op)) (k : ObjectId) (request : BloodRequest.t) :
  db !! k = Some request →
  ∃ r1 r2,
    run localeCompare String_toUpperCase LocalTZA db events1 !! k = Some r1
    ∧ run localeCompare String_toUpperCase LocalTZA db (events1 ++ events2) !! k = Some r2
    ∧ BloodRequest.quantity r2 = BloodRequest.quantity r1
    ∧ BloodRequest.requiredBy r2 = BloodRequest.requiredBy r1
    ∧ BloodRequest.batchSize r2 = BloodRequest.batchSize r1
    ∧ BloodRequest.confirmedUnits r1 <= BloodRequest.confirmedUnits r2
    ∧ BloodRequest.notifiedDonors r1 `prefix_of` BloodRequest.notifiedDonors r2
    ∧ BloodRequest.remainingDonorsQueue r2 `suffix_of` BloodRequest.remainingDonorsQueue r1
    ∧ (BloodRequest.status r2 = BloodRequest.status r1
       ∨ (BloodRequest.status r1 = active ∧ BloodRequest.status r2 = fulfilled)).
Proof.
  intros Hdb.
  destruct (run_evolves localeCompare String_toUpperCase LocalTZA db events1 k request Hdb)
    as (r1 & Hr1 & _).
  pose proof (run_lookup localeCompare String_toUpperCase LocalTZA _ events2 k r1 Hr1)
    as Hr2.
  pose proof (foldl_step_request_evolves events2 k r1)
    as (Hq & Hd & Hb & _ & Hu & _ & Hpart & Hpre).
  pose proof (foldl_step_request_status events2 k r1) as Hs. cbv zeta in Hs.
  exists r1, (foldl (λ r event, step_request event k r) r1 events2).
  split; [done|]. split.
  { unfold run in *. by rewrite foldl_app. }
  repeat (split; [done|]). split; [|done].
  destruct Hpre as [batch Hbatch]. exists batch.
  rewrite Hbatch, <- app_assoc in Hpart. by apply app_inv_head in Hpart.
Qed.

(** The state of an active request under its quantity, between handler
    runs. *)
Lemma step_request_settled event k r :
  (0 <= BloodRequest.confirmedUnits r <= BloodRequest.quantity r
   ∧ (BloodRequest.status r = fulfilled ↔
      BloodRequest.confirmedUnits r = BloodRequest.quantity r)
   ∧ BloodRequest.status r ∈ [active; fulfilled]) →
  let r' := step_request event k r in
  0 <= BloodRequest.confirmedUnits r' <= BloodRequest.quantity r'
  ∧ (BloodRequest.status r' = fulfilled ↔
     BloodRequest.confirmedUnits r' = BloodRequest.quantity r')
  ∧ BloodRequest.status r' ∈ [active; fulfilled].
Proof.
  intros (Hu & Hf & Hs) r'. subst r'.
  assert (∀ now r0, BloodRequest.status r0 ≠ pending → dispatch now r0 = r0)
    as Hdispatch by (intros; by apply dispatch_not_pending).
  assert (BloodRequest.status r ≠ pending) as Hne by (in_list Hs; congruence).
  unfold step_request.
  destruct event as [now [allDonors hospital body|allDonors requestId|id|requestId
                           |dbReady allDonors sentAt]]; cbn [fst snd] in *.
  - done.
  - destruct (decide (requestId = k)); [|done]. by rewrite Hdispatch.
  - destruct (decide (id = k)); [|done]. unfold lifecycle, stored_status.
    cbv zeta.
    change (validate_loaded (BloodRequest.set_status fulfilled r)) with true.
    change (validate_loaded (BloodRequest.set_status expired r)) with false.
    destruct (Status_eqb (BloodRequest.status r) active) eqn:Hact; [|done].
    apply bool_decide_eq_true in Hact.
    destruct (Z.leb_spec (BloodRequest.quantity r) (BloodRequest.confirmedUnits r)).
    + cbn. split; [done|]. split; [split; [lia|done]|]. list_mem.
    + destruct (Z.ltb_spec (BloodRequest.requiredBy r) now); done.
  - destruct (decide (requestId = k)); [|done]. unfold confirm.
    destruct (confirmable now r) eqn:Hc; [|done].
    apply confirmable_true in Hc as (Hact & Hlt & _). cbn.
    destruct (Z.leb_spec (BloodRequest.quantity r) (BloodRequest.confirmedUnits r + 1)).
    + cbn. split; [lia|]. split; [split; [lia|done]|]. list_mem.
    + cbn. rewrite Hact. split; [lia|]. split; [split; [done|lia]|]. list_mem.
  - destruct dbReady; [|done]. unfold advance, advance_by.
    assert (due now r = false) as ->; [|done].
    unfold due, scanned. by destruct (BloodRequest.status r).
Qed.

(** X8. A stored request that is active and under its quantity has, after
    any sequence of handler runs and scheduler ticks, its quantity as it
    was, between 0 and [quantity] confirmed units, and the status active or
    fulfilled (never expired, which no handler gets stored); it is fulfilled
    exactly when its confirmed units equal its quantity. *)
Theorem active_fulfilled_iff_full (localeCompare : string → string → Z)
    (String_toUpperCase : string → string) (LocalTZA : Time → bool → Z)
    (db : Store) (id : ObjectId) (request : BloodRequest.t)
    (events : list (Time * Op)) :
  db !! id = Some request →
  BloodRequest.status request = active →
  0 <= BloodRequest.confirmedUnits request < BloodRequest.quantity request →
  ∃ r,
    run localeCompare String_toUpperCase LocalTZA db events !! id = Some r
    ∧ BloodRequest.quantity r = BloodRequest.quantity request
    ∧ 0 <= BloodRequest.confirmedUnits r <= BloodRequest.quantity r
    ∧ (BloodRequest.status r = fulfilled ↔
       BloodRequest.confirmedUnits r = BloodRequest.quantity r)
    ∧ BloodRequest.status r ∈ [active; fulfilled].
Proof.
  intros Hdb Hst Hunits.
  eexists. split; [by apply run_lookup|].
  assert (0 <= BloodRequest.confirmedUnits request <= BloodRequest.quantity request
          ∧ (BloodRequest.status request = fulfilled ↔
             BloodRequest.confirmedUnits request = BloodRequest.quantity request)
          ∧ BloodRequest.status request ∈ [active; fulfilled]) as Hinv.
  { rewrite Hst. split; [lia|]. split; [split; [done|lia]|]. list_mem. }
  clear Hdb Hst Hunits. generalize (eq_refl (BloodRequest.quantity request)).
  generalize (BloodRequest.quantity request) at 2 3. intros Q HQ.
  revert request HQ Hinv.
  induction events as [|event events IH]; intros r0 HQ Hinv; [by split|].
  cbn [foldl]. apply IH.
  - destruct (step_request_evolves event id r0) as (-> & _). done.
  - by apply step_request_settled.
Qed.

(** ** A request that is not pending *)

Lemma step_request_not_pending event k r :
  BloodRequest.status r ≠ pending →
  let r' := step_request event k r in
  BloodRequest.status r' ≠ pending
  ∧ BloodRequest.notifiedDonors r' = BloodRequest.notifiedDonors r
  ∧ BloodRequest.remainingDonorsQueue r' = BloodRequest.remainingDonorsQueue r
  ∧ BloodRequest.batchSentAt r' = BloodRequest.batchSentAt r
  ∧ BloodRequest.batchInProgress r' = BloodRequest.batchInProgress r.
Proof.
  intros Hstatus r'. subst r'. unfold step_request.
  destruct event as [now [allDonors hospital body|allDonors requestId|id|requestId
                           |dbReady allDonors sentAt]]; cbn [fst snd] in *.
  - done.
  - destruct (decide (requestId = k)); [|done]. by rewrite dispatch_not_pending.
  - destruct (decide (id = k)); [|done]. unfold lifecycle, stored_status.
    destruct (Status_eqb (BloodRequest.status r) active); [|done].
    destruct (BloodRequest.quantity r <=? BloodRequest.confirmedUnits r); [done|].
    by destruct (BloodRequest.requiredBy r <? now).
  - destruct (decide (requestId = k)); [|done]. unfold confirm.
    destruct (confirmable now r) eqn:Hc; [|done].
    apply confirmable_true in Hc as (Hact & _). cbn.
    destruct (BloodRequest.quantity r <=? BloodRequest.confirmedUnits r + 1); cbn;
      [done|]. by rewrite Hact.
  - destruct dbReady; [|done]. unfold advance, advance_by.
    assert (due now r = false) as ->; [|done].
    unfold due, scanned. by destruct (BloodRequest.status r).
Qed.

(** X22. A stored request that is not pending (active, as the revision
    with [confirmDonation] writes it, or closed) is never sent a batch:
    whatever events follow, calls of [sendNextBatch] for this request and
    scheduler ticks among them, and whenever they happen, its notified list,
    its queue, [batchSentAt] and [batchInProgress] are as they were, and it
    does not become pending. *)
Theorem not_pending_never_dispatched (localeCompare : string → string → Z)
    (String_toUpperCase : string → string) (LocalTZA : Time → bool → Z)
    (db : Store) (id : ObjectId) (request : BloodRequest.t)
    (events : list (Time * Op)) :
  db !! id = Some request →
  BloodRequest.status request ≠ pending →
  ∃ r,
    run localeCompare String_toUpperCase LocalTZA db events !! id = Some r
    ∧ BloodRequest.status r ≠ pending
    ∧ BloodRequest.notifiedDonors r = BloodRequest.notifiedDonors request
    ∧ BloodRequest.remainingDonorsQueue r = BloodRequest.remainingDonorsQueue request
    ∧ BloodRequest.batchSentAt r = BloodRequest.batchSentAt request
    ∧ BloodRequest.batchInProgress r = BloodRequest.batchInProgress request.
Proof.
  intros Hdb Hst. eexists. split; [by apply run_lookup|].
  clear Hdb. revert request Hst.
  induction events as [|event events IH]; intros request Hst; [done|].
  destruct (step_request_not_pending event id request Hst) as (Hs' & Hn' & Hq' & Hb' & Hp').
  cbn [foldl]. destruct (IH _ Hs') as (? & -> & -> & -> & ->).
  by rewrite Hn', Hq', Hb', Hp'.
Qed.

(** ** The scheduler over several ticks *)

Lemma ticks_fixed (k : ObjectId) (request : BloodRequest.t) (ticks : list (Time * Op)) :
  (∀ now, due now request = false) →
  forallb is_tick ticks = true →
  foldl (λ r event, step_request event k r) request ticks = request.
Proof.
  intros Hdue. induction ticks as [|[t op] ticks IH]; [done|].
  cbn [forallb]. intros [Hop Hticks]%andb_prop.
  cbn [foldl]. destruct op; try done. unfold step_request. cbn [fst snd].
  destruct dbReady; [|by apply IH].
  unfold advance, advance_by. rewrite Hdue. by apply IH.
Qed.

Lemma due_pending now request :
  due now request = true →
  BloodRequest.status request = pending
  ∧ BloodRequest.batchInProgress request = true
  ∧ (BloodRequest.confirmedUnits request <? BloodRequest.quantity request) = true.
Proof.
  unfold due, scanned, Status_eqb.
  intros [[[Hs%bool_decide_eq_true Hb]%andb_prop Hu]%andb_prop _]%andb_prop. done.
Qed.

(** X9. When the window of a scanned request is over and its queue is
    empty, the tick clears [batchInProgress], calls [sendNextBatch] (which
    finds nothing to send) and changes nothing else; no later tick looks at
    the request again.  This holds with either revision of [sendNextBatch]. *)
Theorem scheduler_exhausted (localeCompare : string → string → Z)
    (String_toUpperCase : string → string) (LocalTZA : Time → bool → Z)
    (db : Store) (allDonors : list Donor.t)
    (now : Time) (sentAt : ObjectId → Time) (k : ObjectId) (request : BloodRequest.t)
    (ticks : list (Time * Op)) :
  db !! k = Some request →
  due now request = true →
  BloodRequest.remainingDonorsQueue request = [] →
  forallb is_tick ticks = true →
  let tick := checkPendingBatches sendNextBatch true db allDonors now sentAt in
  let tick1 := checkPendingBatches V1.sendNextBatch true db allDonors now sentAt in
  let stopped := BloodRequest.set_batchInProgress false request in
  tick_db tick !! k = Some stopped
  ∧ k ∈ tick_advanced tick
  ∧ tick_db tick1 !! k = Some stopped
  ∧ k ∈ tick_advanced tick1
  ∧ (∀ now', due now' stopped = false)
  ∧ run localeCompare String_toUpperCase LocalTZA (tick_db tick) ticks !! k = Some stopped.
Proof.
  intros Hdb Hdue Hq Hticks tick tick1 stopped.
  destruct (checkPendingBatches_lookup true db allDonors now sentAt k) as [Hlookup Hadv].
  destruct (V1_checkPendingBatches_lookup true db allDonors now sentAt k)
    as [Hlookup1 Hadv1].
  cbn zeta in Hlookup, Hadv, Hlookup1, Hadv1.
  fold tick in Hlookup, Hadv. fold tick1 in Hlookup1, Hadv1.
  rewrite Hdb in Hlookup, Hlookup1.
  cbn [fmap option_fmap option_map] in Hlookup, Hlookup1.
  unfold advance, advance_by in Hlookup, Hlookup1. rewrite Hdue in Hlookup, Hlookup1.
  assert (dispatch (sentAt k) stopped = stopped) as Hd.
  { unfold dispatch. subst stopped. cbn. rewrite Hq.
    rewrite bool_decide_eq_true_2 by done. by rewrite orb_true_r. }
  assert (V1.dispatch (sentAt k) stopped = stopped) as Hd1
    by by rewrite V1_dispatch_eq.
  fold stopped in Hlookup, Hlookup1. rewrite Hd in Hlookup. rewrite Hd1 in Hlookup1.
  assert (∀ now', due now' stopped = false) as Hstopped.
  { intros now'. unfold due, scanned. subst stopped. cbn.
    by rewrite andb_false_r. }
  split; [done|]. split. { apply Hadv. split; [done|]. by exists request. }
  split; [done|]. split. { apply Hadv1. split; [done|]. by exists request. }
  split; [done|].
  rewrite (run_lookup _ _ _ _ _ _ _ Hlookup). f_equal. by apply ticks_fixed.
Qed.

(** X10. When the window of a scanned request with donors queued is over,
    the tick moves the next batch, and [batchSentAt] is the time that the
    [sendNextBatch] called for the request reads, not the time of the tick;
    the request is then due again exactly when a full response window has
    passed since that stamp, and a tick before that leaves it alone. *)
Theorem scheduler_window (db : Store) (allDonors : list Donor.t)
    (now now' : Time) (sentAt sentAt' : ObjectId → Time)
    (k : ObjectId) (request : BloodRequest.t) :
  db !! k = Some request →
  due now request = true →
  BloodRequest.remainingDonorsQueue request ≠ [] →
  0 <= BloodRequest.batchSize request →
  let tick := checkPendingBatches sendNextBatch true db allDonors now sentAt in
  let b := Z.to_nat (num_or (BloodRequest.batchSize request) 1) in
  let queue := BloodRequest.remainingDonorsQueue request in
  let window := num_or (BloodRequest.responseWindow request) 2 in
  let request' :=
    BloodRequest.set_batch (drop b queue)
      (BloodRequest.notifiedDonors request ++ take b queue) (sentAt k) request in
  let tick' :=
    checkPendingBatches sendNextBatch true (tick_db tick) allDonors now' sentAt' in
  tick_db tick !! k = Some request'
  ∧ k ∈ tick_advanced tick
  ∧ (due now' request' = true ↔ window * 60000 <= now' - sentAt k)
  ∧ (now' - sentAt k < window * 60000 →
     tick_db tick' !! k = Some request' ∧ k ∉ tick_advanced tick').
Proof.
  intros Hdb Hdue Hq Hsize tick b queue window request' tick'.
  destruct (checkPendingBatches_lookup true db allDonors now sentAt k) as [Hlookup Hadv].
  cbn zeta in Hlookup, Hadv. fold tick in Hlookup, Hadv.
  rewrite Hdb in Hlookup. cbn [fmap option_fmap option_map] in Hlookup.
  unfold advance, advance_by in Hlookup. rewrite Hdue in Hlookup.
  destruct (due_pending _ _ Hdue) as (Hs & Hb & Hu).
  assert (dispatch (sentAt k) (BloodRequest.set_batchInProgress false request) = request')
    as Hd.
  { rewrite dispatch_pending by done. cbn.
    rewrite bool_decide_eq_false_2 by done.
    pose proof (num_or_pos _ Hsize).
    rewrite slice_to_nonneg, slice_from_nonneg by lia. done. }
  rewrite Hd in Hlookup.
  assert (due now' request' = true ↔ window * 60000 <= now' - sentAt k) as Hdue'.
  { unfold due, scanned, windowOver. subst request'. cbn.
    rewrite Hs, Hu. change (Status_eqb pending pending) with true. cbn [andb].
    apply windowClosed_minutes. }
  split; [done|]. split. { apply Hadv. split; [done|]. by exists request. }
  split; [done|]. intros Hearly.
  apply (checkPendingBatches_not_due _ _ sendNextBatch_alter); [done|].
  destruct (due now' request') eqn:Hd'; [|done].
  destruct Hdue' as [Hdue' _]. specialize (Hdue' eq_refl). lia.
Qed.

(** ** Creation and the first batch *)


(** ** The older revision and the scheduler *)

(** X19. For a body with one of the schema's blood groups and a quantity of
    at least 1, a request created by the older [createBloodRequest] starts
    pending, which is the status that the scheduler scans for.  After its
    first [sendNextBatch], which reads the time [t0], a tick at a time [t1]
    two minutes or more later takes it up: with a second eligible donor it
    moves that donor to the notified list, and [batchSentAt] is the time
    that the [sendNextBatch] of the tick reads; with one eligible donor it
    only clears [batchInProgress]; with none the request was never in
    progress and the tick leaves it alone. *)
Theorem V1_create_batch_tick (localeCompare : string → string → Z)
    (String_toUpperCase : string → string) (LocalTZA : Time → bool → Z)
    (db : Store)
    (allDonors allDonors' allDonors'' : list Donor.t) (now t0 t1 : Time)
    (sentAt : ObjectId → Time)
    (hospital : ObjectId) (body : RequestBody) :
  body_bloodGroup body ∈ Schema.bloodGroup_enum →
  1 <= body_quantity body →
  2 * 60000 <= t1 - t0 →
  let created :=
    V1.createBloodRequest localeCompare String_toUpperCase LocalTZA
      db allDonors now hospital body in
  let eligible :=
    donorIds localeCompare String_toUpperCase LocalTZA now (body_bloodGroup body) allDonors in
  let request := V1.newBloodRequest hospital body eligible in
  ∃ id,
    created.2 = Created id (Some V1.created)
    ∧ created.1 !! id = Some request
    ∧ BloodRequest.status request = pending
    ∧ let sent := V1.sendNextBatch created.1 allDonors' t0 id in
      let tick :=
        checkPendingBatches V1.sendNextBatch true sent.1 allDonors'' t1 sentAt in
      match eligible with
      | [] =>
          sent = (created.1, [])
          ∧ tick_db tick !! id = Some request
          ∧ id ∉ tick_advanced tick
      | [first] =>
          sent.1 !! id = Some (BloodRequest.set_batch [] [first] t0 request)
          ∧ id ∈ tick_advanced tick
          ∧ tick_db tick !! id
            = Some (BloodRequest.set_batchInProgress false
                      (BloodRequest.set_batch [] [first] t0 request))
      | first :: second :: rest =>
          sent.1 !! id
          = Some (BloodRequest.set_batch (second :: rest) [first] t0 request)
          ∧ id ∈ tick_advanced tick
          ∧ tick_db tick !! id
            = Some (BloodRequest.set_batch rest [first; second] (sentAt id) request)
      end.
Proof.
  intros Hgroup Hquantity Hwindow created eligible request. subst created.
  rewrite V1_createBloodRequest_eq.
  rewrite bool_decide_eq_true_2 by done.
  replace (1 <=? body_quantity body) with true by (symmetry; by apply Z.leb_le).
  cbn [andb]. cbn match. cbn [fst snd]. fold eligible. fold request.
  set (id := fresh (dom db)). set (db0 := <[id := request]> db).
  assert (db0 !! id = Some request) as Hdb0 by apply lookup_insert_eq.
  exists id. split; [done|]. split; [done|]. split; [done|]. cbv zeta.
  set (sent := V1.sendNextBatch db0 allDonors' t0 id).
  assert (sent.1 !! id = Some (V1.dispatch t0 request)) as Hsent.
  { subst sent. by rewrite V1_sendNextBatch_alter, lookup_alter_eq, Hdb0. }
  destruct (V1_checkPendingBatches_lookup true sent.1 allDonors'' t1 sentAt id)
    as [Hlookup Hadv].
  cbn zeta in Hlookup, Hadv. rewrite Hsent in Hlookup.
  cbn [fmap option_fmap option_map] in Hlookup.
  assert (∀ queue notified,
            due t1 (BloodRequest.set_batch queue notified t0 request) = true)
    as Hdue.
  { intros queue notified. unfold due, scanned, windowOver. cbn.
    change (Status_eqb Schema.status_default pending) with true. cbn [andb].
    apply andb_true_intro. split; [apply Z.ltb_lt; lia|].
    apply windowClosed_minutes. cbn. change (num_or 2 2) with 2. lia. }
  assert (BloodRequest.status request = pending) as Hst by done.
  destruct eligible as [|first [|second rest]] eqn:Heligible.
  - assert (V1.dispatch t0 request = request) as Hd by done.
    rewrite Hd in Hsent, Hlookup. split.
    { subst sent. rewrite V1_sendNextBatch_eq.
      apply sendNextBatch_noop_at. right. exists request. split; [done|]. by right. }
    assert (due t1 request = false) as Hnot by done.
    unfold advance_by in Hlookup. rewrite Hnot in Hlookup. split; [done|].
    rewrite Hadv. intros [_ (r & Hr & Hd')]. congruence.
  - assert (V1.dispatch t0 request = BloodRequest.set_batch [] [first] t0 request)
      as Hd by done.
    rewrite Hd in Hsent, Hlookup. split; [done|]. split.
    { apply Hadv. split; [done|]. eexists. split; [exact Hsent|apply Hdue]. }
    unfold advance_by in Hlookup. by rewrite Hdue in Hlookup.
  - assert (V1.dispatch t0 request
            = BloodRequest.set_batch (second :: rest) [first] t0 request)
      as Hd.
    { rewrite V1_dispatch_eq, dispatch_pending by done.
      subst request. cbn -[slice_to slice_from].
      change (num_or 1 1) with 1.
      by rewrite slice_to_nonneg, slice_from_nonneg by lia. }
    rewrite Hd in Hsent, Hlookup. split; [done|]. split.
    { apply Hadv. split; [done|]. eexists. split; [exact Hsent|apply Hdue]. }
    unfold advance_by in Hlookup. rewrite Hdue in Hlookup. rewrite Hlookup.
    f_equal. rewrite V1_dispatch_eq, dispatch_pending by done.
    cbn -[slice_to slice_from].
    change (num_or 1 1) with 1.
    by rewrite slice_to_nonneg, slice_from_nonneg by lia.
Qed.

(** ** The script of the three-month rule *)

(** X23. Once [Donor.create] has returned its three donors, the script
    [test_3month_rule.js] prints TEST PASSED exactly when the date it computed for the recent donor (a month before its first
    clock reading) is later than its cut-off (three months before its third
    reading) and the date of the eligible donor (four months before its
    second reading) is not; the donor without a date is always allowed.  In
    a zone without daylight saving it passes whenever its three readings
    are in order and less than 58 days apart, whatever the day it is run on:
    one month is at most 31 days, three months are 89 to 92 and four months
    at least 120. *)
Theorem runTest_passes (LocalTZA : Time → bool → Z) (offset : Z) (t1 t2 t3 : Time) :
  (Test3MonthRule.runTest LocalTZA t1 t2 t3 = true ↔
     Test3MonthRule.monthsAgo LocalTZA 3 t3 < Test3MonthRule.monthsAgo LocalTZA 1 t1
     ∧ Test3MonthRule.monthsAgo LocalTZA 4 t2 <= Test3MonthRule.monthsAgo LocalTZA 3 t3)
  ∧ (t1 <= t2 <= t3 → t3 - t1 < 58 * msPerDay →
     Test3MonthRule.runTest (fixedZone offset) t1 t2 t3 = true).
Proof.
  assert (∀ zone,
            Test3MonthRule.runTest zone t1 t2 t3 = true ↔
              Test3MonthRule.monthsAgo zone 3 t3 < Test3MonthRule.monthsAgo zone 1 t1
              ∧ Test3MonthRule.monthsAgo zone 4 t2 <= Test3MonthRule.monthsAgo zone 3 t3)
    as Hiff.
  { intros zone.
    unfold Test3MonthRule.runTest, Test3MonthRule.testDonors, Test3MonthRule.allowed.
    cbv zeta.
    cbn [List.filter Test3MonthRule.lastDonationDate].
    destruct (Z.ltb_spec (Test3MonthRule.monthsAgo zone 3 t3)
                (Test3MonthRule.monthsAgo zone 1 t1)) as [Hrecent|Hrecent],
        (Z.ltb_spec (Test3MonthRule.monthsAgo zone 3 t3)
           (Test3MonthRule.monthsAgo zone 4 t2)) as [Heligible|Heligible];
      cbn; split; try done; try lia. }
  split; [apply Hiff|]. intros Horder Hnear. apply Hiff.
  pose proof (monthsAgo_fixedZone offset t1) as (H1 & _ & _).
  pose proof (monthsAgo_fixedZone offset t2) as (_ & _ & H4).
  pose proof (monthsAgo_fixedZone offset t3) as (_ & H3 & _).
  cbv zeta in H1, H3, H4. unfold msPerDay in *. lia.
Qed.

(** The script run on 31 May 2025 at noon, UTC, with readings 2 s apart:
    the recent donor is dated 1 May, the eligible one 31 January, the cut-off
    is 3 March, and the test passes.  With readings 58 days apart, 1 April
    and 29 May 2025, the recent donor is dated 1 March, the cut-off is
    1 March too (28 February does not reach 29), and the test fails. *)
Example runTest_sample :
  Test3MonthRule.monthsAgo utc 1 1748692800000 = 1746100800000
  ∧ Test3MonthRule.monthsAgo utc 4 1748692802000 = 1738324802000
  ∧ Test3MonthRule.monthsAgo utc 3 1748692804000 = 1741003204000
  ∧ Test3MonthRule.runTest utc 1748692800000 1748692802000 1748692804000 = true
  ∧ Test3MonthRule.runTest utc 1743508800000 1743508800000 1748520000000 = false.
Proof. repeat split; by vm_compute. Qed.

(** * The text of the messages *)

(** ** Strings *)

Lemma append_cons c (s t : string) : String c s +:+ t = String c (s +:+ t).
Proof. reflexivity. Qed.

Lemma append_nil_l (s : string) : EmptyString +:+ s = s.
Proof. reflexivity. Qed.

Lemma append_nil_r (s : string) : s +:+ EmptyString = s.
Proof. induction s as [|c s IH]; [done|]. by rewrite append_cons, IH. Qed.

Lemma append_assoc (s t u : string) : (s +:+ t) +:+ u = s +:+ t +:+ u.
Proof. induction s as [|c s IH]; [done|]. by rewrite !append_cons, IH. Qed.

Lemma length_append (s t : string) :
  String.length (s +:+ t) = (String.length s + String.length t)%nat.
Proof. induction s as [|c s IH]; [done|]. rewrite append_cons. cbn. by rewrite IH. Qed.

Lemma has_append c (s t : string) : has c (s +:+ t) = has c s || has c t.
Proof.
  induction s as [|d s IH]; [done|]. rewrite append_cons. cbn.
  by rewrite IH, orb_assoc.
Qed.

Lemma stripPrefix_Some (p s r : string) : stripPrefix p s = Some r ↔ s = p +:+ r.
Proof.
  revert s. induction p as [|c p IH]; intros s; cbn.
  - split; [by intros [= ->]|by intros ->].
  - destruct s as [|d s]; [done|].
    destruct (Ascii.eqb_spec c d) as [->|Hne].
    + rewrite IH, append_cons. split; [by intros ->|by intros [= ->]].
    + rewrite append_cons. split; [done|]. intros [= <- _]. done.
Qed.

Lemma stripPrefix_append (p s : string) : stripPrefix p (p +:+ s) = Some s.
Proof. by apply stripPrefix_Some. Qed.

Lemma stripPrefix_None_append (p s t : string) :
  stripPrefix p s = None →
  (String.length p ≤ String.length s)%nat →
  stripPrefix p (s +:+ t) = None.
Proof.
  revert s. induction p as [|c p IH]; intros s; cbn; [done|].
  destruct s as [|d s]; [cbn; lia|]. rewrite append_cons. cbn.
  destruct (Ascii.eqb c d); [|done]. intros Hs Hlen. apply IH; [done|lia].
Qed.

Lemma firstMatch_Some (p s a b : string) :
  firstMatch p s = Some (a, b) → s = a +:+ p +:+ b.
Proof.
  revert a. induction s as [|c s IH]; intros a; cbn.
  - destruct (stripPrefix p EmptyString) as [r|] eqn:Hp; [|done].
    intros [= <- <-]. by apply stripPrefix_Some in Hp.
  - destruct (stripPrefix p (String c s)) as [r|] eqn:Hp.
    + intros [= <- <-]. by apply stripPrefix_Some in Hp.
    + destruct (firstMatch p s) as [[a' b']|]; [|done].
      intros [= <- <-]. rewrite append_cons. f_equal. by apply IH.
Qed.

(** An occurrence within [s] is found in [s +:+ t] at the same place. *)
Lemma firstMatch_append_l (p s t a b : string) :
  firstMatch p s = Some (a, b) → firstMatch p (s +:+ t) = Some (a, b +:+ t).
Proof.
  revert a. induction s as [|c s IH]; intros a.
  - cbn. destruct (stripPrefix p EmptyString) as [r|] eqn:Hp; [|done].
    intros [= <- <-]. apply stripPrefix_Some in Hp.
    destruct p; [|done]. rewrite append_nil_l in Hp. subst r.
    rewrite !append_nil_l. by destruct t.
  - intros Hfound. pose proof (firstMatch_Some _ _ _ _ Hfound) as Hs.
    cbn in Hfound. rewrite append_cons. cbn [firstMatch].
    destruct (stripPrefix p (String c s)) as [r|] eqn:Hp.
    + injection Hfound as <- <-. apply stripPrefix_Some in Hp.
      assert (stripPrefix p (String c (s +:+ t)) = Some (r +:+ t)) as ->; [|done].
      apply stripPrefix_Some.
      change (String c (s +:+ t)) with (String c s +:+ t).
      by rewrite Hp, append_assoc.
    + assert (stripPrefix p (String c (s +:+ t)) = None) as ->.
      { change (String c (s +:+ t)) with (String c s +:+ t).
        apply stripPrefix_None_append; [done|].
        rewrite Hs, !length_append. lia. }
      destruct (firstMatch p s) as [[a' b']|]; [|done].
      injection Hfound as <- <-. by rewrite (IH a' eq_refl).
Qed.

(** A text without the first character of the pattern is stepped over. *)
Lemma firstMatch_skip (c : ascii) (p a s : string) :
  has c a = false →
  firstMatch (String c p) (a +:+ s)
  = (λ found : string * string, (a +:+ found.1, found.2)) <$> firstMatch (String c p) s.
Proof.
  induction a as [|d a IH]; intros Ha.
  - rewrite append_nil_l. by destruct (firstMatch (String c p) s) as [[]|].
  - cbn in Ha. apply orb_false_elim in Ha as [Hd Ha].
    rewrite append_cons. cbn [firstMatch stripPrefix]. rewrite Hd, (IH Ha).
    by destruct (firstMatch (String c p) s) as [[]|].
Qed.

Lemma firstMatch_skip_Some (c : ascii) (p a s x y : string) :
  has c a = false →
  firstMatch (String c p) s = Some (x, y) →
  firstMatch (String c p) (a +:+ s) = Some (a +:+ x, y).
Proof. intros Ha Hs. by rewrite firstMatch_skip, Hs. Qed.

Lemma firstMatch_skip_None (c : ascii) (p a s : string) :
  has c a = false →
  firstMatch (String c p) s = None →
  firstMatch (String c p) (a +:+ s) = None.
Proof. intros Ha Hs. by rewrite firstMatch_skip, Hs. Qed.

Lemma includes_append_r (s t p : string) :
  includes t p = true → includes (s +:+ t) p = true.
Proof.
  unfold includes. intros Ht. induction s as [|c s IH]; [done|].
  rewrite append_cons. cbn [firstMatch].
  destruct (stripPrefix p (String c (s +:+ t))); [done|].
  by destruct (firstMatch p (s +:+ t)).
Qed.

Lemma includes_append_l (s t p : string) :
  includes s p = true → includes (s +:+ t) p = true.
Proof.
  unfold includes. destruct (firstMatch p s) as [[a b]|] eqn:Hs; [|done].
  intros _. by rewrite (firstMatch_append_l _ _ t _ _ Hs).
Qed.

Lemma getSubstitution_plain (matched before after replacement : string) :
  has "$" replacement = false →
  getSubstitution matched before after replacement = replacement.
Proof.
  induction replacement as [|c r IH]; [done|]. cbn [has getSubstitution].
  intros [Hc Hr]%orb_false_elim.
  rewrite Ascii.eqb_sym in Hc. rewrite Hc. by rewrite IH.
Qed.

Lemma replace_found (s p r a b : string) :
  firstMatch p s = Some (a, b) →
  has "$" r = false →
  replace s p r = a +:+ r +:+ b.
Proof.
  intros Hs Hr. unfold replace. by rewrite Hs, getSubstitution_plain.
Qed.

Lemma replace_absent (s p r : string) :
  firstMatch p s = None → replace s p r = s.
Proof. intros Hs. unfold replace. by rewrite Hs. Qed.

(** The text of a number consists of digits, after a minus sign if it is
    negative. *)
Lemma pretty_N_go_has (c : ascii) (x : N) (s : string) :
  (∀ d, pretty_N_char d ≠ c) →
  has c (pretty_N_go x s) = has c s.
Proof.
  intros Hc. revert s. induction (N.lt_wf_0 x) as [x _ IH]; intros s.
  assert (x = 0 ∨ 0 < x)%N as [->|Hx] by lia.
  - by rewrite pretty_N_go_0.
  - rewrite pretty_N_go_step by done. rewrite IH by by apply N.div_lt.
    cbn [has]. destruct (Ascii.eqb_spec c (pretty_N_char (x `mod` 10))) as [->|]; [|done].
    by destruct (Hc (x `mod` 10)%N).
Qed.

Lemma pretty_Z_has (c : ascii) (x : Z) :
  (∀ d, pretty_N_char d ≠ c) → c ≠ "-"%char →
  has c (pretty x) = false.
Proof.
  intros Hc Hdash.
  assert (∀ p, has c (pretty (Npos p)) = false) as Hpos.
  { intros p. unfold pretty, pretty_N. rewrite decide_False by done.
    by rewrite pretty_N_go_has. }
  destruct x as [|p|p]; unfold pretty, pretty_Z.
  - cbn [has]. destruct (Ascii.eqb_spec c "0"); [|done].
    by destruct (Hc 0%N).
  - apply Hpos.
  - rewrite append_cons, append_nil_l. cbn [has].
    destruct (Ascii.eqb_spec c "-"); [done|]. apply Hpos.
Qed.

Lemma pretty_Z_no_brace (x : Z) : has "{" (pretty x) = false.
Proof.
  apply pretty_Z_has; [|done].
  intros d. unfold pretty_N_char. by repeat case_match.
Qed.

Lemma pretty_Z_no_dollar (x : Z) : has "$" (pretty x) = false.
Proof.
  apply pretty_Z_has; [|done].
  intros d. unfold pretty_N_char. by repeat case_match.
Qed.

(** ** The template filled in *)

Ltac skip_to_match :=
  repeat (apply firstMatch_skip_Some; [first [assumption|reflexivity]|]);
  reflexivity.

Ltac skip_no_match :=
  repeat (apply firstMatch_skip_None; [first [assumption|reflexivity]|]);
  reflexivity.

Lemma formatSMSMessage_plain (priority H G Q U D URL : string) :
  has "{" H = false → has "$" H = false →
  has "{" G = false → has "$" G = false →
  has "{" Q = false → has "$" Q = false →
  has "{" U = false → has "$" U = false →
  has "$" URL = false →
  formatSMSMessage (getSMSTemplate priority)
    [ ("hospital", H); ("bloodType", G); ("quantity", Q); ("urgency", U);
      ("donorName", D); ("responseUrl", URL) ]%string
  = "URGENT BLOOD REQUEST: " +:+ Q +:+ " units of " +:+ G +:+ " needed at " +:+ H
    +:+ ". " +:+ U +:+ ". Respond: " +:+ URL.
Proof.
  intros HH1 HH2 HG1 HG2 HQ1 HQ2 HU1 HU2 HURL.
  unfold formatSMSMessage, getSMSTemplate. cbn [foldl fst snd].
  change ("{" +:+ "hospital" +:+ "}") with "{hospital}"%string.
  change ("{" +:+ "bloodType" +:+ "}") with "{bloodType}"%string.
  change ("{" +:+ "quantity" +:+ "}") with "{quantity}"%string.
  change ("{" +:+ "urgency" +:+ "}") with "{urgency}"%string.
  change ("{" +:+ "donorName" +:+ "}") with "{donorName}"%string.
  change ("{" +:+ "responseUrl" +:+ "}") with "{responseUrl}"%string.
  rewrite (replace_found _ "{hospital}" H
             "URGENT BLOOD REQUEST: {quantity} units of {bloodType} needed at "
             ". {urgency}. Respond: {responseUrl}") by (reflexivity || assumption).
  rewrite (replace_found _ "{bloodType}" G
             "URGENT BLOOD REQUEST: {quantity} units of "
             (" needed at " +:+ H +:+ ". {urgency}. Respond: {responseUrl}"));
    [|by apply firstMatch_append_l|assumption].
  rewrite (replace_found _ "{quantity}" Q
             "URGENT BLOOD REQUEST: "
             (" units of " +:+ G +:+ " needed at " +:+ H
              +:+ ". {urgency}. Respond: {responseUrl}"));
    [|by apply firstMatch_append_l|assumption].
  rewrite (replace_found _ "{urgency}" U
             ("URGENT BLOOD REQUEST: " +:+ Q +:+ " units of " +:+ G
              +:+ " needed at " +:+ H +:+ ". ")
             ". Respond: {responseUrl}"); [|skip_to_match|assumption].
  rewrite !append_assoc.
  rewrite (replace_absent _ "{donorName}" D) by skip_no_match.
  rewrite (replace_found _ "{responseUrl}" URL
             ("URGENT BLOOD REQUEST: " +:+ Q +:+ " units of " +:+ G
              +:+ " needed at " +:+ H +:+ ". " +:+ U +:+ ". Respond: ")
             EmptyString); [|skip_to_match|assumption].
  by rewrite append_nil_r, !append_assoc.
Qed.

(** X12. For a hospital name and a blood group without braces and dollar
    signs, and an id whose text has no dollar sign, the message of a batch is
    the template with the quantity, the blood group, the hospital, the
    urgency line and the tracker address of the request in their places (the
    fixed pregnancy text for that urgency); the address is not appended a
    second time, and the text is the same for every donor of the batch: the
    donor's name does not occur in it. *)
Theorem smsMessage_plain (toHexString : ObjectId → string)
    (tracker hospitalName : string) (requestId : ObjectId)
    (request : BloodRequest.t) (donor : Donor.t) :
  tracker ∈ trackers →
  has "{" hospitalName = false → has "$" hospitalName = false →
  has "{" (BloodRequest.bloodGroup request) = false →
  has "$" (BloodRequest.bloodGroup request) = false →
  has "$" (toHexString requestId) = false →
  let url := tracker +:+ toHexString requestId in
  let quantity := pretty (BloodRequest.quantity request) in
  smsMessage toHexString tracker hospitalName requestId request donor
  = match BloodRequest.urgency request with
    | pregnancy =>
        "PREGNANCY EMERGENCY: " +:+ quantity +:+ " units "
        +:+ BloodRequest.bloodGroup request
        +:+ " blood needed URGENTLY for pregnant patient at " +:+ hospitalName
        +:+ ". Please respond: " +:+ url
    | urgency =>
        "URGENT BLOOD REQUEST: " +:+ quantity +:+ " units of "
        +:+ BloodRequest.bloodGroup request +:+ " needed at " +:+ hospitalName
        +:+ ". " +:+ urgencyText urgency +:+ ". Respond: " +:+ url
    end.
Proof.
  intros Htracker HH1 HH2 HG1 HG2 Hid url quantity.
  assert (has "$" url = false ∧ includes url "http" = true) as [Hurl Hhttp].
  { subst url. rewrite has_append, Hid, orb_false_r.
    in_list Htracker; (split; [reflexivity|by apply includes_append_l]). }
  unfold smsMessage, composeMessage, templateVars, responseUrl. fold url quantity.
  assert (∀ urgency,
    let message :=
      formatSMSMessage (getSMSTemplate (priority urgency))
        [ ("hospital", hospitalName);
          ("bloodType", BloodRequest.bloodGroup request);
          ("quantity", quantity);
          ("urgency", urgencyText urgency);
          ("donorName", donorName toHexString donor);
          ("responseUrl", url) ]%string in
    (if negb (includes message "http") && negb (includes message "{responseUrl}")
     then message +:+ " Respond: " +:+ url else message)
    = "URGENT BLOOD REQUEST: " +:+ quantity +:+ " units of "
      +:+ BloodRequest.bloodGroup request +:+ " needed at " +:+ hospitalName
      +:+ ". " +:+ urgencyText urgency +:+ ". Respond: " +:+ url) as Hformat.
  { intros urgency message. subst message.
    rewrite formatSMSMessage_plain;
      try assumption;
      try apply pretty_Z_no_brace; try apply pretty_Z_no_dollar;
      try (by destruct urgency).
    assert (includes ("URGENT BLOOD REQUEST: " +:+ quantity +:+ " units of "
              +:+ BloodRequest.bloodGroup request +:+ " needed at " +:+ hospitalName
              +:+ ". " +:+ urgencyText urgency +:+ ". Respond: " +:+ url) "http"
            = true) as ->; [|done].
    do 9 apply includes_append_r. exact Hhttp. }
  destruct (BloodRequest.urgency request) eqn:Hu; [apply Hformat..|done].
Qed.

(** * The number handed to the gateway *)

Lemma trimStart_noLeadingSpace (s : string) : noLeadingSpace (trimStart s).
Proof.
  induction s as [|c s IH]; [done|]. cbn [trimStart].
  by destruct (is_space c) eqn:Hc.
Qed.

Lemma trimStart_id (s : string) : noLeadingSpace s → trimStart s = s.
Proof. destruct s as [|c s]; [done|]. cbn. by intros ->. Qed.

Lemma trimEnd_cons (c : ascii) (s : string) :
  is_space c = false → trimEnd (String c s) = String c (trimEnd s).
Proof. intros Hc. cbn [trimEnd]. by rewrite Hc. Qed.

Lemma trimEnd_noLeadingSpace (s : string) :
  noLeadingSpace s → noLeadingSpace (trimEnd s).
Proof.
  destruct s as [|c s]; [done|]. cbn [noLeadingSpace]. intros Hc.
  by rewrite trimEnd_cons.
Qed.

Lemma trimEnd_idemp (s : string) : trimEnd (trimEnd s) = trimEnd s.
Proof.
  induction s as [|c s IH]; [done|]. cbn [trimEnd].
  destruct (is_space c && String.eqb (trimEnd s) EmptyString) eqn:Hc; [done|].
  cbn [trimEnd]. by rewrite IH, Hc.
Qed.

Lemma trim_idemp (s : string) : trim (trim s) = trim s.
Proof.
  unfold trim. rewrite (trimStart_id (trimEnd _)).
  - apply trimEnd_idemp.
  - apply trimEnd_noLeadingSpace, trimStart_noLeadingSpace.
Qed.

Lemma trim_plus (s : string) :
  trimEnd s = s → trim (String "+" s) = String "+" s.
Proof.
  intros Hs. unfold trim. rewrite trimStart_id by done.
  rewrite trimEnd_cons by done. by rewrite Hs.
Qed.

Lemma formattedTo_plus (to : string) :
  startsWith (formattedTo to) "+" = true
  ∧ trim (formattedTo to) = formattedTo to.
Proof.
  unfold formattedTo.
  assert (trimEnd (trim to) = trim to) as Hend by apply trimEnd_idemp.
  destruct (startsWith (trim to) "+") eqn:Hs; cbn [negb].
  - split; [done|apply trim_idemp].
  - destruct (String.length (trim to) =? 10)%nat.
    + split; [done|]. change ("+91" +:+ trim to)
        with (String "+" (String "9" (String "1" (trim to)))).
      apply trim_plus. rewrite !trimEnd_cons by done. by rewrite Hend.
    + split; [done|]. by apply trim_plus.
Qed.


(** * The notification stream *)

Lemma findIndex_absent (clientId : Time) (clients : list NotificationStream.Client) :
  (∀ c, c ∈ clients → NotificationStream.id c ≠ clientId) →
  NotificationStream.findIndex clientId clients = None.
Proof.
  induction clients as [|c clients IH]; [done|]. intros Hne. cbn.
  destruct (Z.eqb_spec (NotificationStream.id c) clientId) as [Heq|_].
  - destruct (Hne c); [apply list_elem_of_here|done].
  - rewrite IH; [done|]. intros c' Hc'. apply Hne. by apply list_elem_of_further.
Qed.

Lemma findIndex_first (clientId : Time) (before after : list NotificationStream.Client)
    (c : NotificationStream.Client) :
  (∀ x, x ∈ before → NotificationStream.id x ≠ clientId) →
  NotificationStream.id c = clientId →
  NotificationStream.findIndex clientId (before ++ c :: after) = Some (length before).
Proof.
  intros Hne Hc. induction before as [|x before IH]; cbn.
  - by rewrite Hc, Z.eqb_refl.
  - destruct (Z.eqb_spec (NotificationStream.id x) clientId) as [Heq|_].
    + destruct (Hne x); [apply list_elem_of_here|done].
    + rewrite IH; [done|]. intros x' Hx'. apply Hne. by apply list_elem_of_further.
Qed.

Lemma onClose_first (clientId : Time) (before after : list NotificationStream.Client)
    (c : NotificationStream.Client) :
  (∀ x, x ∈ before → NotificationStream.id x ≠ clientId) →
  NotificationStream.id c = clientId →
  NotificationStream.onClose (before ++ c :: after) clientId = before ++ after.
Proof.
  intros Hne Hc. unfold NotificationStream.onClose.
  rewrite findIndex_first by done.
  induction before as [|x before IH]; [done|]. cbn. f_equal. apply IH.
  intros x' Hx'. apply Hne. by apply list_elem_of_further.
Qed.

(** X14. The close handler of a client removes the first client in the
    list whose [id] is the closing client's timestamp, and nothing if there
    is none.  A client that connects and closes leaves the list as it was
    when no other client carries its timestamp.  When two clients connect in
    the same millisecond and the second one closes, it is the first that is
    removed: the closed response stays in the list and is written to by every
    broadcast, and the open one is not written to any more. *)
Theorem onClose_removes_first (clients : list NotificationStream.Client)
    (now : Time) (res1 res2 : nat) (json : string) :
  let closed := NotificationStream.onClose clients now in
  ((∀ c, c ∈ clients → NotificationStream.id c ≠ now) → closed = clients)
  ∧ (∀ before c after,
       clients = before ++ c :: after →
       NotificationStream.id c = now →
       (∀ x, x ∈ before → NotificationStream.id x ≠ now) →
       closed = before ++ after)
  ∧ ((∀ c, c ∈ clients → NotificationStream.id c ≠ now) →
     NotificationStream.onClose (NotificationStream.addClient clients now res1) now
     = clients
     ∧ NotificationStream.onClose
         (NotificationStream.addClient
            (NotificationStream.addClient clients now res1) now res2) now
       = NotificationStream.addClient clients now res2
     ∧ NotificationStream.broadcastNotification
         (NotificationStream.onClose
            (NotificationStream.addClient
               (NotificationStream.addClient clients now res1) now res2) now) json
       = NotificationStream.broadcastNotification clients json
         ++ NotificationStream.broadcastNotification
              [{| NotificationStream.id := now; NotificationStream.res := res2 |}] json).
Proof.
  intros closed. subst closed. split; [|split].
  - intros Hne. unfold NotificationStream.onClose. by rewrite findIndex_absent.
  - intros before c after -> Hc Hne. by apply onClose_first.
  - intros Hne. unfold NotificationStream.addClient.
    assert (NotificationStream.onClose
              ((clients ++ [{| NotificationStream.id := now;
                               NotificationStream.res := res1 |}])
               ++ [{| NotificationStream.id := now; NotificationStream.res := res2 |}])
              now
            = clients ++ [{| NotificationStream.id := now;
                             NotificationStream.res := res2 |}]) as Htwo.
    { rewrite <- app_assoc. cbn [app]. by apply onClose_first. }
    split; [|split].
    + rewrite (onClose_first now clients []) by done. apply app_nil_r.
    + exact Htwo.
    + rewrite Htwo. unfold NotificationStream.broadcastNotification.
      by rewrite fmap_app.
Qed.

(** * The start-up connection *)

Lemma connectLoop_spec (connect : nat → bool) (retries : nat) :
  ∀ attempt w,
  let c := connectLoop (S retries) connect attempt w in
  (attempt < attempts c ≤ attempt + S retries)%nat
  ∧ waited c = w + 5000 * Z.of_nat (attempts c - attempt - 1)
  ∧ (∀ n, (attempt ≤ n < attempts c - 1)%nat → connect n = false)
  ∧ connect (attempts c - 1)%nat = connected c
  ∧ (connected c = false → attempts c = (attempt + S retries)%nat).
Proof.
  induction retries as [|retries IH]; intros attempt w c; subst c.
  - cbn [connectLoop]. destruct (connect attempt) eqn:Hc; cbn.
    + replace (attempt - 0)%nat with attempt by lia.
      replace (attempt - attempt - 1)%nat with 0%nat by lia.
      repeat split; try lia; try done; intros; lia.
    + replace (attempt - 0)%nat with attempt by lia.
      replace (attempt - attempt - 1)%nat with 0%nat by lia.
      repeat split; try lia; try done; intros; lia.
  - change (connectLoop (S (S retries)) connect attempt w)
      with (if connect attempt
            then {| connected := true; attempts := S attempt; waited := w |}
            else connectLoop (S retries) connect (S attempt) (w + 5000)).
    destruct (connect attempt) eqn:Hc.
    + cbn. replace (attempt - 0)%nat with attempt by lia.
      replace (attempt - attempt - 1)%nat with 0%nat by lia.
      repeat split; try lia; try done; intros; lia.
    + destruct (IH (S attempt) (w + 5000)) as (Hn & Hw & Hfail & Hlast & Hgave).
      split; [lia|]. split; [rewrite Hw; lia|]. split; [|split; [done|]].
      * intros n Hrange. destruct (decide (n = attempt)) as [->|]; [done|].
        apply Hfail. lia.
      * intros Hno. rewrite (Hgave Hno). lia.
Qed.

(** X15. [connectToMongoDB] calls [mongoose.connect] until a call
    resolves, five times at most, and waits five seconds after each failed
    call but the fifth: it stops at the first call that resolves, reports a
    connection exactly when one of the first five calls resolves, and after
    five failures it returns, having waited twenty seconds, without ending
    the process. *)
Theorem connectToMongoDB_attempts (connect : nat → bool) :
  let c := connectToMongoDB connect in
  (1 ≤ attempts c ≤ 5)%nat
  ∧ waited c = 5000 * (Z.of_nat (attempts c) - 1)
  ∧ (∀ n, (n < attempts c - 1)%nat → connect n = false)
  ∧ connect (attempts c - 1)%nat = connected c
  ∧ (connected c = true ↔ ∃ n, (n < 5)%nat ∧ connect n = true)
  ∧ (connected c = false → attempts c = 5%nat ∧ waited c = 20000).
Proof.
  intros c. subst c. unfold connectToMongoDB.
  destruct (connectLoop_spec connect 4 0%nat 0) as (Hn & Hw & Hfail & Hlast & Hgave).
  set (c := connectLoop 5 connect 0 0) in *.
  split; [lia|]. split; [rewrite Hw; lia|]. split.
  { intros n Hlt. apply Hfail. lia. }
  split; [done|]. split; [|intros Hno; rewrite Hw, (Hgave Hno); by split].
  split.
  - intros Hyes. exists (attempts c - 1)%nat. split; [lia|]. by rewrite Hlast.
  - intros (n & Hlt & Hc). destruct (connected c) eqn:Hconn; [done|].
    specialize (Hgave eq_refl). rewrite Hgave in Hfail, Hlast.
    destruct (decide (n = 4%nat)) as [->|]; [by rewrite <- Hlast|].
    rewrite Hfail in Hc; [done|]. cbn. lia.
Qed.

(** * The authentication middleware *)

Lemma split_plain (separator : ascii) (s : string) :
  has separator s = false → split separator s = [s].
Proof.
  induction s as [|c s IH]; [done|]. cbn [has split].
  intros [Hc Hs]%orb_false_elim. rewrite Ascii.eqb_sym in Hc.
  by rewrite Hc, (IH Hs).
Qed.

Lemma split_nonempty (separator : ascii) (s : string) : split separator s ≠ [].
Proof.
  destruct s as [|c s]; [done|]. cbn [split].
  destruct (Ascii.eqb c separator); [done|]. by destruct (split separator s).
Qed.

Lemma split_append (separator : ascii) (a s : string) :
  has separator a = false →
  split separator (a +:+ String separator s) = a :: split separator s.
Proof.
  induction a as [|c a IH].
  - intros _. rewrite append_nil_l. cbn [split]. by rewrite Ascii.eqb_refl.
  - cbn [has]. intros [Hc Ha]%orb_false_elim. rewrite Ascii.eqb_sym in Hc.
    rewrite append_cons. cbn [split]. by rewrite Hc, (IH Ha).
Qed.

Lemma first_separator (separator : ascii) (s : string) :
  has separator s = false
  ∨ ∃ a s', s = a +:+ String separator s' ∧ has separator a = false.
Proof.
  induction s as [|c s IH]; [by left|]. cbn [has].
  destruct (Ascii.eqb_spec separator c) as [<-|Hne].
  - right. by exists EmptyString, s.
  - destruct IH as [Hs|(a & s' & -> & Ha)]; [by left|].
    right. exists (String c a), s'. split; [done|]. cbn [has].
    apply orb_false_intro; [|done]. by apply Ascii.eqb_neq.
Qed.

Lemma append_separator_truthy (a s : string) (c : ascii) :
  truthy (Some (a +:+ String c s)) = true.
Proof. by destruct a. Qed.

(** X16. [authenticateToken] takes the second of the pieces of the
    [authorization] header that single spaces separate, whatever the first
    piece is: with a piece that is not empty it answers 403 when [jwt.verify]
    rejects it and calls [next] with the payload otherwise.  It answers 401
    for a header that is absent or empty, has no space, or has nothing
    between its first space and the end or the next space.  [next] is called
    in no other case. *)
Theorem authenticateToken_second_piece {User : Type}
    (verify : string → option User) :
  (∀ scheme token rest,
     has " " scheme = false → has " " token = false → token ≠ EmptyString →
     let verified :=
       match verify token with
       | Some user => Next user
       | None => Forbidden
       end in
     authenticateToken verify (Some (scheme +:+ " " +:+ token)) = verified
     ∧ authenticateToken verify (Some (scheme +:+ " " +:+ token +:+ " " +:+ rest))
       = verified)
  ∧ authenticateToken verify None = Unauthorized
  ∧ authenticateToken verify (Some EmptyString) = Unauthorized
  ∧ (∀ header, has " " header = false →
       authenticateToken verify (Some header) = Unauthorized)
  ∧ (∀ scheme rest, has " " scheme = false →
       authenticateToken verify (Some (scheme +:+ " ")) = Unauthorized
       ∧ authenticateToken verify (Some (scheme +:+ "  " +:+ rest)) = Unauthorized)
  ∧ (∀ authHeader user,
       authenticateToken verify authHeader = Next user →
       ∃ scheme token rest,
         authHeader = Some (scheme +:+ " " +:+ token +:+ rest)
         ∧ has " " scheme = false ∧ has " " token = false
         ∧ token ≠ EmptyString
         ∧ (rest = EmptyString ∨ ∃ rest', rest = " " +:+ rest')
         ∧ verify token = Some user).
Proof.
  assert (∀ token, token ≠ EmptyString → truthy (Some token) = true) as Htruthy.
  { intros token Hne. cbn. by apply negb_true_iff, String.eqb_neq. }
  split; [|split; [done|split; [done|split; [|split]]]].
  - intros scheme token rest Hscheme Htoken Hne verified. split.
    + unfold authenticateToken.
      change (scheme +:+ " " +:+ token) with (scheme +:+ String " " token).
      rewrite append_separator_truthy. cbn [default from_option]; unfold id.
      rewrite split_append, split_plain by done. cbn [lookup list_lookup].
      rewrite Htruthy by done. done.
    + unfold authenticateToken.
      change (scheme +:+ " " +:+ token +:+ " " +:+ rest)
        with (scheme +:+ String " " (token +:+ String " " rest)).
      rewrite append_separator_truthy. cbn [default from_option]; unfold id.
      rewrite !split_append by done. cbn [lookup list_lookup].
      rewrite Htruthy by done. done.
  - intros header Hheader. unfold authenticateToken.
    destruct (truthy (Some header)) eqn:Ht.
    + cbn [default from_option]; unfold id. by rewrite split_plain.
    + by rewrite Ht.
  - intros scheme rest Hscheme. split.
    + unfold authenticateToken.
      change (scheme +:+ " ") with (scheme +:+ String " " EmptyString).
      rewrite append_separator_truthy. cbn [default from_option]; unfold id.
      by rewrite split_append.
    + unfold authenticateToken.
      change (scheme +:+ "  " +:+ rest)
        with (scheme +:+ String " " (EmptyString +:+ String " " rest)).
      rewrite append_separator_truthy. cbn [default from_option]; unfold id.
      by rewrite !split_append.
  - intros authHeader user. unfold authenticateToken.
    destruct (truthy authHeader) eqn:Hheader.
    2:{ by rewrite Hheader. }
    destruct authHeader as [header|]; [|done]. cbn [default from_option]; unfold id.
    destruct (split " " header !! 1%nat) as [token|] eqn:Hsplit; [|done].
    destruct (truthy (Some token)) eqn:Htoken; [|done]. cbn [negb default from_option]; unfold id.
    destruct (verify token) as [user'|] eqn:Hverify; [|done].
    intros [= ->].
    apply truthy_Some in Htoken as (? & [= <-] & Hne).
    destruct (first_separator " " header) as [Hplain|(scheme & s' & -> & Hscheme)].
    { by rewrite split_plain in Hsplit. }
    rewrite split_append in Hsplit by done. cbn [lookup list_lookup] in Hsplit.
    destruct (first_separator " " s') as [Hplain|(token' & s'' & -> & Htoken')].
    + rewrite split_plain in Hsplit by done. injection Hsplit as ->.
      exists scheme, token, EmptyString. rewrite append_nil_r.
      repeat split; try done. by left.
    + rewrite split_append in Hsplit by done. injection Hsplit as ->.
      exists scheme, token, (" " +:+ s''). repeat split; try done.
      right. by exists s''.
Qed.

(** ** Any template *)

Lemma getSubstitution_append_plain (matched before after p r : string) :
  has "$" p = false →
  getSubstitution matched before after (p +:+ r)
  = p +:+ getSubstitution matched before after r.
Proof.
  induction p as [|c p IH]; [done|]. cbn [has].
  intros [Hc Hp]%orb_false_elim. rewrite Ascii.eqb_sym in Hc.
  rewrite !append_cons. cbn [getSubstitution]. by rewrite Hc, (IH Hp).
Qed.

Lemma includes_absent (s p : string) :
  firstMatch p s = None → includes s p = false.
Proof. intros Hs. unfold includes. by rewrite Hs. Qed.

Lemma replace_responseUrl_link (s tracker hex : string) :
  has "$" tracker = false →
  includes tracker "http" = true →
  let message := replace s "{responseUrl}" (tracker +:+ hex) in
  includes
    (if negb (includes message "http") && negb (includes message "{responseUrl}")
     then message +:+ " Respond: " +:+ tracker +:+ hex
     else message) "http" = true.
Proof.
  intros Hdollar Hhttp message.
  assert (includes message "http" = true
          ∨ includes message "{responseUrl}" = false) as Hmessage.
  { subst message. unfold replace.
    destruct (firstMatch "{responseUrl}" s) as [[before after]|] eqn:Hs.
    - left. rewrite getSubstitution_append_plain by done.
      by apply includes_append_r, includes_append_l, includes_append_l.
    - right. by apply includes_absent. }
  destruct (includes message "http") eqn:Hm; cbn [negb andb]; [done|].
  destruct Hmessage as [Hmessage|Hmessage]; [done|].
  rewrite Hmessage. cbn [negb].
  by apply includes_append_r, includes_append_r, includes_append_l.
Qed.

Lemma composeMessage_link (toHexString : ObjectId → string)
    (tracker smsTemplate hospitalName : string) (requestId : ObjectId)
    (request : BloodRequest.t) (donor : Donor.t) :
  tracker ∈ trackers →
  includes (composeMessage toHexString tracker smsTemplate hospitalName
              requestId request donor) "http" = true.
Proof.
  intros Htracker.
  assert (has "$" tracker = false ∧ includes tracker "http" = true)
    as [Hdollar Hhttp] by (in_list Htracker; by split).
  unfold composeMessage.
  destruct (BloodRequest.urgency request).
  4:{ do 7 apply includes_append_r. by apply includes_append_l. }
  all: unfold formatSMSMessage, templateVars, responseUrl; cbn [foldl fst snd];
    change ("{" +:+ "responseUrl" +:+ "}") with "{responseUrl}"%string;
    by apply replace_responseUrl_link.
Qed.

(** X17. Whatever template the SMS service returns and whatever the
    hospital name, the blood group and the donor are, the message composed
    for a donor contains [http]: the tracker address is either put in the
    place of [{responseUrl}] or, when the text has neither a link nor that
    placeholder, appended after [Respond:].  This holds with the tracker
    address of either revision. *)
Theorem composeMessage_has_link (toHexString : ObjectId → string)
    (smsTemplate hospitalName : string) (requestId : ObjectId)
    (request : BloodRequest.t) (donor : Donor.t) :
  Forall (λ tracker,
            includes (composeMessage toHexString tracker smsTemplate hospitalName
                        requestId request donor) "http" = true
            ∧ includes (smsMessage toHexString tracker hospitalName
                          requestId request donor) "http" = true)
         trackers.
Proof.
  apply Forall_forall. intros tracker Htracker.
  split; [by apply composeMessage_link|].
  unfold smsMessage. by apply composeMessage_link.
Qed.

(** ** What the gateway receives for a batch *)

Lemma batchCalls_batchSms (toHexString : ObjectId → string)
    (tracker hospitalName : string) (requestId : ObjectId)
    (request : BloodRequest.t) (allDonors : list Donor.t)
    (nextBatchIds : list ObjectId) :
  (batchCalls toHexString tracker hospitalName requestId request allDonors
     nextBatchIds).*1
  = (λ sms : nat * string, formattedTo sms.2) <$> batchSms allDonors nextBatchIds.
Proof.
  unfold batchCalls, batchSms.
  induction (List.filter _ allDonors) as [|donor donors IH]; [done|].
  cbn [omap list_omap]. destruct (truthy (donorPhone donor)); [|done].
  cbn. by rewrite <- IH.
Qed.


(** * The bulk import of donors *)

Lemma is_space_lower (c : ascii) : is_space (lower c) = is_space c.
Proof.
  unfold lower. destruct ((65 <=? nat_of_ascii c) && (nat_of_ascii c <=? 90))%nat eqn:Hc;
    [|done].
  apply andb_prop in Hc as [H1%Nat.leb_le H2%Nat.leb_le].
  unfold is_space. rewrite nat_ascii_embedding by lia.
  repeat match goal with
         | |- context [(?a =? ?b)%nat] => destruct (Nat.eqb_spec a b); try lia
         | |- context [(?a <=? ?b)%nat] => destruct (Nat.leb_spec a b); try lia
         end; done.
Qed.

Lemma toLowerCase_empty (s : string) :
  String.eqb (toLowerCase s) EmptyString = String.eqb s EmptyString.
Proof. by destruct s. Qed.

Lemma toLowerCase_trimStart (s : string) :
  toLowerCase (trimStart s) = trimStart (toLowerCase s).
Proof.
  induction s as [|c s IH]; [done|]. cbn [trimStart toLowerCase].
  rewrite is_space_lower. by destruct (is_space c).
Qed.

Lemma toLowerCase_trimEnd (s : string) :
  toLowerCase (trimEnd s) = trimEnd (toLowerCase s).
Proof.
  induction s as [|c s IH]; [done|]. cbn [trimEnd toLowerCase].
  rewrite is_space_lower, <- IH, toLowerCase_empty.
  by destruct (is_space c && String.eqb (trimEnd s) EmptyString).
Qed.

Lemma toLowerCase_trim (s : string) : toLowerCase (trim s) = trim (toLowerCase s).
Proof. unfold trim. by rewrite toLowerCase_trimEnd, toLowerCase_trimStart. Qed.

Lemma normName_trim (s : string) :
  DonorImport.normName (trim s) = DonorImport.normName s.
Proof.
  unfold DonorImport.normName. by rewrite toLowerCase_trim, trim_idemp.
Qed.

Section ImportFacts.

Variable existingDocs : list DonorImport.Existing.
Variable save : nat → DonorImport.NewDonor → option string.

Lemma reserving_mono key existingKeys (batchKeys batchKeys' : gset string) saved :
  batchKeys ⊆ batchKeys' →
  DonorImport.reserving key existingKeys batchKeys saved →
  DonorImport.reserving key existingKeys batchKeys' saved.
Proof.
  intros Hsub [Hnodup Hkeys]. split; [done|].
  intros d x Hd Hx. destruct (Hkeys d x Hd Hx). split; [|done]. by apply Hsub.
Qed.

Lemma reserving_add key existingKeys (batchKeys batchKeys' : gset string) saved d :
  batchKeys ⊆ batchKeys' →
  (∀ x, key d = Some x → (x ∉ batchKeys) ∧ (x ∉ existingKeys) ∧ x ∈ batchKeys') →
  DonorImport.reserving key existingKeys batchKeys saved →
  DonorImport.reserving key existingKeys batchKeys' (saved ++ [d]).
Proof.
  intros Hsub Hnew [Hnodup Hkeys]. split.
  - rewrite omap_app. apply NoDup_app. split; [done|]. split.
    + intros x Hx Hx'. apply list_elem_of_omap in Hx as (d' & Hd' & Hkey').
      destruct (Hkeys d' x Hd' Hkey') as [Hin _].
      cbn in Hx'. destruct (key d) as [y|] eqn:Hy; [|by apply elem_of_nil in Hx'].
      apply list_elem_of_singleton in Hx' as ->.
      by destruct (Hnew y eq_refl) as [Hout _].
    + cbn. destruct (key d); [apply NoDup_singleton|apply NoDup_nil_2].
  - intros d' x [Hd'|Hd']%elem_of_app Hx.
    + destruct (Hkeys d' x Hd' Hx). split; [by apply Hsub|done].
    + apply list_elem_of_singleton in Hd' as ->.
      destruct (Hnew x Hx) as (_ & ? & ?). done.
Qed.

Lemma importing_skip n st lineEmail o :
  DonorImport.importing existingDocs n st →
  DonorImport.importing existingDocs (S n) (DonorImport.skip st (S n, lineEmail) o).
Proof.
  intros (Hcount & Hindex & Hcred & Hlen & Hgroup & He & Hn & Hp & Hr).
  unfold DonorImport.importing, DonorImport.skip.
  cbn [DonorImport.results DonorImport.credentials DonorImport.inserted
       DonorImport.skipped DonorImport.batchEmails DonorImport.batchNameGroup
       DonorImport.batchPhones DonorImport.batchRolls DonorImport.saved fst snd].
  split; [lia|]. split; [|done].
  by rewrite fmap_app, Hindex, seq_S.
Qed.

Lemma truthy_and_member (key : string) (keys : gset string) :
  truthy (Some key) && bool_decide (key ∈ keys) = false →
  truthy (Some key) = true → key ∉ keys.
Proof. intros Hand Ht. rewrite Ht in Hand. by apply bool_decide_eq_false in Hand. Qed.

Lemma importing_importRow n st rawOriginal :
  DonorImport.importing existingDocs n st →
  DonorImport.importing existingDocs (S n)
    (DonorImport.importRow existingDocs save st n rawOriginal).
Proof.
  intros Hinv. unfold DonorImport.importRow.
  set (mapped := DonorImport.mapRow rawOriginal).
  set (nameRaw := js_or (DonorImport.get mapped "name") _).
  set (emailRaw := js_or (DonorImport.get mapped "email") _).
  set (phoneRaw := js_or (DonorImport.get mapped "phone") _).
  set (rawGroup := js_or (js_or (DonorImport.get mapped "bloodGroup") _) _).
  set (rollNoRaw := js_or (DonorImport.get mapped "rollNo") _).
  cbv zeta.
  destruct (negb (truthy nameRaw) || negb (truthy emailRaw)
            || negb (truthy phoneRaw) || negb (truthy rawGroup)) eqn:Hmissing;
    [by apply importing_skip|].
  assert (truthy phoneRaw = true) as Hphone.
  { destruct (truthy phoneRaw); [done|]. by rewrite !orb_true_r in Hmissing. }
  rewrite Hphone.
  set (email := trim (toLowerCase (default EmptyString emailRaw))).
  set (bloodGroup := DonorImport.normalizeBloodGroup rawGroup).
  destruct (decide (bloodGroup ∈ DonorImport.allowedBloodGroups)) as [Hallowed|Hno];
    [rewrite (bool_decide_eq_true_2 _ Hallowed)
    |rewrite (bool_decide_eq_false_2 _ Hno)];
    cbn [negb]; [|by apply importing_skip].
  set (nameGroupKey := DonorImport.normName (default EmptyString nameRaw)
                       +:+ "|" +:+ bloodGroup).
  set (phoneKey := trim (default EmptyString phoneRaw)).
  set (rollKey := if truthy rollNoRaw
                  then toLowerCase (trim (default EmptyString rollNoRaw))
                  else EmptyString).
  destruct (decide (email ∈ DonorImport.existingEmails existingDocs)) as [Hyes|He1];
    [rewrite (bool_decide_eq_true_2 _ Hyes); by apply importing_skip
    |rewrite (bool_decide_eq_false_2 _ He1)].
  destruct (decide (nameGroupKey ∈ DonorImport.existingNameGroup existingDocs))
    as [Hyes|Hn1];
    [rewrite (bool_decide_eq_true_2 _ Hyes); by apply importing_skip
    |rewrite (bool_decide_eq_false_2 _ Hn1)].
  destruct (truthy (Some phoneKey)
            && bool_decide (phoneKey ∈ DonorImport.existingPhones existingDocs))
    eqn:Hp1; [by apply importing_skip|].
  destruct (truthy (Some rollKey)
            && bool_decide (rollKey ∈ DonorImport.existingRolls existingDocs))
    eqn:Hr1; [by apply importing_skip|].
  destruct (decide (email ∈ DonorImport.batchEmails st)) as [Hyes|He2];
    [rewrite (bool_decide_eq_true_2 _ Hyes); by apply importing_skip
    |rewrite (bool_decide_eq_false_2 _ He2)].
  destruct (decide (nameGroupKey ∈ DonorImport.batchNameGroup st)) as [Hyes|Hn2];
    [rewrite (bool_decide_eq_true_2 _ Hyes); by apply importing_skip
    |rewrite (bool_decide_eq_false_2 _ Hn2)].
  destruct (truthy (Some phoneKey)
            && bool_decide (phoneKey ∈ DonorImport.batchPhones st))
    eqn:Hp2; [by apply importing_skip|].
  destruct (truthy (Some rollKey)
            && bool_decide (rollKey ∈ DonorImport.batchRolls st))
    eqn:Hr2; [by apply importing_skip|].
  destruct Hinv as (Hcount & Hindex & Hcred & Hlen & Hgroup & He & Hn & Hp & Hr).
  set (batchPhones' := if truthy (Some phoneKey)
                       then {[ phoneKey ]} ∪ DonorImport.batchPhones st
                       else DonorImport.batchPhones st).
  set (batchRolls' := if truthy (Some rollKey)
                      then {[ rollKey ]} ∪ DonorImport.batchRolls st
                      else DonorImport.batchRolls st).
  assert (DonorImport.batchPhones st ⊆ batchPhones') as Hsubp.
  { subst batchPhones'. destruct (truthy (Some phoneKey)); [apply union_subseteq_r|done]. }
  assert (DonorImport.batchRolls st ⊆ batchRolls') as Hsubr.
  { subst batchRolls'. destruct (truthy (Some rollKey)); [apply union_subseteq_r|done]. }
  set (donorDoc := DonorImport.Build_NewDonor _ _ _ _ _).
  destruct (save n donorDoc) as [message|].
  - apply importing_skip. unfold DonorImport.importing.
    cbn [DonorImport.results DonorImport.credentials DonorImport.inserted
         DonorImport.skipped DonorImport.batchEmails DonorImport.batchNameGroup
         DonorImport.batchPhones DonorImport.batchRolls DonorImport.saved].
    repeat (split; [done|]).
    split; [eapply reserving_mono; [apply union_subseteq_r|exact He]|].
    split; [eapply reserving_mono; [apply union_subseteq_r|exact Hn]|].
    split; [by eapply reserving_mono|by eapply reserving_mono].
  - unfold DonorImport.importing.
    cbn [DonorImport.results DonorImport.credentials DonorImport.inserted
         DonorImport.skipped DonorImport.batchEmails DonorImport.batchNameGroup
         DonorImport.batchPhones DonorImport.batchRolls DonorImport.saved].
    split; [lia|]. split; [by rewrite fmap_app, Hindex, seq_S|].
    split; [by rewrite fmap_app, Hcred|].
    split; [rewrite length_app; cbn; lia|].
    split; [apply Forall_app; split; [done|by apply Forall_singleton]|].
    split; [|split; [|split]].
    + eapply reserving_add; [apply union_subseteq_r| |exact He].
      intros x [= <-]. cbn [DonorImport.new_email donorDoc].
      split; [done|]. split; [done|]. by apply elem_of_union_l, elem_of_singleton.
    + eapply reserving_add; [apply union_subseteq_r| |exact Hn].
      intros x [= <-]. cbn [DonorImport.new_name DonorImport.new_bloodGroup donorDoc].
      rewrite normName_trim. fold nameGroupKey.
      split; [done|]. split; [done|]. by apply elem_of_union_l, elem_of_singleton.
    + eapply reserving_add; [exact Hsubp| |exact Hp].
      intros x. unfold DonorImport.phoneKey. cbn [DonorImport.new_phone donorDoc].
      fold phoneKey.
      pose proof (truthy_and_member _ _ Hp1) as Hp1'.
      pose proof (truthy_and_member _ _ Hp2) as Hp2'.
      subst batchPhones'. destruct (truthy (Some phoneKey)) eqn:Ht; [|done].
      intros [= <-]. split; [by apply Hp2'|]. split; [by apply Hp1'|].
      by apply elem_of_union_l, elem_of_singleton.
    + eapply reserving_add; [exact Hsubr| |exact Hr].
      intros x. unfold DonorImport.rollKey. cbn [DonorImport.new_rollNo donorDoc].
      pose proof (truthy_and_member _ _ Hr1) as Hr1'.
      pose proof (truthy_and_member _ _ Hr2) as Hr2'.
      subst batchRolls' rollKey. destruct (truthy rollNoRaw); [|done].
      destruct (truthy (Some (toLowerCase (trim (default EmptyString rollNoRaw)))))
        eqn:Ht; [|done].
      intros [= <-]. split; [by apply Hr2'|]. split; [by apply Hr1'|].
      by apply elem_of_union_l, elem_of_singleton.
Qed.

Lemma importing_importFrom donors : ∀ n st,
  DonorImport.importing existingDocs n st →
  DonorImport.importing existingDocs (n + length donors)
    (DonorImport.importFrom existingDocs save n donors st).
Proof.
  induction donors as [|rawOriginal donors IH]; intros n st Hinv.
  - cbn. by rewrite Nat.add_0_r.
  - cbn [DonorImport.importFrom length].
    replace (n + S (length donors))%nat with (S n + length donors)%nat by lia.
    by apply IH, importing_importRow.
Qed.

End ImportFacts.

Lemma omap_emailKey (saved : list DonorImport.NewDonor) :
  omap DonorImport.emailKey saved = DonorImport.new_email <$> saved.
Proof. induction saved as [|d saved IH]; [done|]. cbn. by f_equal. Qed.


(** * Concrete instances of the further properties *)

(** The read of the sample request with all three units confirmed. *)
Lemma getBloodRequestById_lifecycle_witness :
  let request := BloodRequest.set_confirmedUnits 3 (sampleRequest active) in
  let db : gmap nat BloodRequest.t := {[ 0%nat := request ]} in
  db !! 0%nat = Some request
  ∧ getBloodRequestById db 5000 0%nat
    = (<[0%nat := BloodRequest.set_status fulfilled request]> db, Closed).
Proof.
  cbv zeta. split; [apply sample_lookup|].
  destruct (getBloodRequestById_lifecycle
              {[ 0%nat := BloodRequest.set_confirmedUnits 3 (sampleRequest active) ]}
              5000 0%nat (BloodRequest.set_confirmedUnits 3 (sampleRequest active))
              (sample_lookup _)) as (Hfull & _).
  apply Hfull; [reflexivity|cbn; lia].
Defined.

(** The read of the active sample request after its deadline: the answer is
    the error 500 and the request is still stored as active. *)
Example getBloodRequestById_late_sample :
  let db : gmap nat BloodRequest.t := {[ 0%nat := sampleRequest active ]} in
  getBloodRequestById db 20000000001 0%nat = (db, ServerError None)
  ∧ http_status (ServerError None) = 500.
Proof. cbv zeta. split; by vm_compute. Qed.

(** Four handlers on the sample request for three units: the third reaches
    the quantity and saves after the fourth has been refused. *)
Lemma no_overbooking_interleaved_witness :
  let db : gmap nat BloodRequest.t := {[ 0%nat := sampleRequest active ]} in
  let times := [1; 2; 3; 4] in
  let schedule := [0; 1; 2; 3; 2]%nat in
  let result := interleave 0%nat db (Waiting <$> times) schedule in
  (db !! 0%nat = Some (sampleRequest active)
   ∧ BloodRequest.confirmedUnits (sampleRequest active) = 0
   ∧ 0 <= BloodRequest.quantity (sampleRequest active)
   ∧ BloodRequest.status (sampleRequest active) = active
   ∧ Forall (λ now, now <= BloodRequest.requiredBy (sampleRequest active)) times
   ∧ forallb answered result.2 = true)
  ∧ ∃ r, result.1 !! 0%nat = Some r
      ∧ 0 <= BloodRequest.confirmedUnits r <= 3
      ∧ BloodRequest.confirmedUnits r = Z.min 4 3.
Proof.
  cbv zeta.
  assert (Forall (λ now, now <= BloodRequest.requiredBy (sampleRequest active))
            [1; 2; 3; 4]) as Htimes.
  { repeat constructor; cbn; lia. }
  assert (0 <= BloodRequest.quantity (sampleRequest active)) as Hq by (cbn; lia).
  split.
  - split; [apply sample_lookup|]. split; [reflexivity|]. split; [exact Hq|].
    split; [reflexivity|]. split; [exact Htimes|]. vm_compute. reflexivity.
  - destruct (no_overbooking_interleaved {[ 0%nat := sampleRequest active ]} 0%nat
                (sampleRequest active) [1; 2; 3; 4] [0; 1; 2; 3; 2]%nat
                (sample_lookup _) eq_refl Hq)
      as (r & Hr & Hbound & _ & Hmin).
    exists r. split; [exact Hr|]. split; [exact Hbound|].
    apply (Hmin eq_refl Htimes). vm_compute. reflexivity.
Defined.

(** Four calls of [sendNextBatch] on the pending sample request, three
    donors queued and batch size 1. *)
Lemma sendNextBatch_repeated_witness :
  let db : gmap nat BloodRequest.t := {[ 0%nat := sampleRequest pending ]} in
  let times := [1000; 1001; 1002; 1003] in
  let db' :=
    foldl (λ db now, (sendNextBatch db sampleDirectory now 0%nat).1) db times in
  (db !! 0%nat = Some (sampleRequest pending)
   ∧ 0 <= BloodRequest.batchSize (sampleRequest pending)
   ∧ BloodRequest.status (sampleRequest pending) = pending
   ∧ (length [5; 6; 1]%nat ≤ 4 * 1)%nat)
  ∧ ∃ request',
      db' !! 0%nat = Some request'
      ∧ BloodRequest.notifiedDonors request' = [] ++ [5; 6; 1]%nat
      ∧ BloodRequest.remainingDonorsQueue request' = []
      ∧ ∀ now, sendNextBatch db' sampleDirectory now 0%nat = (db', []).
Proof.
  cbv zeta.
  assert (0 <= BloodRequest.batchSize (sampleRequest pending)) as Hb by (cbn; lia).
  assert (length [5; 6; 1]%nat ≤ 4 * 1)%nat as Hcover by (cbn; lia).
  split.
  - split; [apply sample_lookup|]. split; [exact Hb|]. split; [reflexivity|exact Hcover].
  - destruct (sendNextBatch_repeated {[ 0%nat := sampleRequest pending ]} sampleDirectory
                0%nat (sampleRequest pending) [1000; 1001; 1002; 1003]
                (sample_lookup _) Hb eq_refl)
      as (request' & Hr & _ & _ & _ & Hdone).
    destruct (Hdone Hcover) as (Hn & Hq & Hnoop).
    exists request'. split; [exact Hr|]. split; [exact Hn|]. split; [exact Hq|exact Hnoop].
Defined.

(** A run on the pending sample request, cut after its second event: one
    donor is notified by then, all three at the end. *)
Lemma run_monotone_witness :
  let db : gmap nat BloodRequest.t := {[ 0%nat := sampleRequest pending ]} in
  let events1 := [ (1000, OpSendNextBatch sampleDirectory 0%nat);
                   (2000, OpConfirm 0%nat) ] in
  let events2 := [ (3000, OpConfirm 0%nat);
                   (200000, OpTick true sampleDirectory (clockAt 200007));
                   (300000, OpSendNextBatch sampleDirectory 0%nat);
                   (400000, OpConfirm 0%nat);
                   (500000, OpGet 0%nat) ] in
  db !! 0%nat = Some (sampleRequest pending)
  ∧ (∃ r1 r2,
       run codeUnitCompare toUpperCase utc db events1 !! 0%nat = Some r1
       ∧ run codeUnitCompare toUpperCase utc db (events1 ++ events2) !! 0%nat = Some r2
       ∧ BloodRequest.quantity r2 = BloodRequest.quantity r1
       ∧ BloodRequest.confirmedUnits r1 <= BloodRequest.confirmedUnits r2
       ∧ BloodRequest.notifiedDonors r1 `prefix_of` BloodRequest.notifiedDonors r2
       ∧ BloodRequest.remainingDonorsQueue r2
           `suffix_of` BloodRequest.remainingDonorsQueue r1)
  ∧ BloodRequest.notifiedDonors
      <$> run codeUnitCompare toUpperCase utc db events1 !! 0%nat
    = Some [5]%nat
  ∧ BloodRequest.notifiedDonors
      <$> run codeUnitCompare toUpperCase utc db (events1 ++ events2) !! 0%nat
    = Some [5; 6; 1]%nat.
Proof.
  cbv zeta. split; [apply sample_lookup|]. split; [|split; by vm_compute].
  destruct (run_monotone codeUnitCompare toUpperCase utc
              {[ 0%nat := sampleRequest pending ]}
              [ (1000, OpSendNextBatch sampleDirectory 0%nat);
                (2000, OpConfirm 0%nat) ]
              [ (3000, OpConfirm 0%nat);
                (200000, OpTick true sampleDirectory (clockAt 200007));
                (300000, OpSendNextBatch sampleDirectory 0%nat);
                (400000, OpConfirm 0%nat);
                (500000, OpGet 0%nat) ]
              0%nat (sampleRequest pending) (sample_lookup _))
    as (r1 & r2 & H1 & H2 & Hq & _ & _ & Hu & Hn & Hr & _).
  exists r1, r2. split; [exact H1|]. split; [exact H2|]. split; [exact Hq|].
  split; [exact Hu|]. split; [exact Hn|exact Hr].
Defined.

(** The active sample request, confirmed three times among other events. *)
Lemma active_fulfilled_iff_full_witness :
  let db : gmap nat BloodRequest.t := {[ 0%nat := sampleRequest active ]} in
  let events := [ (1001, OpSendNextBatch sampleDirectory 0%nat);
                  (1002, OpConfirm 0%nat);
                  (1003, OpConfirm 0%nat);
                  (1004, OpGet 0%nat);
                  (1005, OpConfirm 0%nat);
                  (1006, OpConfirm 0%nat) ] in
  (db !! 0%nat = Some (sampleRequest active)
   ∧ BloodRequest.status (sampleRequest active) = active
   ∧ 0 <= BloodRequest.confirmedUnits (sampleRequest active)
       < BloodRequest.quantity (sampleRequest active))
  ∧ (∃ r,
       run codeUnitCompare toUpperCase utc db events !! 0%nat = Some r
       ∧ 0 <= BloodRequest.confirmedUnits r <= BloodRequest.quantity r
       ∧ (BloodRequest.status r = fulfilled ↔
          BloodRequest.confirmedUnits r = BloodRequest.quantity r))
  ∧ run codeUnitCompare toUpperCase utc db events !! 0%nat
    = Some (BloodRequest.set_status fulfilled
              (BloodRequest.set_confirmedUnits 3 (sampleRequest active))).
Proof.
  cbv zeta.
  assert (0 <= BloodRequest.confirmedUnits (sampleRequest active)
          < BloodRequest.quantity (sampleRequest active)) as Hu by (cbn; lia).
  split; [split; [apply sample_lookup|split; [reflexivity|exact Hu]]|].
  split; [|by vm_compute].
  destruct (active_fulfilled_iff_full codeUnitCompare toUpperCase utc
              {[ 0%nat := sampleRequest active ]} 0%nat (sampleRequest active)
              [ (1001, OpSendNextBatch sampleDirectory 0%nat);
                (1002, OpConfirm 0%nat);
                (1003, OpConfirm 0%nat);
                (1004, OpGet 0%nat);
                (1005, OpConfirm 0%nat);
                (1006, OpConfirm 0%nat) ] (sample_lookup _) eq_refl Hu)
    as (r & Hr & _ & Hunits & Hf & _).
  exists r. split; [exact Hr|]. split; [exact Hunits|exact Hf].
Defined.

(** The sample request, pending, all three donors notified, three minutes
    after its last batch. *)
Lemma scheduler_exhausted_witness :
  let request := BloodRequest.set_batch [] [5; 6; 1]%nat 1000 (sampleRequest pending) in
  let db : gmap nat BloodRequest.t := {[ 0%nat := request ]} in
  let ticks := [ (241000, OpTick true sampleDirectory (clockAt 241007));
                 (301000, OpTick true sampleDirectory (clockAt 301007)) ] in
  let tick :=
    checkPendingBatches sendNextBatch true db sampleDirectory 181000 (clockAt 181007) in
  (db !! 0%nat = Some request
   ∧ due 181000 request = true
   ∧ BloodRequest.remainingDonorsQueue request = []
   ∧ forallb is_tick ticks = true)
  ∧ tick_db tick !! 0%nat = Some (BloodRequest.set_batchInProgress false request)
  ∧ 0%nat ∈ tick_advanced tick
  ∧ run codeUnitCompare toUpperCase utc (tick_db tick) ticks !! 0%nat
    = Some (BloodRequest.set_batchInProgress false request).
Proof.
  cbv zeta.
  split; [split; [apply sample_lookup|split; [|split]; reflexivity]|].
  destruct (scheduler_exhausted codeUnitCompare toUpperCase utc
              {[ 0%nat := BloodRequest.set_batch [] [5; 6; 1]%nat 1000
                            (sampleRequest pending) ]}
              sampleDirectory 181000 (clockAt 181007) 0%nat
              (BloodRequest.set_batch [] [5; 6; 1]%nat 1000 (sampleRequest pending))
              [ (241000, OpTick true sampleDirectory (clockAt 241007));
                (301000, OpTick true sampleDirectory (clockAt 301007)) ]
              (sample_lookup _) eq_refl eq_refl eq_refl)
    as (Ht & Ha & _ & _ & _ & Hrun).
  split; [exact Ht|]. split; [exact Ha|exact Hrun].
Defined.

(** The sample request, pending, three minutes after its first batch; the
    [sendNextBatch] of the tick reads its clock 7 ms after the tick, and the
    next tick comes one minute later, inside the new window of two
    minutes. *)
Lemma scheduler_window_witness :
  let db : gmap nat BloodRequest.t := {[ 0%nat := sampleSent pending ]} in
  let tick :=
    checkPendingBatches sendNextBatch true db sampleDirectory 181000 (clockAt 181007) in
  let request' :=
    BloodRequest.set_batch (drop 1 [6; 1]%nat) ([5]%nat ++ take 1 [6; 1]%nat)
      181007 (sampleSent pending) in
  let tick' :=
    checkPendingBatches sendNextBatch true (tick_db tick) sampleDirectory 241000
      (clockAt 241007) in
  (db !! 0%nat = Some (sampleSent pending)
   ∧ due 181000 (sampleSent pending) = true
   ∧ BloodRequest.remainingDonorsQueue (sampleSent pending) ≠ []
   ∧ 0 <= BloodRequest.batchSize (sampleSent pending)
   ∧ 241000 - 181007 < 2 * 60000)
  ∧ tick_db tick !! 0%nat = Some request'
  ∧ tick_db tick' !! 0%nat = Some request'
  ∧ 0%nat ∉ tick_advanced tick'.
Proof.
  cbv zeta.
  assert (BloodRequest.remainingDonorsQueue (sampleSent pending) ≠ []) as Hq by done.
  assert (0 <= BloodRequest.batchSize (sampleSent pending)) as Hb by (cbn; lia).
  assert (241000 - 181007 < 2 * 60000) as Hearly by lia.
  split.
  - split; [apply sample_lookup|]. split; [reflexivity|]. split; [exact Hq|].
    split; [exact Hb|exact Hearly].
  - destruct (scheduler_window {[ 0%nat := sampleSent pending ]} sampleDirectory
                181000 241000 (clockAt 181007) (clockAt 241007)
                0%nat (sampleSent pending)
                (sample_lookup _) eq_refl Hq Hb)
      as (Ht & _ & _ & Hnext).
    destruct (Hnext Hearly) as [Ht' Ha'].
    split; [exact Ht|]. split; [exact Ht'|exact Ha'].
Defined.

(** The sample request, pending, three minutes after its first batch. *)
Lemma checkPendingBatches_due_witness :
  let db : gmap nat BloodRequest.t := {[ 0%nat := sampleSent pending ]} in
  let tick :=
    checkPendingBatches sendNextBatch true db sampleDirectory 181000 (clockAt 181007) in
  (db !! 0%nat = Some (sampleSent pending)
   ∧ due 181000 (sampleSent pending) = true)
  ∧ tick_db tick !! 0%nat
    = (sendNextBatch
         (<[0%nat := BloodRequest.set_batchInProgress false (sampleSent pending)]> db)
         sampleDirectory 181007 0%nat).1 !! 0%nat
  ∧ 0%nat ∈ tick_advanced tick.
Proof.
  cbv zeta. split; [split; [apply sample_lookup|reflexivity]|].
  destruct (checkPendingBatches_due {[ 0%nat := sampleSent pending ]} sampleDirectory
              181000 (clockAt 181007) 0%nat (sampleSent pending) (sample_lookup _))
    as (_ & Hdue & _).
  exact (Hdue eq_refl).
Defined.

(** The message for the sample request, urgency high, from a hospital
    named City Hospital. *)
Lemma smsMessage_plain_witness :
  let tracker := "https://innovate-tracker2.vercel.app/"%string in
  let donor := sampleDonor 5 "Al" "o+" None in
  (tracker ∈ trackers
   ∧ has "{" "City Hospital" = false ∧ has "$" "City Hospital" = false
   ∧ has "{" (BloodRequest.bloodGroup (sampleRequest active)) = false
   ∧ has "$" (BloodRequest.bloodGroup (sampleRequest active)) = false
   ∧ has "$" (sampleHex 0) = false)
  ∧ smsMessage sampleHex tracker "City Hospital" 0%nat (sampleRequest active) donor
    = "URGENT BLOOD REQUEST: 3 units of O+ needed at City Hospital. HIGH PRIORITY - EMERGENCY. Respond: https://innovate-tracker2.vercel.app/65f1c0de9a3b4c5d6e701000"%string.
Proof.
  cbv zeta.
  assert ("https://innovate-tracker2.vercel.app/"%string ∈ trackers) as Htracker
    by apply list_elem_of_here.
  split.
  - split; [exact Htracker|]. repeat split; reflexivity.
  - rewrite (smsMessage_plain sampleHex "https://innovate-tracker2.vercel.app/"
               "City Hospital" 0%nat (sampleRequest active)
               (sampleDonor 5 "Al" "o+" None) Htracker
               eq_refl eq_refl eq_refl eq_refl eq_refl).
    reflexivity.
Defined.


(** The sample body with the older controller: creation, the first batch a
    second later and a tick two minutes after that, whose [sendNextBatch]
    reads its clock 7 ms after the tick. *)
Lemma V1_create_batch_tick_witness :
  let now := 10000000000 in
  let created :=
    V1.createBloodRequest codeUnitCompare toUpperCase utc ∅ sampleDirectory now
      77%nat sampleBody in
  let request := V1.newBloodRequest 77%nat sampleBody [5; 6; 2; 1]%nat in
  (body_bloodGroup sampleBody ∈ Schema.bloodGroup_enum
   ∧ 1 <= body_quantity sampleBody
   ∧ 2 * 60000 <= (now + 121000) - (now + 1000))
  ∧ ∃ id,
      created.2 = Created id (Some V1.created)
      ∧ let sent := V1.sendNextBatch created.1 sampleDirectory (now + 1000) id in
        let tick :=
          checkPendingBatches V1.sendNextBatch true sent.1 sampleDirectory
            (now + 121000) (clockAt (now + 121007)) in
        id ∈ tick_advanced tick
        ∧ tick_db tick !! id
          = Some (BloodRequest.set_batch [2; 1]%nat [5; 6]%nat (now + 121007) request).
Proof.
  cbv zeta.
  assert (body_bloodGroup sampleBody ∈ Schema.bloodGroup_enum) as Hgroup.
  { apply (bool_decide_unpack (body_bloodGroup sampleBody ∈ Schema.bloodGroup_enum)).
    by vm_compute. }
  assert (1 <= body_quantity sampleBody) as Hq by (cbn; lia).
  assert (2 * 60000 <= (10000000000 + 121000) - (10000000000 + 1000)) as Hw by lia.
  split; [split; [exact Hgroup|split; [exact Hq|exact Hw]]|].
  pose proof (V1_create_batch_tick codeUnitCompare toUpperCase utc ∅
                sampleDirectory sampleDirectory sampleDirectory
                10000000000 (10000000000 + 1000) (10000000000 + 121000)
                (clockAt (10000000000 + 121007))
                77%nat sampleBody Hgroup Hq Hw) as H.
  cbv zeta in H. destruct H as (id & Hid & _ & _ & Hmatch).
  change (donorIds codeUnitCompare toUpperCase utc 10000000000
            (body_bloodGroup sampleBody) sampleDirectory)
    with [5; 6; 2; 1]%nat in Hmatch.
  destruct Hmatch as (_ & Ha & Ht).
  exists id. split; [exact Hid|]. split; [exact Ha|exact Ht].
Defined.

(** The active sample request after calls of [sendNextBatch] for it, ticks,
    a read and a confirmation, over more than six minutes: nobody has been
    notified. *)
Lemma not_pending_never_dispatched_witness :
  let db : gmap nat BloodRequest.t := {[ 0%nat := sampleRequest active ]} in
  let events :=
    [ (1000, OpSendNextBatch sampleDirectory 0%nat);
      (130000, OpTick true sampleDirectory (clockAt 130007));
      (140000, OpGet 0%nat);
      (150000, OpConfirm 0%nat);
      (161000, OpSendNextBatch sampleDirectory 0%nat);
      (190000, OpTick true sampleDirectory (clockAt 190007));
      (400000, OpTick true sampleDirectory (clockAt 400007)) ] in
  (db !! 0%nat = Some (sampleRequest active)
   ∧ BloodRequest.status (sampleRequest active) ≠ pending)
  ∧ ∃ r,
      run codeUnitCompare toUpperCase utc db events !! 0%nat = Some r
      ∧ BloodRequest.notifiedDonors r = []
      ∧ BloodRequest.remainingDonorsQueue r = [5; 6; 1]%nat
      ∧ BloodRequest.batchSentAt r = None
      ∧ BloodRequest.batchInProgress r = false.
Proof.
  cbv zeta.
  assert (BloodRequest.status (sampleRequest active) ≠ pending) as Hst by done.
  split; [split; [apply sample_lookup|exact Hst]|].
  destruct (not_pending_never_dispatched codeUnitCompare toUpperCase utc
              {[ 0%nat := sampleRequest active ]} 0%nat (sampleRequest active)
              [ (1000, OpSendNextBatch sampleDirectory 0%nat);
                (130000, OpTick true sampleDirectory (clockAt 130007));
                (140000, OpGet 0%nat);
                (150000, OpConfirm 0%nat);
                (161000, OpSendNextBatch sampleDirectory 0%nat);
                (190000, OpTick true sampleDirectory (clockAt 190007));
                (400000, OpTick true sampleDirectory (clockAt 400007)) ]
              (sample_lookup _) Hst)
    as (r & Hr & _ & Hn & Hq & Hb & Hp).
  exists r. split; [exact Hr|]. split; [exact Hn|]. split; [exact Hq|].
  split; [exact Hb|exact Hp].
Defined.

(** An import of four rows into a collection that holds one donor: the
    headers are recognised through their variants, the second row repeats
    the e-mail address of the first, the third has the phone of the stored
    donor, and the fourth has a blood group that is not allowed. *)
Example importDonors_sample :
  let stored :=
    {| DonorImport.email := Some "old@example.com"%string;
       DonorImport.name := Some "Old Donor"%string;
       DonorImport.bloodGroup := Some "A+"%string;
       DonorImport.phone := Some "5550100"%string;
       DonorImport.rollNo := None |} in
  let row (name email phone group : string) : list (string * string) :=
    [ ("Student Name", name); ("E-mail", email); ("Mobile No.", phone);
      ("Blood Group", group) ]%string in
  let st :=
    DonorImport.importDonors [stored] (λ _ _, None)
      [ row "Asha  Rao" " Asha@Example.com" "5550101" "ab +";
        row "Asha R" "asha@example.com " "5550102" "O+";
        row "Binu" "binu@example.com" " 5550100 " "O+";
        row "Chitra" "chitra@example.com" "5550103" "C+" ] in
  DonorImport.outcome <$> DonorImport.results st
  = [ DonorImport.Inserted;
      DonorImport.Skipped "Duplicate in file (email)";
      DonorImport.Skipped "Duplicate (phone exists)";
      DonorImport.Failed "Invalid blood group: C+" ]
  ∧ DonorImport.saved st
    = [ {| DonorImport.new_name := "Asha  Rao";
           DonorImport.new_email := "asha@example.com";
           DonorImport.new_phone := "5550101";
           DonorImport.new_bloodGroup := "AB+";
           DonorImport.new_rollNo := None |} ]
  ∧ DonorImport.inserted st = 1%nat
  ∧ DonorImport.skipped st = 3%nat.
Proof. cbv zeta. repeat split; vm_compute; reflexivity. Qed.

(** Numbers as [sendSMS] hands them to the gateway. *)
Example formattedTo_sample :
  formattedTo " 9876543210 " = "+919876543210"%string
  ∧ formattedTo "919876543210" = "+919876543210"%string
  ∧ formattedTo "+44 20 7946 0958" = "+44 20 7946 0958"%string
  ∧ formattedTo "   " = "+"%string.
Proof. repeat split; reflexivity. Qed.

(** A hospital name with the replacement pattern for the match in it: the
    placeholder comes back into the text. *)
Example smsMessage_dollar_sample :
  smsMessage sampleHex "https://innovate-tracker2.vercel.app/" "St $& Mary" 0%nat
    (sampleRequest active) (sampleDonor 5 "Al" "o+" None)
  = "URGENT BLOOD REQUEST: 3 units of O+ needed at St {hospital} Mary. HIGH PRIORITY - EMERGENCY. Respond: https://innovate-tracker2.vercel.app/65f1c0de9a3b4c5d6e701000"%string.
Proof. vm_compute. reflexivity. Qed.

(** Headers of the [authorization] field, with a verifier that accepts the
    token [abc]. *)
Example authenticateToken_sample :
  let verify (token : string) : option nat :=
    if String.eqb token "abc" then Some 7%nat else None in
  authenticateToken verify (Some "Bearer abc"%string) = Next 7%nat
  ∧ authenticateToken verify (Some "Basic abc"%string) = Next 7%nat
  ∧ authenticateToken verify (Some "Bearer xyz"%string) = Forbidden
  ∧ authenticateToken verify (Some "Bearer  abc"%string) = Unauthorized
  ∧ authenticateToken verify (Some "abc"%string) = Unauthorized
  ∧ authenticateToken verify None = Unauthorized.
Proof. cbv zeta. repeat split; reflexivity. Qed.
